(** * Superpowers Teams: task grouping, alignment checkers, milestone report
      and team manager, embedded from the JavaScript sources.

    Source files embedded here:
    - scripts/teams-helpers/task-grouping.js      (module [TaskGrouping])
    - skills/goal-alignment-monitor/lib/checkers.js     (module [Checkers])
    - skills/goal-alignment-monitor/lib/alert-system.js (module [AlertSystem])
    - skills/executing-as-team/lib/team-manager.js      (module [TeamManager])
    - scripts/teams-helpers/detect-mode.js        (module [DetectMode])
    - scripts/teams-helpers/goal-tags.js          (module [GoalTags])
    - skills/executing-as-team/lib/dispatcher.js  (module [Dispatcher])
    - the class of alert-system.js                (module [Alerts])

    JavaScript values are modelled as follows.  A string-valued property
    that may be absent is a [string] whose empty value stands for every
    falsy value (so [a || b] is [js_or a b]); an array-valued property that
    may be absent is an [option (list _)]; a [Map] and an object used as a
    dictionary are insertion-ordered association lists ([JsMap]), because
    the code iterates over them; numbers that only count are [nat] or [Z],
    numbers that can become [NaN] are [jsnum], and the two percentages
    computed with [Math.round] use binary64 floats. *)

From Stdlib Require Import List String Ascii ZArith Lia Bool Arith.
From Stdlib Require Import Permutation Relations DecimalString.
From Stdlib Require Import Floats Uint63.
Import ListNotations.
Open Scope string_scope.
Open Scope list_scope.

Set Implicit Arguments.

(** ** JavaScript primitives *)

Module Js.

(** [a || b] on strings: the empty string is the only falsy string, and it
    also stands for [undefined]. *)
Definition js_or (a b : string) : string :=
  if String.eqb a "" then b else a.

(** A JavaScript number restricted to the integers, or [NaN]. *)
Inductive jsnum : Type :=
| Num (z : Z)
| NaN.

(** [x - 1] where [x] is the result of [Map.get]: [undefined - 1] and
    [NaN - 1] are [NaN]. *)
Definition js_pred (x : option jsnum) : jsnum :=
  match x with
  | Some (Num z) => Num (z - 1)
  | _ => NaN
  end.

(** [x === 0]. *)
Definition js_is_zero (x : jsnum) : bool :=
  match x with
  | Num 0 => true
  | _ => false
  end.

(** [x > y] and [x < y]: every comparison with [NaN] is false. *)
Definition js_gt (x y : jsnum) : bool :=
  match x, y with
  | Num a, Num b => Z.ltb b a
  | _, _ => false
  end.

Definition js_lt (x y : jsnum) : bool := js_gt y x.

(** [x >= y]. *)
Definition js_ge (x y : jsnum) : bool :=
  match x, y with
  | Num a, Num b => Z.leb b a
  | _, _ => false
  end.

(** [x * 2]. *)
Definition js_double (x : jsnum) : jsnum :=
  match x with
  | Num a => Num (a * 2)
  | NaN => NaN
  end.

(** Template-literal rendering of a number. *)
Definition show_nat (n : nat) : string :=
  NilEmpty.string_of_uint (Nat.to_uint n).

Definition show_Z (z : Z) : string :=
  NilZero.string_of_int (Z.to_int z).

Definition show_num (x : jsnum) : string :=
  match x with
  | Num z => show_Z z
  | NaN => "NaN"
  end.

(** [parts.join(sep)]. *)
Fixpoint join (sep : string) (parts : list string) : string :=
  match parts with
  | [] => ""
  | [p] => p
  | p :: rest => (p ++ sep ++ join sep rest)%string
  end.

(** [Math.round] on a binary64 value: the nearest integer, ties towards
    positive infinity; [None] for [NaN] and the infinities. *)
Definition Math_round (x : float) : option Z :=
  match Prim2SF x with
  | S754_zero _ => Some 0%Z
  | S754_finite s m e =>
      let v := if s then Z.neg m else Z.pos m in
      if (0 <=? e)%Z then Some (v * 2 ^ e)%Z
      else Some ((2 * v + 2 ^ (- e)) / 2 ^ (- e + 1))%Z
  | _ => None
  end.

Definition float_of_nat (n : nat) : float :=
  PrimFloat.of_uint63 (Uint63.of_Z (Z.of_nat n)).

(** [Math.round((a / b) * 100)] in binary64 arithmetic; a result that is
    not finite is [NaN]. *)
Definition round_percent (a b : nat) : jsnum :=
  match Math_round (PrimFloat.mul (PrimFloat.div (float_of_nat a) (float_of_nat b))
                                  (float_of_nat 100)) with
  | Some z => Num z
  | None => NaN
  end.

End Js.

(** ** Insertion-ordered maps ([Map], plain objects) *)

Module JsMap.

Section Ops.
Context {V : Type}.

(** [m.get(k)]. *)
Fixpoint get (k : string) (m : list (string * V)) : option V :=
  match m with
  | [] => None
  | (k', v) :: m' => if String.eqb k k' then Some v else get k m'
  end.

(** [m.set(k, v)]: an existing key keeps its position, a new key goes
    last. *)
Fixpoint set (k : string) (v : V) (m : list (string * V)) : list (string * V) :=
  match m with
  | [] => [(k, v)]
  | (k', v') :: m' =>
      if String.eqb k k' then (k, v) :: m' else (k', v') :: set k v m'
  end.

Definition keys (m : list (string * V)) : list string := map fst m.

End Ops.

Abbreviation t V := (list (string * V)) (only parsing).

End JsMap.

(** ** scripts/teams-helpers/task-grouping.js *)

Module TaskGrouping.
Import Js.

(** A task object.  [dependencies] may be absent. *)
Record Task : Type := mkTask {
  id : string;
  title : string;
  dependencies : option (list string);
  goalTags : list (string * string)
}.

(** [task.id || task.title]. *)
Definition taskId (task : Task) : string := js_or (id task) (title task).

(** [task.dependencies || []]. *)
Definition deps (task : Task) : list string :=
  match dependencies task with
  | Some ds => ds
  | None => []
  end.

(** A node of the dependency graph: [{dependents, dependencies, task}]. *)
Record Node : Type := mkNode {
  dependents : list string;
  nodeDependencies : list string;
  nodeTask : Task
}.

Definition Graph : Type := JsMap.t Node.

(** The object returned by [groupTasksForTeams]; the last two properties
    are absent on the early return for an empty task list. *)
Record Groups : Type := mkGroups {
  independent : list Task;
  dependent : list Task;
  dependencyGraph : Graph;
  maxParallel : nat;
  totalTasks : option nat;
  parallelizableTasks : option nat
}.

(** [!t.dependencies || t.dependencies.length === 0]. *)
Definition isIndependent (t : Task) : bool :=
  match dependencies t with
  | None => true
  | Some [] => true
  | Some (_ :: _) => false
  end.

(** [t.dependencies && t.dependencies.length > 0]. *)
Definition isDependent (t : Task) : bool :=
  match dependencies t with
  | Some (_ :: _) => true
  | _ => false
  end.

(** First [forEach] of [buildDependencyGraph]: one node per task key. *)
Definition addNode (graph : Graph) (task : Task) : Graph :=
  JsMap.set (taskId task)
            {| dependents := []; nodeDependencies := deps task; nodeTask := task |}
            graph.

(** Body of the inner [forEach]: [depNode.dependents.push(taskId)] when the
    dependency has a node, nothing otherwise. *)
Definition addDependent (tid : string) (graph : Graph) (depId : string) : Graph :=
  match JsMap.get depId graph with
  | Some depNode =>
      JsMap.set depId
                {| dependents := dependents depNode ++ [tid];
                   nodeDependencies := nodeDependencies depNode;
                   nodeTask := nodeTask depNode |}
                graph
  | None => graph
  end.

(** Body of the second [forEach]; [task.dependencies?.forEach] does nothing
    when the property is absent. *)
Definition populateDependents (graph : Graph) (task : Task) : Graph :=
  match dependencies task with
  | Some ds => fold_left (addDependent (taskId task)) ds graph
  | None => graph
  end.

Definition buildDependencyGraph (tasks : list Task) : Graph :=
  fold_left populateDependents tasks (fold_left addNode tasks []).

Definition groupTasksForTeams (tasks : list Task) : Groups :=
  match tasks with
  | [] =>
      {| independent := []; dependent := []; dependencyGraph := [];
         maxParallel := 0; totalTasks := None; parallelizableTasks := None |}
  | _ =>
      let independent := filter isIndependent tasks in
      let dependent := filter isDependent tasks in
      {| independent := independent;
         dependent := dependent;
         dependencyGraph := buildDependencyGraph tasks;
         maxParallel := Nat.min (List.length independent) 5;
         totalTasks := Some (List.length tasks);
         parallelizableTasks := Some (List.length independent) |}
  end.

Definition getDependentTasks (taskId : string) (dependencyGraph : Graph) : list string :=
  match JsMap.get taskId dependencyGraph with
  | Some node => dependents node
  | None => []
  end.

Definition getDependencyTasks (taskId : string) (dependencyGraph : Graph) : list string :=
  match JsMap.get taskId dependencyGraph with
  | Some node => nodeDependencies node
  | None => []
  end.

(** [completedTasks.includes(depId)]. *)
Definition includes (x : string) (l : list string) : bool :=
  existsb (String.eqb x) l.

Definition areDependenciesComplete (taskId : string) (dependencyGraph : Graph)
    (completedTasks : list string) : bool :=
  forallb (fun depId => includes depId completedTasks)
          (getDependencyTasks taskId dependencyGraph).

(** First loop of [calculateExecutionOrder]: the in-degree of a key is the
    length of the declared dependency array. *)
Definition setInDegree (inDegree : JsMap.t jsnum) (task : Task) : JsMap.t jsnum :=
  JsMap.set (taskId task) (Num (Z.of_nat (List.length (deps task)))) inDegree.

(** Second loop: keys of degree zero, in the map's iteration order. *)
Definition zeroDegree (inDegree : JsMap.t jsnum) : list string :=
  map fst (filter (fun kv => js_is_zero (snd kv)) inDegree).

(** Body of [dependents.forEach] inside the while loop, on the pair
    (in-degree map, queue). *)
Definition reduceInDegree (st : JsMap.t jsnum * list string) (depId : string)
    : JsMap.t jsnum * list string :=
  let currentDegree := JsMap.get depId (fst st) in
  let inDegree' := JsMap.set depId (js_pred currentDegree) (fst st) in
  if js_is_zero (js_pred currentDegree)
  then (inDegree', snd st ++ [depId])
  else (inDegree', snd st).

(** The while loop.  [fuel] bounds the number of iterations; the loop
    answers [None] only when the bound is hit with a non-empty queue. *)
Fixpoint processQueue (fuel : nat) (dependencyGraph : Graph)
    (inDegree : JsMap.t jsnum) (queue order : list string) : option (list string) :=
  match queue with
  | [] => Some order
  | current :: rest =>
      match fuel with
      | O => None
      | S fuel' =>
          let st := fold_left reduceInDegree
                              (getDependentTasks current dependencyGraph)
                              (inDegree, rest) in
          processQueue fuel' dependencyGraph (fst st) (snd st) (order ++ [current])
      end
  end.

(** The loop is run with one unit of fuel per task, which is shown below
    to be enough for every input. *)
Definition calculateExecutionOrder (tasks : list Task) (dependencyGraph : Graph)
    : option (list string) :=
  let inDegree := fold_left setInDegree tasks [] in
  processQueue (List.length tasks) dependencyGraph inDegree (zeroDegree inDegree) [].

Record Validation : Type := mkValidation {
  valid : bool;
  cycleDetected : bool
}.

Definition validateDependencies (tasks : list Task) : option Validation :=
  match calculateExecutionOrder tasks (buildDependencyGraph tasks) with
  | Some order =>
      Some {| valid := Nat.eqb (List.length order) (List.length tasks);
              cycleDetected := negb (Nat.eqb (List.length order) (List.length tasks)) |}
  | None => None
  end.

Record Suggestion : Type := mkSuggestion {
  count : nat;
  reason : string
}.

Definition suggestTeammateCount (tasks : list Task) : Suggestion :=
  let g := groupTasksForTeams tasks in
  let n := List.length (independent g) in
  if Nat.eqb n 0 then
    {| count := 1;
       reason := "All tasks have dependencies, sequential execution needed" |}
  else if Nat.eqb n 1 then
    {| count := 1; reason := "Only one independent task" |}
  else if Nat.leb n 3 then
    {| count := n; reason := "Small number of independent tasks" |}
  else
    {| count := maxParallel g;
       reason := ("Adaptive: " ++ show_nat n ++ " independent tasks, capped at "
                  ++ show_nat (maxParallel g))%string |}.

End TaskGrouping.

(** ** String methods used by the checkers *)

Module JsString.
Import Js.

(** ASCII [toLowerCase]. *)
Definition lower_ascii (c : ascii) : ascii :=
  let n := nat_of_ascii c in
  if Nat.leb 65 n && Nat.leb n 90 then ascii_of_nat (n + 32) else c.

Fixpoint toLowerCase (s : string) : string :=
  match s with
  | EmptyString => EmptyString
  | String c r => String (lower_ascii c) (toLowerCase r)
  end.

Definition is_space (c : ascii) : bool :=
  let n := nat_of_ascii c in
  Nat.eqb n 32 || (Nat.leb 9 n && Nat.leb n 13).

Fixpoint trimStart (s : string) : string :=
  match s with
  | EmptyString => EmptyString
  | String c r => if is_space c then trimStart r else s
  end.

Fixpoint trimEnd (s : string) : string :=
  match s with
  | EmptyString => EmptyString
  | String c r =>
      match trimEnd r with
      | EmptyString => if is_space c then EmptyString else String c EmptyString
      | r' => String c r'
      end
  end.

Definition trim (s : string) : string := trimEnd (trimStart s).

(** [s.split(sep)] for a one-character separator. *)
Fixpoint split (sep : ascii) (s : string) : list string :=
  match s with
  | EmptyString => [EmptyString]
  | String c r =>
      if Ascii.eqb c sep then EmptyString :: split sep r
      else match split sep r with
           | h :: t => String c h :: t
           | [] => [String c EmptyString]
           end
  end.

(** [s.includes(sub)]. *)
Definition includes (sub s : string) : bool :=
  match String.index 0 sub s with
  | Some _ => true
  | None => false
  end.

(** [array.includes(x)] on an array of strings. *)
Definition mem (x : string) (l : list string) : bool :=
  existsb (String.eqb x) l.

(** *** [parseInt] *)

Definition digit_of (radix : nat) (c : ascii) : option Z :=
  let n := nat_of_ascii (lower_ascii c) in
  let d := if Nat.leb 48 n && Nat.leb n 57 then Some (n - 48)
           else if Nat.leb 97 n && Nat.leb n 122 then Some (n - 87)
           else None in
  match d with
  | Some v => if Nat.ltb v radix then Some (Z.of_nat v) else None
  | None => None
  end.

Fixpoint parse_digits (radix : nat) (acc : option Z) (s : list ascii) : option Z :=
  match s with
  | [] => acc
  | c :: r =>
      match digit_of radix c with
      | Some d =>
          parse_digits radix
            (Some (Z.of_nat radix * match acc with Some a => a | None => 0 end + d)%Z) r
      | None => acc
      end
  end.

Fixpoint skip_spaces (s : list ascii) : list ascii :=
  match s with
  | c :: r => if is_space c then skip_spaces r else s
  | [] => []
  end.

(** [parseInt(s)]: leading white space, an optional sign, an optional
    [0x] prefix, then the longest run of digits; [NaN] when there is
    none. *)
Definition parseInt (s : string) : jsnum :=
  let s1 := skip_spaces (list_ascii_of_string s) in
  let '(negative, s2) :=
    match s1 with
    | "-"%char :: r => (true, r)
    | "+"%char :: r => (false, r)
    | _ => (false, s1)
    end in
  let '(radix, s3) :=
    match s2 with
    | "0"%char :: x :: r =>
        if Ascii.eqb (lower_ascii x) "x"%char then (16, r) else (10, s2)
    | _ => (10, s2)
    end in
  match parse_digits radix None s3 with
  | Some v => Num (if negative then - v else v)
  | None => NaN
  end.

(** *** Regular expressions

    The two literals of [PerformanceChecker.check] are sequences of
    one-character atoms with a quantifier, matched case-insensitively
    (flag [i]), with one capture group. *)

Inductive Quant : Type := One | Star | Plus.

Record Atom : Type := mkAtom {
  atomChar : ascii;
  quant : Quant;
  captured : bool
}.

Definition atom_matches (a : Atom) (c : ascii) : bool :=
  Ascii.eqb (lower_ascii (atomChar a)) (lower_ascii c).

(** Length of the longest prefix of [s] matched by the atom's character. *)
Fixpoint run_length (a : Atom) (s : list ascii) : nat :=
  match s with
  | c :: r => if atom_matches a c then S (run_length a r) else 0
  | [] => 0
  end.

(** Greedy quantifier with backtracking: try [n] repetitions, then fewer. *)
Fixpoint backtrack {R : Type} (n : nat) (attempt : nat -> option R) : option R :=
  match attempt n with
  | Some r => Some r
  | None =>
      match n with
      | O => None
      | S n' => backtrack n' attempt
      end
  end.

(** Match the atoms at the start of [s]; the result is the text of the
    capture group. *)
Fixpoint match_here (atoms : list Atom) (s : list ascii) : option (list ascii) :=
  match atoms with
  | [] => Some []
  | a :: rest =>
      let longest := run_length a s in
      let attempt (k : nat) : option (list ascii) :=
        match match_here rest (skipn k s) with
        | Some cap => Some ((if captured a then firstn k s else []) ++ cap)
        | None => None
        end in
      match quant a with
      | One => if Nat.leb 1 longest then attempt 1 else None
      | Star => backtrack longest attempt
      | Plus => backtrack longest (fun k => if Nat.leb 1 k then attempt k else None)
      end
  end.

(** Leftmost match, as [String.prototype.match] without flag [g]. *)
Fixpoint match_from (atoms : list Atom) (s : list ascii) : option (list ascii) :=
  match match_here atoms s with
  | Some cap => Some cap
  | None =>
      match s with
      | [] => None
      | _ :: r => match_from atoms r
      end
  end.

(** [s.match(re)[1]], or [None] when [s.match(re)] is [null]. *)
Definition match_group (atoms : list Atom) (s : string) : option string :=
  match match_from atoms (list_ascii_of_string s) with
  | Some cap => Some (string_of_list_ascii cap)
  | None => None
  end.

Definition lit (c : ascii) : Atom := mkAtom c One false.
Definition star (c : ascii) : Atom := mkAtom c Star false.
Definition grp (c : ascii) (q : Quant) : Atom := mkAtom c q true.

End JsString.

(** ** skills/goal-alignment-monitor/lib/checkers.js *)

Module Checkers.
Import Js JsString.

Inductive Severity : Type := Critical | Warning | Info.

Definition Location : Type := list string.

(** An issue as pushed by a checker: [{message, severity, location?}]. *)
Record Issue : Type := mkIssue {
  message : string;
  severity : option Severity;
  location : option Location
}.

(** [i.severity === 'critical']. *)
Definition isCritical (i : Issue) : bool :=
  match severity i with
  | Some Critical => true
  | _ => false
  end.

(** The object returned by each checker's [check]; [coverage] is set by
    the testing checker only. *)
Module CheckResult.
Record t : Type := mk {
  passed : bool;
  issues : list Issue;
  critical : bool;
  coverage : option Z
}.
End CheckResult.

(** An issue of the combined result: [{category, message, severity,
    location}]. *)
Module AlignmentIssue.
Record t : Type := mk {
  category : string;
  message : string;
  severity : Severity;
  location : option Location
}.
End AlignmentIssue.

(** The object returned by [combineResults]. *)
Module AlignmentResult.
Record t : Type := mk {
  passed : bool;
  issues : list AlignmentIssue.t;
  critical : bool;
  details : JsMap.t CheckResult.t
}.
End AlignmentResult.

(** The code changes handed to the analyzers, which ignore them. *)
Definition Code : Type := list string.

(** [tests.performance] and [tests.security]. *)
Record PerfResults : Type := mkPerf {
  avgResponseTime : option Z;
  concurrentCapacity : option Z
}.

Record SecurityResults : Type := mkSecurity {
  hardcodedSecrets : bool;
  secretLocations : option Location;
  sqlInjectionRisk : bool;
  xssRisk : bool;
  usesJWT : bool;
  usesBcrypt : bool
}.

(** The test results object; every property may be absent. *)
Record Tests : Type := mkTests {
  coverage : option Z;
  unitTests : option Z;
  integrationTests : option Z;
  e2eTests : option Z;
  failed : option Z;
  performance : option PerfResults;
  security : option SecurityResults
}.

Definition noTests : Tests :=
  mkTests None None None None None None None.

(** [x || 0] on an optional number. *)
Definition orZero (x : option Z) : Z :=
  match x with
  | Some z => z
  | None => 0%Z
  end.

(** [x === 0]. *)
Definition isZero (x : option Z) : bool :=
  match x with
  | Some 0%Z => true
  | _ => false
  end.

(** [issues.push(i)] under a condition. *)
Definition pushIf (c : bool) (i : Issue) (issues : list Issue) : list Issue :=
  if c then issues ++ [i] else issues.

(** *** ArchitectureChecker *)

Record Structure : Type := mkStructure {
  hasCircularDeps : bool;
  hasServiceBoundaries : bool;
  hasMutableGlobals : bool;
  hasExternalAPIs : bool;
  complexity : Z;
  structureGraph : Location
}.

Definition analyzeStructure (code : Code) : Structure :=
  {| hasCircularDeps := false;
     hasServiceBoundaries := true;
     hasMutableGlobals := false;
     hasExternalAPIs := false;
     complexity := 5;
     structureGraph := [] |}.

Definition architectureIssues (code : Code) (requirement : string) : list Issue :=
  let structure := analyzeStructure code in
  let r := toLowerCase requirement in
  if String.eqb r "microservices" then
    pushIf (negb (hasServiceBoundaries structure))
           (mkIssue "Missing service boundaries" (Some Warning) None)
      (pushIf (hasCircularDeps structure)
              (mkIssue "Circular dependencies detected" (Some Critical)
                       (Some (structureGraph structure)))
              [])
  else if String.eqb r "monolithic" then
    pushIf (hasExternalAPIs structure)
           (mkIssue "External APIs in monolithic architecture" (Some Info) None) []
  else if String.eqb r "functional" then
    pushIf (hasMutableGlobals structure)
           (mkIssue "Mutable global state in functional code" (Some Warning) None) []
  else
    pushIf (Z.ltb 10 (complexity structure))
           (mkIssue "High cyclomatic complexity" (Some Warning) None) [].

Definition ArchitectureChecker_check (code : Code) (tests : option Tests)
    (requirement : string) : CheckResult.t :=
  let issues := architectureIssues code requirement in
  CheckResult.mk (negb (existsb isCritical issues)) issues
                 (existsb isCritical issues) None.

(** *** StyleChecker *)

Record Style : Type := mkStyle {
  hasClasses : bool;
  hasSideEffects : bool;
  functionalPatternUsed : bool;
  lintingErrors : Z;
  formattingIssues : Z;
  namingConventions : string
}.

Definition analyzeStyle (code : Code) : Style :=
  {| hasClasses := false;
     hasSideEffects := false;
     functionalPatternUsed := false;
     lintingErrors := 0;
     formattingIssues := 0;
     namingConventions := "consistent" |}.

Definition styleIssues (code : Code) (requirement : string) : list Issue :=
  let style := analyzeStyle code in
  let r := toLowerCase requirement in
  if String.eqb r "functional" then
    pushIf (hasSideEffects style)
           (mkIssue "Side effects detected" (Some Warning) None)
      (pushIf (hasClasses style)
              (mkIssue "Classes found in functional code" (Some Info) None) [])
  else if String.eqb r "oop" then
    pushIf (functionalPatternUsed style)
           (mkIssue "Functional patterns in OOP code" (Some Info) None) []
  else if String.eqb r "procedural" then
    []
  else
    pushIf (Z.ltb 0 (formattingIssues style))
           (mkIssue (show_Z (formattingIssues style) ++ " formatting issues")%string
                    (Some Info) None)
      (pushIf (Z.ltb 0 (lintingErrors style))
              (mkIssue (show_Z (lintingErrors style) ++ " linting errors")%string
                       (Some Warning) None) []).

Definition StyleChecker_check (code : Code) (tests : option Tests)
    (requirement : string) : CheckResult.t :=
  let issues := styleIssues code requirement in
  CheckResult.mk (Nat.eqb (List.length issues) 0) issues false None.

(** *** TestingChecker *)

Definition testingIssues (tests : option Tests) (requirement : string) : list Issue :=
  let testResults := match tests with Some t => t | None => noTests end in
  let coverage := orZero (coverage testResults) in
  let requirements := map trim (split "+"%char (toLowerCase requirement)) in
  let issues1 :=
    if mem "unit" requirements then
      if isZero (unitTests testResults) then
        [mkIssue "No unit tests found" (Some Warning) None]
      else if Z.ltb coverage 80 then
        [mkIssue ("Unit test coverage " ++ show_Z coverage ++ "% (target: 80%)")%string
                 (Some Info) None]
      else []
    else [] in
  let issues2 :=
    pushIf (mem "integration" requirements && isZero (integrationTests testResults))
           (mkIssue "No integration tests found" (Some Warning) None) issues1 in
  let issues3 :=
    pushIf (mem "e2e" requirements && isZero (e2eTests testResults))
           (mkIssue "No E2E tests found" (Some Info) None) issues2 in
  pushIf (Z.ltb 0 (orZero (failed testResults)))
         (mkIssue (show_Z (orZero (failed testResults)) ++ " test(s) failed")%string
                  (Some Critical) None)
         issues3.

Definition TestingChecker_check (code : Code) (tests : option Tests)
    (requirement : string) : CheckResult.t :=
  let issues := testingIssues tests requirement in
  let testResults := match tests with Some t => t | None => noTests end in
  CheckResult.mk (negb (existsb isCritical issues)) issues
                 (existsb isCritical issues)
                 (Some (orZero (coverage testResults))).

(** *** PerformanceChecker *)

(** The literal [/<\\s*(\\d+)ms/i]: in a regular-expression literal a doubled
    backslash is a literal backslash, so the atoms are the characters
    [<], backslash, any number of [s], then the group made of a backslash
    and one or more [d], then [ms]. *)
Definition timePattern : list Atom :=
  [lit "<"; lit "\"; star "s"; grp "\" One; grp "d" Plus; lit "m"; lit "s"].

(** The literal [/(\\d+)\\s*concurrent/i], read the same way. *)
Definition throughputPattern : list Atom :=
  [grp "\" One; grp "d" Plus; lit "\"; star "s";
   lit "c"; lit "o"; lit "n"; lit "c"; lit "u"; lit "r"; lit "r";
   lit "e"; lit "n"; lit "t"].

Definition noPerf : PerfResults := mkPerf None None.

(** [tests?.performance || {}]. *)
Definition perfResultsOf (tests : option Tests) : PerfResults :=
  match tests with
  | Some t => match performance t with Some p => p | None => noPerf end
  | None => noPerf
  end.

(** Body of [if (timeMatch)] once [targetTime] and [actualTime] are known. *)
Definition responseTimeIssue (targetTime actualTime : jsnum) (issues : list Issue)
    : list Issue :=
  pushIf (js_gt actualTime targetTime)
         (mkIssue ("Response time " ++ show_num actualTime ++ "ms exceeds target "
                   ++ show_num targetTime ++ "ms")%string
                  (Some (if js_gt actualTime (js_double targetTime)
                         then Critical else Warning))
                  None)
         issues.

(** Body of [if (throughputMatch)]. *)
Definition throughputIssue (targetConcurrent actualConcurrent : jsnum)
    (issues : list Issue) : list Issue :=
  pushIf (js_lt actualConcurrent targetConcurrent)
         (mkIssue ("Concurrent capacity " ++ show_num actualConcurrent
                   ++ " below target " ++ show_num targetConcurrent)%string
                  (Some Warning) None)
         issues.

Definition performanceIssues (tests : option Tests) (requirement : string)
    : list Issue :=
  let perfResults := perfResultsOf tests in
  let timeMatch := match_group timePattern requirement in
  let throughputMatch := match_group throughputPattern requirement in
  let issues1 :=
    match timeMatch with
    | Some g =>
        responseTimeIssue (parseInt g)
                          (Num (orZero (avgResponseTime perfResults))) []
    | None => []
    end in
  match throughputMatch with
  | Some g =>
      throughputIssue (parseInt g)
                      (Num (orZero (concurrentCapacity perfResults))) issues1
  | None => issues1
  end.

Definition PerformanceChecker_check (code : Code) (tests : option Tests)
    (requirement : string) : CheckResult.t :=
  let issues := performanceIssues tests requirement in
  CheckResult.mk (Nat.eqb (List.length issues) 0) issues
                 (existsb isCritical issues) None.

(** *** SecurityChecker *)

Definition noSecurity : SecurityResults :=
  mkSecurity false None false false false false.

(** [tests?.security || {}]. *)
Definition securityResultsOf (tests : option Tests) : SecurityResults :=
  match tests with
  | Some t => match security t with Some s => s | None => noSecurity end
  | None => noSecurity
  end.

Definition securityIssues (tests : option Tests) (requirement : string)
    : list Issue :=
  let securityResults := securityResultsOf tests in
  let issues1 :=
    pushIf (hardcodedSecrets securityResults)
           (mkIssue "Hardcoded secrets detected" (Some Critical)
                    (secretLocations securityResults)) [] in
  let issues2 :=
    pushIf (sqlInjectionRisk securityResults)
           (mkIssue "SQL injection vulnerability detected" (Some Critical) None)
           issues1 in
  let issues3 :=
    pushIf (xssRisk securityResults)
           (mkIssue "XSS vulnerability risk detected" (Some Warning) None)
           issues2 in
  let issues4 :=
    pushIf (includes "jwt" (toLowerCase requirement)
            && negb (usesJWT securityResults))
           (mkIssue "JWT authentication not implemented" (Some Warning) None)
           issues3 in
  pushIf (includes "bcrypt" (toLowerCase requirement)
          && negb (usesBcrypt securityResults))
         (mkIssue "bcrypt hashing not used for passwords" (Some Warning) None)
         issues4.

Definition SecurityChecker_check (code : Code) (tests : option Tests)
    (requirement : string) : CheckResult.t :=
  let issues := securityIssues tests requirement in
  CheckResult.mk (negb (existsb isCritical issues)) issues
                 (existsb isCritical issues) None.

(** *** AlignmentChecker *)

Definition Checker : Type := Code -> option Tests -> string -> CheckResult.t.

(** [this.checkers], in the order of the object literal. *)
Definition checkers : JsMap.t Checker :=
  [("architecture", ArchitectureChecker_check);
   ("style", StyleChecker_check);
   ("testing", TestingChecker_check);
   ("performance", PerformanceChecker_check);
   ("security", SecurityChecker_check)].

(** [goalValue && goalValue !== 'none' && goalValue !== 'standard']. *)
Definition isInvoked (goalValue : option string) : bool :=
  match goalValue with
  | Some v =>
      negb (String.eqb v "") && negb (String.eqb v "none")
      && negb (String.eqb v "standard")
  | None => false
  end.

(** One iteration of the loop over [Object.entries(results)]: the issues
    so far and the critical flag. *)
Definition combineStep (acc : list AlignmentIssue.t * bool)
    (entry : string * CheckResult.t) : list AlignmentIssue.t * bool :=
  if CheckResult.passed (snd entry) then acc
  else
    (fst acc ++
       map (fun issue =>
              AlignmentIssue.mk (fst entry) (message issue)
                (match severity issue with Some s => s | None => Warning end)
                (location issue))
           (CheckResult.issues (snd entry)),
     if CheckResult.critical (snd entry) then true else snd acc).

Definition combineResults (results : JsMap.t CheckResult.t) : AlignmentResult.t :=
  let acc := fold_left combineStep results ([], false) in
  AlignmentResult.mk (Nat.eqb (List.length (fst acc)) 0) (fst acc) (snd acc) results.

(** The loop of [checkAll]: the results of the invoked categories. *)
Definition runCheckers (code : Code) (tests : option Tests)
    (goalTags : JsMap.t string) : JsMap.t CheckResult.t :=
  fold_left
    (fun results entry =>
       let goalValue := JsMap.get (fst entry) goalTags in
       match goalValue with
       | Some v =>
           if isInvoked goalValue
           then JsMap.set (fst entry) (snd entry code tests v) results
           else results
       | None => results
       end)
    checkers [].

Definition checkAll (code : Code) (tests : option Tests)
    (goalTags : JsMap.t string) : AlignmentResult.t :=
  combineResults (runCheckers code tests goalTags).

End Checkers.

(** ** skills/goal-alignment-monitor/lib/alert-system.js *)

Module AlertSystem.
Import Js.

(** The alignment verdict attached to a task result.  [status] and
    [reason] are empty when absent, [issues] is empty when absent. *)
Module Alignment.
Record t : Type := mk {
  status : string;
  reason : string;
  issues : list Checkers.AlignmentIssue.t;
  details : JsMap.t Checkers.CheckResult.t
}.
End Alignment.

(** An element of [taskResults]. *)
Record TaskResult : Type := mkTaskResult {
  id : string;
  taskId : string;
  alignment : option Alignment.t;
  goalTags : JsMap.t string
}.

(** [r.alignment?.status === s]. *)
Definition hasStatus (s : string) (r : TaskResult) : bool :=
  match alignment r with
  | Some a => String.eqb (Alignment.status a) s
  | None => false
  end.

(** [!r.alignment]. *)
Definition lacksAlignment (r : TaskResult) : bool :=
  match alignment r with
  | Some _ => false
  | None => true
  end.

Record Recommendation : Type := mkRecommendation {
  type : string;
  priority : string;
  message : string
}.

Record GoalAchievement : Type := mkGoalAchievement {
  target : string;
  goalAligned : nat;
  goalTotal : nat;
  percentage : jsnum
}.

Module Summary.
Record t : Type := mk {
  totalTasks : nat;
  aligned : nat;
  misaligned : nat;
  notChecked : nat;
  score : jsnum
}.
End Summary.

Module Detail.
Record t : Type := mk {
  id : string;
  status : string;
  issues : nat
}.
End Detail.

Record Report : Type := mkReport {
  milestone : string;
  timestamp : string;
  summary : Summary.t;
  status : string;
  goalAchievements : JsMap.t GoalAchievement;
  recommendations : list Recommendation;
  details : list Detail.t
}.

(** [total > 0 ? Math.round((part / total) * 100) : otherwise]. *)
Definition percentOr (otherwise : jsnum) (part total : nat) : jsnum :=
  if Nat.ltb 0 total then round_percent part total else otherwise.

(** The ids listed by the high-priority recommendation. *)
Definition misalignedTasks (taskResults : list TaskResult) : list string :=
  map (fun r => js_or (id r) (taskId r))
      (filter (hasStatus "misaligned") taskResults).

Definition fixMisaligned (taskResults : list TaskResult) : Recommendation :=
  let ids := misalignedTasks taskResults in
  {| type := "fix-misaligned";
     priority := "high";
     message := ("Review and fix " ++ show_nat (List.length ids)
                 ++ " misaligned task(s): " ++ join ", " ids)%string |}.

Definition improveAlignment (score : jsnum) : Recommendation :=
  {| type := "improve-alignment";
     priority := "medium";
     message := ("Alignment score " ++ show_num score
                 ++ "% is below 80% target")%string |}.

(** [r.goalTags?.[goalKey]] is truthy. *)
Definition declaresGoal (goalKey : string) (r : TaskResult) : bool :=
  match JsMap.get goalKey (goalTags r) with
  | Some v => negb (String.eqb v "")
  | None => false
  end.

(** [r.alignment?.details?.[goalKey]?.passed]. *)
Definition goalPassed (goalKey : string) (r : TaskResult) : bool :=
  match alignment r with
  | Some a =>
      match JsMap.get goalKey (Alignment.details a) with
      | Some c => Checkers.CheckResult.passed c
      | None => false
      end
  | None => false
  end.

Definition goalAchievement (taskResults : list TaskResult)
    (acc : JsMap.t GoalAchievement) (goal : string * string)
    : JsMap.t GoalAchievement :=
  let relevantTasks := filter (declaresGoal (fst goal)) taskResults in
  let goalAligned := List.length (filter (goalPassed (fst goal)) relevantTasks) in
  JsMap.set (fst goal)
    {| target := snd goal;
       goalAligned := goalAligned;
       goalTotal := List.length relevantTasks;
       percentage := percentOr (Num 100) goalAligned (List.length relevantTasks) |}
    acc.

Definition detailOf (r : TaskResult) : Detail.t :=
  Detail.mk (js_or (id r) (taskId r))
            (js_or (match alignment r with
                    | Some a => Alignment.status a
                    | None => ""
                    end) "not-checked")
            (match alignment r with
             | Some a => List.length (Alignment.issues a)
             | None => 0
             end).

(** [generateMilestoneReport({taskResults, goals, milestoneName})]; [now]
    is the value of [new Date().toISOString()]. *)
Definition generateMilestoneReport (now : string) (taskResults : list TaskResult)
    (goals : JsMap.t string) (milestoneName : string) : Report :=
  let aligned := List.length (filter (hasStatus "aligned") taskResults) in
  let misaligned := List.length (filter (hasStatus "misaligned") taskResults) in
  let notChecked := List.length (filter lacksAlignment taskResults) in
  let total := List.length taskResults in
  let score := percentOr (Num 0) aligned total in
  let recommendations1 :=
    if Nat.ltb 0 misaligned then [fixMisaligned taskResults] else [] in
  let recommendations :=
    if js_lt score (Num 80)
    then recommendations1 ++ [improveAlignment score]
    else recommendations1 in
  {| milestone := milestoneName;
     timestamp := now;
     summary := Summary.mk total aligned misaligned notChecked score;
     status := if js_ge score (Num 90) then "aligned"
               else if js_ge score (Num 70) then "partial"
               else "misaligned";
     goalAchievements := fold_left (goalAchievement taskResults) goals [];
     recommendations := recommendations;
     details := map detailOf taskResults |}.

End AlertSystem.

(** ** skills/executing-as-team/lib/team-manager.js

    The manager's state and the methods that update it on a completion
    or a failure.  [dispatchDependentTasks] and [waitForDependencies] wait
    on timers for other tasks and are not embedded. *)

Module TeamManager.
Import Js.

(** What a teammate returns for a task ([dispatchResult.result]). *)
Module WorkResult.
Record t : Type := mk {
  success : bool;
  code : option Checkers.Code;
  changes : option Checkers.Code;
  tests : option Checkers.Tests;
  error : string
}.
End WorkResult.

(** What [dispatcher.dispatch] resolves to. *)
Module DispatchResult.
Record t : Type := mk {
  success : bool;
  result : WorkResult.t;
  error : string
}.
End DispatchResult.

(** The argument of [oversight.checkAlignment]. *)
Record AlignmentRequest : Type := mkRequest {
  taskId : string;
  code : Checkers.Code;
  tests : option Checkers.Tests;
  goalTags : JsMap.t string
}.

(** An oversight agent: [checkAlignment] either returns a verdict or
    throws an error with a message. *)
Definition Oversight : Type := AlignmentRequest -> AlertSystem.Alignment.t + string.

(** An element of [completedTasks]: [{...task, result, alignment}]. *)
Record CompletedTask : Type := mkCompleted {
  task : TaskGrouping.Task;
  result : WorkResult.t;
  alignment : AlertSystem.Alignment.t
}.

(** A value of the [taskResults] map. *)
Inductive TaskOutcome : Type :=
| Succeeded (alignment : AlertSystem.Alignment.t) (result : WorkResult.t)
| Failed (error : string) (blockedDependents : list string).

(** The mutable fields of a [TeamManager]. *)
Record State : Type := mkState {
  completedTasks : list CompletedTask;
  blockedTasks : list string;
  runningTasks : list string;
  taskResults : JsMap.t TaskOutcome
}.

Definition initial : State := mkState [] [] [] [].

Definition getDependentTasks (taskId : string) (dependencyGraph : TaskGrouping.Graph)
    : list string :=
  match JsMap.get taskId dependencyGraph with
  | Some node => TaskGrouping.dependents node
  | None => []
  end.

(** Body of the [for] loop of [handleTaskFailure]. *)
Definition blockOne (blocked : list string) (depId : string) : list string :=
  if TaskGrouping.includes depId blocked then blocked else blocked ++ [depId].

(** The object returned by [handleTaskFailure]. *)
Record Failure : Type := mkFailure {
  failedTask : string;
  failureError : string;
  blockedDependents : list string
}.

Definition handleTaskFailure (planTasks : list TaskGrouping.Task) (st : State)
    (task : TaskGrouping.Task) (error : string) : State * Failure :=
  let groups := TaskGrouping.groupTasksForTeams planTasks in
  let dependents :=
    getDependentTasks (TaskGrouping.id task) (TaskGrouping.dependencyGraph groups) in
  let blocked :=
    if Nat.ltb 0 (List.length dependents)
    then fold_left blockOne dependents (blockedTasks st)
    else blockedTasks st in
  (mkState (completedTasks st) blocked (runningTasks st)
           (JsMap.set (TaskGrouping.id task) (Failed error dependents) (taskResults st)),
   mkFailure (TaskGrouping.id task) error dependents).

(** [a || b || []] on optional arrays. *)
Definition firstPresent (a b : option Checkers.Code) : Checkers.Code :=
  match a, b with
  | Some x, _ => x
  | None, Some y => y
  | None, None => []
  end.

Definition runOversightCheck (oversight : option Oversight)
    (task : TaskGrouping.Task) (result : WorkResult.t) : AlertSystem.Alignment.t :=
  match oversight with
  | None => AlertSystem.Alignment.mk "not-checked" "No oversight agent" [] []
  | Some checkAlignment =>
      match checkAlignment
              (mkRequest (TaskGrouping.id task)
                         (firstPresent (WorkResult.code result)
                                       (WorkResult.changes result))
                         (WorkResult.tests result)
                         (TaskGrouping.goalTags task)) with
      | inl verdict => verdict
      | inr errorMessage => AlertSystem.Alignment.mk "error" errorMessage [] []
      end
  end.

(** [dispatchAndMonitor], given what the dispatcher resolved to; the
    returned value is not used by the callers and is left out. *)
Definition dispatchAndMonitor (planTasks : list TaskGrouping.Task)
    (oversight : option Oversight) (st : State) (task : TaskGrouping.Task)
    (dispatchResult : DispatchResult.t) : State :=
  if negb (DispatchResult.success dispatchResult) then
    fst (handleTaskFailure planTasks st task (DispatchResult.error dispatchResult))
  else
    let running := runningTasks st ++ [TaskGrouping.id task] in
    let result := DispatchResult.result dispatchResult in
    let running' :=
      filter (fun i => negb (String.eqb i (TaskGrouping.id task))) running in
    let st1 := mkState (completedTasks st) (blockedTasks st) running' (taskResults st) in
    if WorkResult.success result then
      let alignment := runOversightCheck oversight task result in
      mkState (completedTasks st1 ++ [mkCompleted task result alignment])
              (blockedTasks st1) (runningTasks st1)
              (JsMap.set (TaskGrouping.id task) (Succeeded alignment result)
                         (taskResults st1))
    else
      fst (handleTaskFailure planTasks st1 task (WorkResult.error result)).

Module Summary.
Record t : Type := mk {
  totalTasks : nat;
  completedTasks : nat;
  blockedTasks : nat;
  alignedTasks : nat;
  misalignedTasks : nat;
  completionRate : jsnum;
  alignmentRate : jsnum
}.
End Summary.

(** [t.alignment?.status === s] on a completed task. *)
Definition completedWith (s : string) (t : CompletedTask) : bool :=
  String.eqb (AlertSystem.Alignment.status (alignment t)) s.

Definition generateSummary (planTasks : list TaskGrouping.Task) (st : State)
    : Summary.t :=
  let completed := List.length (completedTasks st) in
  let blocked := List.length (blockedTasks st) in
  let total := List.length planTasks in
  let aligned := List.length (filter (completedWith "aligned") (completedTasks st)) in
  let misaligned :=
    List.length (filter (completedWith "misaligned") (completedTasks st)) in
  Summary.mk total completed blocked aligned misaligned
             (AlertSystem.percentOr (Num 0) completed total)
             (AlertSystem.percentOr (Num 0) aligned completed).

End TeamManager.

(** ** Plain objects used as maps

    A plain object also answers to the property names it inherits from
    [Object.prototype]; the values found there are functions, or the
    prototype itself under [__proto__]. *)

Module JsObject.

Definition inheritedKeys : list string :=
  ["__proto__"; "constructor"; "hasOwnProperty"; "isPrototypeOf";
   "propertyIsEnumerable"; "toLocaleString"; "toString"; "valueOf";
   "__defineGetter__"; "__defineSetter__"; "__lookupGetter__"; "__lookupSetter__"].

(** [key in {}]. *)
Definition inherited (key : string) : bool := JsString.mem key inheritedKeys.

End JsObject.

(** ** scripts/teams-helpers/detect-mode.js

    [env] is the value of the environment variable
    [CLAUDE_CODE_EXPERIMENTAL_AGENT_TEAMS] and [hasApi] says whether a
    global function [createAgentTeam] exists. *)

Module DetectMode.

Record Detection : Type := mkDetection {
  enabled : bool;
  mode : string;
  canUseTeams : bool;
  envVarSet : bool
}.

Definition detectAgentTeamsMode (env : option string) (hasApi : bool) : Detection :=
  let hasEnvVar :=
    match env with
    | Some v => String.eqb v "1"
    | None => false
    end in
  {| enabled := hasEnvVar && hasApi;
     mode := if hasEnvVar && hasApi then "agent-teams" else "subagent";
     canUseTeams := hasApi;
     envVarSet := hasEnvVar |}.

(** [shouldUseTeamsMode(options)]; [forceTeams] is the truthiness of
    [options.forceTeams]. *)
Definition shouldUseTeamsMode (env : option string) (hasApi : bool)
    (forceTeams : bool) : string :=
  let detection := detectAgentTeamsMode env hasApi in
  if negb forceTeams then
    if enabled detection then "agent-teams" else "subagent"
  else mode detection.

End DetectMode.

(** ** Regular expressions over character classes

    The patterns of goal-tags.js are sequences of one-character classes
    with a greedy quantifier and one capture group, matched with
    backtracking at the leftmost position. *)

Module JsRegExp.
Import JsString.

Record Atom : Type := mkAtom {
  accepts : ascii -> bool;
  quant : Quant;
  captured : bool
}.

(** Length of the longest prefix of [s] whose characters the class
    accepts. *)
Fixpoint run_length (a : Atom) (s : list ascii) : nat :=
  match s with
  | c :: r => if accepts a c then S (run_length a r) else 0
  | [] => 0
  end.

(** Match the atoms at the start of [s]; the result is the text of the
    capture group. *)
Fixpoint match_here (atoms : list Atom) (s : list ascii) : option (list ascii) :=
  match atoms with
  | [] => Some []
  | a :: rest =>
      let longest := run_length a s in
      let attempt (k : nat) : option (list ascii) :=
        match match_here rest (skipn k s) with
        | Some cap => Some ((if captured a then firstn k s else []) ++ cap)
        | None => None
        end in
      match quant a with
      | One => if Nat.leb 1 longest then attempt 1 else None
      | Star => backtrack longest attempt
      | Plus => backtrack longest (fun k => if Nat.leb 1 k then attempt k else None)
      end
  end.

(** Leftmost match, as [String.prototype.match] without flag [g]. *)
Fixpoint match_from (atoms : list Atom) (s : list ascii) : option (list ascii) :=
  match match_here atoms s with
  | Some cap => Some cap
  | None =>
      match s with
      | [] => None
      | _ :: r => match_from atoms r
      end
  end.

(** [s.match(re)[1]], or [None] when [s.match(re)] is [null]. *)
Definition match_group (atoms : list Atom) (s : string) : option string :=
  match match_from atoms (list_ascii_of_string s) with
  | Some cap => Some (string_of_list_ascii cap)
  | None => None
  end.

(** A literal character under flag [i]. *)
Definition char (c : ascii) : Atom :=
  mkAtom (fun x => Ascii.eqb (lower_ascii c) (lower_ascii x)) One false.

(** A literal text under flag [i]. *)
Definition text (s : string) : list Atom := map char (list_ascii_of_string s).

(** The line feed. *)
Definition lineFeed : ascii := ascii_of_nat 10.

(** [[:=]], [\s*], [-+], [\*] and the group [([^\n]+)]. *)
Definition colonOrEquals : Atom :=
  mkAtom (fun x => Ascii.eqb x ":" || Ascii.eqb x "=") One false.

Definition spaces : Atom := mkAtom is_space Star false.

Definition dashes : Atom := mkAtom (fun x => Ascii.eqb x "-") Plus false.

Definition asterisk : Atom := mkAtom (fun x => Ascii.eqb x "*") One false.

Definition restOfLine : Atom :=
  mkAtom (fun x => negb (Ascii.eqb x lineFeed)) Plus true.

(** [s] starts with the characters of [p]. *)
Fixpoint startsWith (p s : list ascii) : bool :=
  match p, s with
  | [], _ => true
  | _ :: _, [] => false
  | a :: p', c :: s' => Ascii.eqb a c && startsWith p' s'
  end.

(** The characters of [s] that a literal text matches under flag [i], and
    what follows them. *)
Fixpoint matchText (p s : list ascii) : option (list ascii * list ascii) :=
  match p, s with
  | [], _ => Some ([], s)
  | _ :: _, [] => None
  | a :: p', c :: s' =>
      if Ascii.eqb (lower_ascii a) (lower_ascii c)
      then match matchText p' s' with
           | Some (m, rest) => Some (c :: m, rest)
           | None => None
           end
      else None
  end.

(** [[\s\S]*?] before a lookahead: the shortest text after which the
    lookahead [stop] holds; [stop] holds at the end of the input. *)
Fixpoint lazyUntil (stop : list ascii -> bool) (s : list ascii) : list ascii :=
  if stop s then []
  else match s with
       | [] => []
       | c :: r => c :: lazyUntil stop r
       end.

End JsRegExp.

(** ** scripts/teams-helpers/goal-tags.js *)

Module GoalTags.
Import Js.

(** The [GoalTags] object. *)
Record t : Type := mk {
  architecture : string;
  codeStyle : string;
  testing : string;
  security : string;
  performance : string;
  userExperience : string
}.

Definition getDefaultGoalTags : t :=
  {| architecture := "standard";
     codeStyle := "standard";
     testing := "unit";
     security := "none";
     performance := "none";
     userExperience := "cli" |}.

(** The line feed that [formatGoalTags] joins its lines with. *)
Definition newline : string := String (ascii_of_nat 10) EmptyString.

(** [if (value !== default) lines.push(`- ${label}: ${value}`)]. *)
Definition pushUnless (default label value : string) (lines : list string)
    : list string :=
  if String.eqb value default then lines
  else lines ++ [("- " ++ label ++ ": " ++ value)%string].

(** The array [lines] of [formatGoalTags]. *)
Definition goalLines (tags : t) : list string :=
  let lines1 := pushUnless "standard" "architecture" (architecture tags)
                           ["**Goal Tags:**"] in
  let lines2 := pushUnless "standard" "style" (codeStyle tags) lines1 in
  let lines3 := pushUnless "unit" "testing" (testing tags) lines2 in
  let lines4 := pushUnless "none" "security" (security tags) lines3 in
  pushUnless "none" "performance" (performance tags) lines4.

Definition formatGoalTags (tags : t) : string := join newline (goalLines tags).

Definition validArchitectures : list string :=
  ["microservices"; "monolithic"; "plugin-based"; "standard"].

Definition validStyles : list string :=
  ["functional"; "oop"; "procedural"; "standard"].

Definition validTesting : list string :=
  ["unit"; "integration"; "e2e"; "none"; "unit+integration"].

(** [if (!valid.includes(value)) errors.push(`Invalid ${label}: ${value}`)]. *)
Definition pushInvalid (valid : list string) (label value : string)
    (errors : list string) : list string :=
  if JsString.mem value valid then errors
  else errors ++ [("Invalid " ++ label ++ ": " ++ value)%string].

Module Validation.
Record t : Type := mk {
  valid : bool;
  errors : list string
}.
End Validation.

Definition validateGoalTags (tags : t) : Validation.t :=
  let errors1 := pushInvalid validArchitectures "architecture" (architecture tags) [] in
  let errors2 := pushInvalid validStyles "code style" (codeStyle tags) errors1 in
  let errors := pushInvalid validTesting "testing" (testing tags) errors2 in
  Validation.mk (Nat.eqb (List.length errors) 0) errors.

(** The patterns of [extractGoal], built by [new RegExp] from template
    literals, in which a doubled backslash stands for one.  The key is
    inserted into the pattern as it is: the embedding reads it as a
    literal text, which is what the pattern means for a key of letters,
    digits and spaces, as all the keys of [parseGoalTags] are. *)
Definition keyPattern (key : string) : list JsRegExp.Atom :=
  JsRegExp.text key
  ++ [JsRegExp.colonOrEquals; JsRegExp.spaces; JsRegExp.restOfLine].

Definition patterns (key : string) : list (list JsRegExp.Atom) :=
  [keyPattern key;
   JsRegExp.dashes :: JsRegExp.spaces :: keyPattern key;
   JsRegExp.asterisk :: JsRegExp.spaces :: keyPattern key].

(** The loop of [extractGoal]: the trimmed group of the first pattern
    that matches. *)
Fixpoint firstMatch (patterns : list (list JsRegExp.Atom)) (section : string)
    : option string :=
  match patterns with
  | [] => None
  | pattern :: rest =>
      match JsRegExp.match_group pattern section with
      | Some group => Some (JsString.trim group)
      | None => firstMatch rest section
      end
  end.

Definition extractGoal (section key : string) : option string :=
  firstMatch (patterns key) section.

(** The lookahead [(?=## |---|$)]. *)
Definition sectionEnd (rest : list ascii) : bool :=
  match rest with
  | [] => true
  | _ :: _ =>
      JsRegExp.startsWith (list_ascii_of_string "## ") rest
      || JsRegExp.startsWith (list_ascii_of_string "---") rest
  end.

(** The match of [/## Goal Metrics[\s\S]*?(?=## |---|$)/i] at the start
    of [s]. *)
Definition sectionAt (s : list ascii) : option (list ascii) :=
  match JsRegExp.matchText (list_ascii_of_string "## Goal Metrics") s with
  | Some (header, rest) => Some (header ++ JsRegExp.lazyUntil sectionEnd rest)
  | None => None
  end.

(** The leftmost match. *)
Fixpoint sectionFrom (s : list ascii) : option (list ascii) :=
  match sectionAt s with
  | Some found => Some found
  | None =>
      match s with
      | [] => None
      | _ :: r => sectionFrom r
      end
  end.

(** [designDoc.match(...)], then [goalSection[0]]. *)
Definition goalSection (designDoc : string) : option string :=
  match sectionFrom (list_ascii_of_string designDoc) with
  | Some found => Some (string_of_list_ascii found)
  | None => None
  end.

(** [extractGoal(sectionText, key) || default]. *)
Definition goalOr (sectionText key default : string) : string :=
  match extractGoal sectionText key with
  | Some value => js_or value default
  | None => default
  end.

(** [parseGoalTags(designDoc)]; the empty string also stands for an
    absent document. *)
Definition parseGoalTags (designDoc : string) : t :=
  if String.eqb designDoc "" then getDefaultGoalTags
  else
    match goalSection designDoc with
    | None => getDefaultGoalTags
    | Some sectionText =>
        {| architecture := goalOr sectionText "architecture" "standard";
           codeStyle := goalOr sectionText "code style" "standard";
           testing := goalOr sectionText "testing" "unit";
           security := goalOr sectionText "security" "none";
           performance := goalOr sectionText "performance" "none";
           userExperience := goalOr sectionText "user experience" "cli" |}
    end.

(** The object as [checkAll] and [generateMilestoneReport] read it:
    [goalTags[key]] is the property of that name. *)
Definition properties (tags : t) : JsMap.t string :=
  [("architecture", architecture tags);
   ("codeStyle", codeStyle tags);
   ("testing", testing tags);
   ("security", security tags);
   ("performance", performance tags);
   ("userExperience", userExperience tags)].

End GoalTags.

(** ** skills/executing-as-team/lib/dispatcher.js

    The teammate table of a [TeamDispatcher] and the methods that read
    and update it.  [dispatchToAgentTeams] and [dispatchToSubagent] first
    pick a teammate and mark it as working, then await a function that
    the repository does not define; the first part, which is the same in
    both, is embedded as [assignTeammate]. *)

Module Dispatcher.
Import Js.

(** A value of [activeTeammates]: [{id, currentTask, status}];
    [currentTask] is [null] or a task id.  Task ids are strings, as the
    parameters of [completeTask] and [failTask] are documented. *)
Record Teammate : Type := mkTeammate {
  id : nat;
  currentTask : option string;
  status : string
}.

(** A value of the dispatcher's [completedTasks] map: the result handed
    to [completeTask], or the [{success: false, error}] of [failTask]. *)
Inductive Outcome : Type :=
| Completed (result : TeamManager.WorkResult.t)
| FailedWith (error : string).

(** The fields of a [TeamDispatcher] that its methods use;
    [activeTeammates] is a [Map] from teammate numbers. *)
Record State : Type := mkState {
  teammateCount : nat;
  mode : DetectMode.Detection;
  activeTeammates : list (nat * Teammate);
  completedTasks : JsMap.t Outcome
}.

(** [activeTeammates.get(i)]. *)
Fixpoint getTeammate (i : nat) (m : list (nat * Teammate)) : option Teammate :=
  match m with
  | [] => None
  | (j, t) :: m' => if Nat.eqb i j then Some t else getTeammate i m'
  end.

(** Assignment to properties of the object [activeTeammates.get(i)]. *)
Fixpoint updateTeammate (i : nat) (f : Teammate -> Teammate)
    (m : list (nat * Teammate)) : list (nat * Teammate) :=
  match m with
  | [] => []
  | (j, t) :: m' =>
      if Nat.eqb i j then (j, f t) :: m' else (j, t) :: updateTeammate i f m'
  end.

(** The constructor: teammates [0 .. teammateCount - 1], all idle. *)
Definition create (mode : DetectMode.Detection) (teammateCount : nat) : State :=
  {| teammateCount := teammateCount;
     mode := mode;
     activeTeammates :=
       map (fun i => (i, mkTeammate i None "idle")) (seq 0 teammateCount);
     completedTasks := [] |}.

(** [teammate.status === 'idle' || teammate.status === 'working']. *)
Definition isEligible (t : Teammate) : bool :=
  String.eqb (status t) "idle" || String.eqb (status t) "working".

(** [teammate.currentTask ? 1 : 0]: [null] and the empty string are
    falsy. *)
Definition taskCount (t : Teammate) : nat :=
  match currentTask t with
  | Some s => if String.eqb s "" then 0 else 1
  | None => 0
  end.

(** [taskCount < minTasks]; [None] is [Infinity]. *)
Definition belowMin (n : nat) (minTasks : option nat) : bool :=
  match minTasks with
  | Some m => Nat.ltb n m
  | None => true
  end.

(** Body of the [forEach] of [findAvailableTeammate], on the pair
    ([minTasks], [availableId]). *)
Definition pick (acc : option nat * nat) (entry : nat * Teammate)
    : option nat * nat :=
  if isEligible (snd entry) then
    if belowMin (taskCount (snd entry)) (fst acc)
    then (Some (taskCount (snd entry)), fst entry)
    else acc
  else acc.

Definition findAvailableTeammate (st : State) : nat :=
  snd (fold_left pick (activeTeammates st) (None, 0)).

(** The start of [dispatchToAgentTeams] and of [dispatchToSubagent]: the
    teammate found gets the task id and the status "working".  [None] is
    the [TypeError] raised when the table has no teammate under the
    number found. *)
Definition assignTeammate (st : State) (task : TaskGrouping.Task)
    : option (State * nat) :=
  let teammateId := findAvailableTeammate st in
  match getTeammate teammateId (activeTeammates st) with
  | None => None
  | Some _ =>
      Some ({| teammateCount := teammateCount st;
               mode := mode st;
               activeTeammates :=
                 updateTeammate teammateId
                   (fun t => mkTeammate (id t) (Some (TaskGrouping.id task)) "working")
                   (activeTeammates st);
               completedTasks := completedTasks st |},
            teammateId)
  end.

(** [teammate.currentTask === taskId]. *)
Definition holds (taskId : string) (t : Teammate) : bool :=
  match currentTask t with
  | Some s => String.eqb s taskId
  | None => false
  end.

(** The [forEach] of [completeTask] and of [failTask]: every teammate
    whose current task is [taskId] loses it and gets the given status. *)
Definition release (newStatus : string) (taskId : string)
    (m : list (nat * Teammate)) : list (nat * Teammate) :=
  map (fun entry =>
         if holds taskId (snd entry)
         then (fst entry, mkTeammate (id (snd entry)) None newStatus)
         else entry)
      m.

Definition completeTask (st : State) (taskId : string)
    (result : TeamManager.WorkResult.t) : State :=
  {| teammateCount := teammateCount st;
     mode := mode st;
     activeTeammates := release "idle" taskId (activeTeammates st);
     completedTasks := JsMap.set taskId (Completed result) (completedTasks st) |}.

Definition failTask (st : State) (taskId : string) (error : string) : State :=
  {| teammateCount := teammateCount st;
     mode := mode st;
     activeTeammates := release "failed" taskId (activeTeammates st);
     completedTasks := JsMap.set taskId (FailedWith error) (completedTasks st) |}.

(** An element of [teammates] in the object returned by [getStatus]. *)
Record TeammateStatus : Type := mkTeammateStatus {
  teammateId : nat;
  teammateStatus : string;
  teammateTask : option string
}.

Module Status.
Record t : Type := mk {
  mode : string;
  teammateCount : nat;
  teammates : list TeammateStatus;
  completedTasks : nat;
  totalTasks : nat
}.
End Status.

(** [getStatus()]; [planTasks] is [this.plan.tasks], which may be
    absent. *)
Definition getStatus (planTasks : option (list TaskGrouping.Task)) (st : State)
    : Status.t :=
  Status.mk (DetectMode.mode (mode st)) (teammateCount st)
            (map (fun entry =>
                    mkTeammateStatus (fst entry) (status (snd entry))
                                     (currentTask (snd entry)))
                 (activeTeammates st))
            (List.length (completedTasks st))
            (match planTasks with
             | Some tasks => List.length tasks
             | None => 0
             end).

End Dispatcher.

(** ** The class [AlertSystem] of alert-system.js

    [sendAlert] stamps the alert with the current time and a random
    identifier: the embedding takes both as arguments.  [getHistory]
    compares dates read by [new Date]: the embedding takes the reading
    [parseDate] as an argument, [NaN] for a text that is no date.  Every
    alert carries an array of issues, and every call of [sendAlert] is
    given an alert object of its own. *)

Module Alerts.
Import Js.

(** An issue of an alert; the class reads its message only. *)
Record Issue : Type := mkIssue {
  category : string;
  message : string
}.

(** An alert: [{id, timestamp, taskId, type, severity, issues}];
    [taskId] may be absent. *)
Record Alert : Type := mkAlert {
  id : string;
  timestamp : string;
  taskId : option string;
  type : string;
  severity : string;
  issues : list Issue
}.

(** The fields of an [AlertSystem]. *)
Record State : Type := mkState {
  notificationQueue : list Alert;
  alertHistory : list Alert;
  criticalAlertsSent : bool
}.

(** The constructor. *)
Definition create : State := mkState [] [] false.

(** [alert.issues.map(i => i.message).join(', ')]. *)
Definition messages (alert : Alert) : string :=
  join ", " (map message (issues alert)).

(** [`${alert.taskId}`]. *)
Definition showTaskId (alert : Alert) : string :=
  match taskId alert with
  | Some s => s
  | None => "undefined"
  end.

Definition formatCriticalAlert (alert : Alert) : string :=
  ("[" ++ showTaskId alert ++ "] " ++ type alert ++ ": " ++ messages alert)%string.

(** The object returned by [notifyImmediately]. *)
Record Notification : Type := mkNotification {
  notificationType : string;
  alertId : string;
  notificationMessage : string;
  actionRequired : bool
}.

Definition notifyImmediately (alert : Alert) : Notification :=
  {| notificationType := "critical-alert";
     alertId := id alert;
     notificationMessage := formatCriticalAlert alert;
     actionRequired := true |}.

Definition queueNotification (st : State) (alert : Alert) : State :=
  {| notificationQueue := notificationQueue st ++ [alert];
     alertHistory := alertHistory st;
     criticalAlertsSent := criticalAlertsSent st |}.

(** [sendAlert(alert)] with the time stamp [now] and the identifier
    [newId] that it assigns; what [notifyImmediately] returns is
    dropped. *)
Definition sendAlert (now newId : string) (st : State) (alert : Alert) : State :=
  let stamped :=
    mkAlert newId now (taskId alert) (type alert) (severity alert) (issues alert) in
  let st1 :=
    {| notificationQueue := notificationQueue st;
       alertHistory := alertHistory st ++ [stamped];
       criticalAlertsSent := criticalAlertsSent st |} in
  if String.eqb (severity stamped) "critical"
  then {| notificationQueue := notificationQueue st1;
          alertHistory := alertHistory st1;
          criticalAlertsSent := true |}
  else queueNotification st1 stamped.

(** An element of a group of [groupByTask]. *)
Record Entry : Type := mkEntry {
  entryType : string;
  entrySeverity : string;
  entryMessage : string
}.

(** [alert.taskId || 'unknown']. *)
Definition groupKey (alert : Alert) : string :=
  match taskId alert with
  | Some s => js_or s "unknown"
  | None => "unknown"
  end.

(** Body of the loop of [groupByTask].  Under a name that the object
    inherits, [grouped[taskId]] is the inherited value, which is truthy
    and has no [push]: the call raises a [TypeError], [None] here. *)
Definition groupStep (grouped : JsMap.t (list Entry)) (alert : Alert)
    : option (JsMap.t (list Entry)) :=
  let entry := mkEntry (type alert) (severity alert) (messages alert) in
  if JsObject.inherited (groupKey alert) then None
  else
    match JsMap.get (groupKey alert) grouped with
    | Some group => Some (JsMap.set (groupKey alert) (group ++ [entry]) grouped)
    | None => Some (JsMap.set (groupKey alert) [entry] grouped)
    end.

(** The loop of [groupByTask] from the object built so far. *)
Fixpoint groupFrom (grouped : JsMap.t (list Entry)) (alerts : list Alert)
    : option (JsMap.t (list Entry)) :=
  match alerts with
  | [] => Some grouped
  | alert :: rest =>
      match groupStep grouped alert with
      | Some grouped' => groupFrom grouped' rest
      | None => None
      end
  end.

(** [groupByTask(alerts)], [None] when it raises.  The result is a plain
    object, which enumerates integer-like keys first: only lookups in it
    are used below. *)
Definition groupByTask (alerts : list Alert) : option (JsMap.t (list Entry)) :=
  groupFrom [] alerts.

(** [alerts.filter(a => a.severity === s).length]. *)
Definition countSeverity (s : string) (alerts : list Alert) : nat :=
  List.length (filter (fun a => String.eqb (severity a) s) alerts).

Record BatchFormat : Type := mkBatchFormat {
  summary : string;
  byTask : JsMap.t (list Entry)
}.

(** [formatBatchAlert(alerts)], [None] when [groupByTask] raises. *)
Definition formatBatchAlert (alerts : list Alert) : option BatchFormat :=
  let critical := countSeverity "critical" alerts in
  let warning := countSeverity "warning" alerts in
  let info := countSeverity "info" alerts in
  match groupByTask alerts with
  | Some grouped =>
      Some {| summary :=
                (show_nat critical ++ " critical, "
                 ++ show_nat warning ++ " warning, "
                 ++ show_nat info ++ " info")%string;
              byTask := grouped |}
  | None => None
  end.

(** The object returned by [sendBatchNotifications]: [{sent: 0}] for an
    empty queue, [{sent, alerts, summary}] otherwise. *)
Record BatchResult : Type := mkBatchResult {
  sent : nat;
  alerts : option (list Alert);
  batchSummary : option string
}.

(** [sendBatchNotifications()]: the queue is emptied before the batch is
    formatted, so it is empty also when the formatting raises and no
    result is returned ([None]). *)
Definition sendBatchNotifications (st : State) : State * option BatchResult :=
  match notificationQueue st with
  | [] => (st, Some (mkBatchResult 0 None None))
  | _ :: _ =>
      let batch := notificationQueue st in
      ({| notificationQueue := [];
          alertHistory := alertHistory st;
          criticalAlertsSent := criticalAlertsSent st |},
       match formatBatchAlert batch with
       | Some formatted =>
           Some (mkBatchResult (List.length batch) (Some batch)
                               (Some (summary formatted)))
       | None => None
       end)
  end.

(** [n.taskId !== taskId]. *)
Definition otherTask (taskId' : string) (n : Alert) : bool :=
  match taskId n with
  | Some s => negb (String.eqb s taskId')
  | None => true
  end.

(** [clearNotifications(taskId)]; the empty string stands for an absent
    argument, which is falsy as well. *)
Definition clearNotifications (st : State) (taskId' : string) : State :=
  {| notificationQueue :=
       if String.eqb taskId' "" then []
       else filter (otherTask taskId') (notificationQueue st);
     alertHistory := alertHistory st;
     criticalAlertsSent := criticalAlertsSent st |}.

(** The argument of [getHistory]; an empty string is an absent filter. *)
Record Filters : Type := mkFilters {
  byTaskId : string;
  bySeverity : string;
  since : string
}.

(** [a.taskId === filters.taskId]. *)
Definition ofTask (taskId' : string) (a : Alert) : bool :=
  match taskId a with
  | Some s => String.eqb s taskId'
  | None => false
  end.

Definition getHistory (parseDate : string -> jsnum) (st : State)
    (filters : Filters) : list Alert :=
  let history1 :=
    if String.eqb (byTaskId filters) "" then alertHistory st
    else filter (ofTask (byTaskId filters)) (alertHistory st) in
  let history2 :=
    if String.eqb (bySeverity filters) "" then history1
    else filter (fun a => String.eqb (severity a) (bySeverity filters)) history1 in
  if String.eqb (since filters) "" then history2
  else filter (fun a => js_gt (parseDate (timestamp a)) (parseDate (since filters)))
              history2.

End Alerts.

(** * Specification vocabulary *)

(** ** Dependency graphs *)

Module GraphNotions.
Import Js TaskGrouping.

(** The keys of the tasks, in input order. *)
Definition taskIds (tasks : list Task) : list string := map taskId tasks.

(** [dependsOn tasks a b]: a task of the list with key [a] declares [b]
    among its dependencies. *)
Definition dependsOn (tasks : list Task) (a b : string) : Prop :=
  exists t, In t tasks /\ taskId t = a /\ In b (deps t).

(** A key lies on a dependency cycle when it reaches itself through one
    or more declared dependencies. *)
Definition onCycle (tasks : list Task) (k : string) : Prop :=
  clos_trans string (dependsOn tasks) k k.

Definition hasCycle (tasks : list Task) : Prop := exists k, onCycle tasks k.

Definition acyclic (tasks : list Task) : Prop := forall k, ~ onCycle tasks k.

(** Every declared dependency is the key of a task of the list. *)
Definition resolved (tasks : list Task) : Prop :=
  forall t d, In t tasks -> In d (deps t) -> In d (taskIds tasks).

(** [d] is declared as a dependency but is the key of no task. *)
Definition dangling (tasks : list Task) (d : string) : Prop :=
  (exists t, In t tasks /\ In d (deps t)) /\ ~ In d (taskIds tasks).

(** In a topological order every task comes after all its dependencies. *)
Definition topological (tasks : list Task) (order : list string) : Prop :=
  forall l1 k l2 t,
    order = l1 ++ k :: l2 -> In t tasks -> taskId t = k -> incl (deps t) l1.

(** The keys of the tasks that declare [d], in input order, once per
    declaration. *)
Definition dependentsOf (tasks : list Task) (d : string) : list string :=
  flat_map (fun t => map (fun _ => taskId t) (filter (String.eqb d) (deps t))) tasks.

(** The last task of the list with key [k]. *)
Definition lastTask (tasks : list Task) (k : string) : option Task :=
  find (fun t => String.eqb (taskId t) k) (rev tasks).

(** The node that [buildDependencyGraph] holds for a task. *)
Definition nodeOf (tasks : list Task) (t : Task) : Node :=
  {| dependents := dependentsOf tasks (taskId t);
     nodeDependencies := deps t;
     nodeTask := t |}.

(** Number of occurrences of [x] in [l]. *)
Definition occ (x : string) (l : list string) : nat :=
  List.length (filter (String.eqb x) l).

(** Number of declared dependencies of [t] that are not yet in [order]. *)
Definition remaining (order : list string) (t : Task) : nat :=
  List.length (filter (fun d => negb (includes d order)) (deps t)).

(** The numeric in-degree recorded for a key, if any. *)
Definition degree (inDegree : JsMap.t jsnum) (k : string) : option Z :=
  match JsMap.get k inDegree with
  | Some (Num z) => Some z
  | _ => None
  end.

(** Invariant of the while loop of [calculateExecutionOrder] for an
    arbitrary graph: no key is queued twice, queued and emitted keys have
    a recorded degree that is not positive, and only task keys have a
    numeric degree. *)
Definition queueInv (tasks : list Task)
    (inDegree : JsMap.t jsnum) (queue order : list string) : Prop :=
  NoDup (order ++ queue)
  /\ (forall k, In k (order ++ queue) ->
                exists z, degree inDegree k = Some z /\ (z <= 0)%Z)
  /\ (forall k z, degree inDegree k = Some z -> In k (taskIds tasks)).

(** Invariant of the loop on the graph of a list with pairwise distinct
    keys: the recorded degree of a task is the number of its dependencies
    still to be emitted, a key is queued or emitted exactly when that
    number is zero, and the emitted prefix is topologically ordered. *)
Definition kahnInv (tasks : list Task)
    (inDegree : JsMap.t jsnum) (queue order : list string) : Prop :=
  NoDup (order ++ queue)
  /\ incl (order ++ queue) (taskIds tasks)
  /\ (forall t, In t tasks ->
                degree inDegree (taskId t) = Some (Z.of_nat (remaining order t)))
  /\ (forall t, In t tasks ->
                (In (taskId t) (order ++ queue) <-> remaining order t = 0))
  /\ topological tasks order.

End GraphNotions.

(** ** Scenarios *)

Module Scenarios.
Import TaskGrouping.

(** A task [i(ds)] with id [i] and dependency array [ds]. *)
Definition task (i : string) (ds : list string) : Task :=
  mkTask i ("Task " ++ i)%string (Some ds) [].

(** The diamond [1(), 2(1), 3(1), 4(2,3)]. *)
Definition diamond : list Task :=
  [task "1" []; task "2" ["1"]; task "3" ["1"]; task "4" ["2"; "3"]].

(** The cycle [1(2), 2(1)]. *)
Definition twoCycle : list Task :=
  [task "1" ["2"]; task "2" ["1"]].

(** [1(), 2(), 3(1)]. *)
Definition twoIndependent : list Task :=
  [task "1" []; task "2" []; task "3" ["1"]].

(** One task whose only dependency names no task. *)
Definition unknownOnly : list Task :=
  [task "1" ["9"]].

(** Two tasks, the second with a known and an unknown dependency. *)
Definition unknownSecond : list Task :=
  [task "1" []; task "2" ["1"; "7"]].

(** Two tasks under the same id. *)
Definition sameId : list Task :=
  [task "1" []; task "1" ["1"]].

End Scenarios.

(** ** Alignment checks *)

Module CheckNotions.
Import Js Checkers.

(** A category result reports a critical issue. *)
Definition reportsCritical (r : CheckResult.t) : bool :=
  existsb isCritical (CheckResult.issues r).

(** The severity policy shared by the results the five checkers can
    return: the critical flag says whether a critical issue is reported,
    and the category passes exactly when none is. *)
Definition criticalPolicy (r : CheckResult.t) : Prop :=
  CheckResult.critical r = reportsCritical r
  /\ CheckResult.passed r = negb (reportsCritical r).

(** The result of a checker that found nothing. *)
Definition clean : CheckResult.t := CheckResult.mk true [] false None.

(** The result of the category [key] when it is invoked: the key names
    a checker and its goal tag is present and is neither empty, "none"
    nor "standard". *)
Definition categoryResult (code : Code) (tests : option Tests)
    (goalTags : JsMap.t string) (key : string) : option CheckResult.t :=
  match JsMap.get key checkers, JsMap.get key goalTags with
  | Some checker, Some v =>
      if isInvoked (Some v) then Some (checker code tests v) else None
  | _, _ => None
  end.

(** Test results whose only content is an average response time. *)
Definition measured (ms : Z) : option Tests :=
  Some (mkTests None None None None None (Some (mkPerf (Some ms) None)) None).

End CheckNotions.

(** ** Reports *)

Module ReportNotions.
Import Js AlertSystem.

(** Number of recommendations of a given priority. *)
Definition withPriority (p : string) (recs : list Recommendation) : nat :=
  List.length (filter (fun r => String.eqb (priority r) p) recs).

(** A verdict that only carries a status. *)
Definition verdict (s : string) : Alignment.t := Alignment.mk s "" [] [].

(** A task result with id [i] and a verdict of status [s]. *)
Definition resultWith (i s : string) : TaskResult :=
  mkTaskResult i "" (Some (verdict s)) [].

(** An alignment rate that leaves the tasks whose check errored out of
    the denominator, as the error-handling section of the specification
    words it: aligned tasks over completed tasks whose status is not
    "error". *)
Definition rateExcludingErrors (st : TeamManager.State) : jsnum :=
  let checked :=
    filter (fun t => negb (TeamManager.completedWith "error" t))
           (TeamManager.completedTasks st) in
  percentOr (Num 0)
            (List.length (filter (TeamManager.completedWith "aligned") checked))
            (List.length checked).

(** An oversight agent whose analysis throws for task 2 and finds every
    other task aligned. *)
Definition flakyOversight : TeamManager.Oversight :=
  fun request =>
    if String.eqb (TeamManager.taskId request) "2"
    then inr "analysis failed"
    else inl (verdict "aligned").

(** A dispatch that succeeded with a successful piece of work. *)
Definition succeeded : TeamManager.DispatchResult.t :=
  TeamManager.DispatchResult.mk true
    (TeamManager.WorkResult.mk true None None None "") "".

Definition twoTasks : list TaskGrouping.Task :=
  [Scenarios.task "1" []; Scenarios.task "2" []].

(** The manager after both tasks of [twoTasks] completed under
    [flakyOversight]. *)
Definition afterBoth : TeamManager.State :=
  TeamManager.dispatchAndMonitor twoTasks (Some flakyOversight)
    (TeamManager.dispatchAndMonitor twoTasks (Some flakyOversight)
       TeamManager.initial (Scenarios.task "1" []) succeeded)
    (Scenarios.task "2" []) succeeded.

End ReportNotions.

(** ** Runs of the team manager *)

Module RunNotions.
Import TeamManager.

(** One call of [dispatchAndMonitor]: the task and what the dispatcher
    resolved to. *)
Definition Event : Type := (TaskGrouping.Task * DispatchResult.t)%type.

(** The call ends in [handleTaskFailure]: the dispatch failed, or the
    work did. *)
Definition failed (e : Event) : bool :=
  negb (DispatchResult.success (snd e))
  || negb (WorkResult.success (DispatchResult.result (snd e))).

(** The manager after the calls of [events], in the order in which they
    update the completed and blocked lists, starting from a new
    manager. *)
Definition run (planTasks : list TaskGrouping.Task) (oversight : option Oversight)
    (events : list Event) : State :=
  fold_left (fun st e => dispatchAndMonitor planTasks oversight st (fst e) (snd e))
            events initial.

End RunNotions.

(** ** Aggregated issues *)

Module IssueNotions.
Import Checkers.

(** The issue of a category as it appears in the combined result. *)
Definition tagged (category : string) (issue : Issue) : AlignmentIssue.t :=
  AlignmentIssue.mk category (message issue)
    (match severity issue with Some s => s | None => Warning end)
    (location issue).

(** The issues a category contributes to the combined result. *)
Definition contribution (entry : string * CheckResult.t) : list AlignmentIssue.t :=
  if CheckResult.passed (snd entry) then []
  else map (tagged (fst entry)) (CheckResult.issues (snd entry)).

End IssueNotions.

(** ** Sequences of dispatcher calls *)

Module DispatchNotions.
Import Dispatcher.

(** The keys of the teammate table. *)
Definition teammateIds (st : State) : list nat := map fst (activeTeammates st).

(** Assign the tasks one after the other; the teammates found, or [None]
    at the first [TypeError]. *)
Fixpoint assignAll (st : State) (tasks : list TaskGrouping.Task)
    : option (State * list nat) :=
  match tasks with
  | [] => Some (st, [])
  | task :: rest =>
      match assignTeammate st task with
      | Some (st1, i) =>
          match assignAll st1 rest with
          | Some (st2, found) => Some (st2, i :: found)
          | None => None
          end
      | None => None
      end
  end.

(** A call of one of the three methods that update the table. *)
Inductive Op : Type :=
| Assign (task : TaskGrouping.Task)
| Complete (taskId : string) (result : TeamManager.WorkResult.t)
| Fail (taskId : string) (error : string).

(** The dispatcher after the call; an assignment that raises leaves it
    as it was. *)
Definition step (st : State) (op : Op) : State :=
  match op with
  | Assign task =>
      match assignTeammate st task with
      | Some (st', _) => st'
      | None => st
      end
  | Complete taskId result => completeTask st taskId result
  | Fail taskId error => failTask st taskId error
  end.

(** The task id that the call files in [completedTasks], if any. *)
Definition closedId (op : Op) : option string :=
  match op with
  | Assign _ => None
  | Complete taskId _ => Some taskId
  | Fail taskId _ => Some taskId
  end.

(** The teammate of a table entry is at work on one task. *)
Definition atWork (e : nat * Teammate) : Prop :=
  status (snd e) = "working" /\ taskCount (snd e) = 1.

(** The teammate is out of service: failed, with no task. *)
Definition outOfService (t : Teammate) : Prop :=
  status t = "failed" /\ currentTask t = None.

End DispatchNotions.

(** ** The first phase of [TeamManager.execute]

    [dispatchIndependentTasks] of team-manager.js calls
    [dispatchAndMonitor] for the first tasks of the independent group, one
    per teammate at most.  Each call runs, before it is first suspended,
    the start of [dispatcher.dispatch], so the teammates are assigned in
    the order of the loop; a call whose assignment raises is a rejected
    promise and the loop goes on. *)

Module TeamExecution.
Import Dispatcher.

(** The tasks [tasks[i]] for [i < Math.min(tasks.length, teammateCount)]. *)
Definition independentCalls (teammateCount : nat) (tasks : list TaskGrouping.Task)
    : list TaskGrouping.Task :=
  firstn (Nat.min (List.length tasks) teammateCount) tasks.

(** The assignments made by the calls, in order: the dispatcher
    afterwards and, for each call, the teammate found or [None] when the
    assignment raised. *)
Fixpoint assignEach (dispatcher : State) (calls : list TaskGrouping.Task)
    : State * list (option nat) :=
  match calls with
  | [] => (dispatcher, [])
  | task :: rest =>
      match assignTeammate dispatcher task with
      | Some (dispatcher1, i) =>
          (fst (assignEach dispatcher1 rest), Some i :: snd (assignEach dispatcher1 rest))
      | None =>
          (fst (assignEach dispatcher rest), None :: snd (assignEach dispatcher rest))
      end
  end.

Definition dispatchIndependentTasks (dispatcher : State) (teammateCount : nat)
    (tasks : list TaskGrouping.Task) : State * list (option nat) :=
  assignEach dispatcher (independentCalls teammateCount tasks).

End TeamExecution.

(** ** Sequences of alert-system calls *)

Module AlertNotions.
Import Alerts.

(** A call of one of the three methods that update an [AlertSystem]. *)
Inductive Op : Type :=
| Send (now newId : string) (alert : Alert)
| Batch
| Clear (taskId : string).

Definition step (st : State) (op : Op) : State :=
  match op with
  | Send now newId alert => sendAlert now newId st alert
  | Batch => fst (sendBatchNotifications st)
  | Clear taskId => clearNotifications st taskId
  end.

(** The alert system after the calls, starting from a new one. *)
Definition run (ops : list Op) : State := fold_left step ops create.

(** The alert as [sendAlert] stores it. *)
Definition stamped (now newId : string) (alert : Alert) : Alert :=
  mkAlert newId now (taskId alert) (type alert) (severity alert) (issues alert).

(** The alerts sent by the calls, in order. *)
Definition sentAlerts (ops : list Op) : list Alert :=
  flat_map (fun op =>
              match op with
              | Send now newId alert => [stamped now newId alert]
              | _ => []
              end) ops.

Definition isCritical (a : Alert) : bool := String.eqb (severity a) "critical".

(** The entries of the alerts filed under [key], or nothing when there
    is none. *)
Definition nonEmpty (entries : list Entry) : option (list Entry) :=
  match entries with
  | [] => None
  | _ :: _ => Some entries
  end.

(** The entry of an alert in its group. *)
Definition entryOf (a : Alert) : Entry :=
  mkEntry (type a) (severity a) (messages a).

(** The conjunction of the filters of [getHistory]. *)
Definition selected (parseDate : string -> Js.jsnum) (filters : Filters) (a : Alert)
    : bool :=
  (String.eqb (byTaskId filters) "" || ofTask (byTaskId filters) a)
  && (String.eqb (bySeverity filters) "" || String.eqb (severity a) (bySeverity filters))
  && (String.eqb (since filters) ""
      || Js.js_gt (parseDate (timestamp a)) (parseDate (since filters))).

End AlertNotions.

(** ** Design documents *)

Module GoalNotions.

(** The text contains no number sign. *)
Definition hashFree (s : string) : Prop := ~ In "#"%char (list_ascii_of_string s).

(** A design document with a complete goal-metrics section. *)
Definition metricsDoc : string :=
  Js.join GoalTags.newline
       [""; "## Goal Metrics"; "Architecture: microservices"; "Code Style: functional";
        "Testing: unit"; "Security: JWT"; "Performance: < 100ms"; ""].

End GoalNotions.

(** * Properties *)

Import Js.

(** ** Task classification and parallelism estimate *)

Section Classification.
Import TaskGrouping.

Lemma isIndependent_deps (t : Task) :
  isIndependent t = Nat.eqb (List.length (deps t)) 0.
Proof.
  unfold isIndependent, deps.
  destruct (dependencies t) as [[|d ds]|]; reflexivity.
Qed.

Lemma isDependent_deps (t : Task) :
  isDependent t = negb (Nat.eqb (List.length (deps t)) 0).
Proof.
  unfold isDependent, deps.
  destruct (dependencies t) as [[|d ds]|]; reflexivity.
Qed.

Lemma independent_filter (tasks : list Task) :
  independent (groupTasksForTeams tasks) = filter isIndependent tasks.
Proof. destruct tasks; reflexivity. Qed.

Lemma dependent_filter (tasks : list Task) :
  dependent (groupTasksForTeams tasks) = filter isDependent tasks.
Proof. destruct tasks; reflexivity. Qed.

Lemma maxParallel_min (tasks : list Task) :
  maxParallel (groupTasksForTeams tasks)
  = Nat.min (List.length (independent (groupTasksForTeams tasks))) 5.
Proof. destruct tasks; reflexivity. Qed.

Lemma dependencyGraph_build (tasks : list Task) :
  dependencyGraph (groupTasksForTeams tasks) = buildDependencyGraph tasks.
Proof. destruct tasks; reflexivity. Qed.

(** C7.  For every task list, [groupTasksForTeams] returns as [independent]
    exactly the tasks whose dependency list is empty (in input order), as
    [dependent] the others, and [maxParallel] is the minimum of the number
    of independent tasks and 5; ten independent tasks give 5, and the
    empty list gives 0. *)
Theorem groupTasksForTeams_partition (tasks : list Task) :
  let g := groupTasksForTeams tasks in
  independent g = filter (fun t => Nat.eqb (List.length (deps t)) 0) tasks
  /\ dependent g = filter (fun t => negb (Nat.eqb (List.length (deps t)) 0)) tasks
  /\ (forall t, In t (independent g) <-> In t tasks /\ deps t = [])
  /\ maxParallel g = Nat.min (List.length (independent g)) 5
  /\ maxParallel (groupTasksForTeams []) = 0
  /\ maxParallel
       (groupTasksForTeams
          (map (fun i => mkTask i "" (Some []) [])
               ["1"; "2"; "3"; "4"; "5"; "6"; "7"; "8"; "9"; "10"])) = 5.
Proof.
  cbv zeta.
  rewrite independent_filter, dependent_filter, maxParallel_min, independent_filter.
  split; [apply filter_ext, isIndependent_deps|].
  split; [apply filter_ext, isDependent_deps|].
  split; [|repeat split].
  intros t. rewrite filter_In, isIndependent_deps, Nat.eqb_eq, length_zero_iff_nil.
  reflexivity.
Qed.

(** C8.  [suggestTeammateCount] follows the table on the number [n] of
    independent tasks: 0 gives count 1, 1 gives count 1, 2 or 3 give [n],
    4 or more give [maxParallel], each with the rationale string of its
    row (the labels of the table up to the capital first letter; the last
    one names the number of independent tasks and the cap reached); the
    list 1(), 2(), 3(1) gives count 2 with the small-count rationale. *)
Theorem suggestTeammateCount_table (tasks : list Task) :
  let n := List.length (filter (fun t => Nat.eqb (List.length (deps t)) 0) tasks) in
  let s := suggestTeammateCount tasks in
  (n = 0 ->
   count s = 1
   /\ reason s = "All tasks have dependencies, sequential execution needed"
   /\ JsString.toLowerCase (reason s)
      = "all tasks have dependencies, sequential execution needed")
  /\ (n = 1 ->
      count s = 1 /\ reason s = "Only one independent task"
      /\ JsString.toLowerCase (reason s) = "only one independent task")
  /\ (2 <= n <= 3 ->
      count s = n /\ reason s = "Small number of independent tasks"
      /\ JsString.toLowerCase (reason s) = "small number of independent tasks")
  /\ (4 <= n ->
      count s = maxParallel (groupTasksForTeams tasks)
      /\ count s = Nat.min n 5
      /\ reason s = ("Adaptive: " ++ show_nat n ++ " independent tasks, capped at "
                     ++ show_nat (Nat.min n 5))%string)
  /\ suggestTeammateCount
       [mkTask "1" "" (Some []) []; mkTask "2" "" (Some []) [];
        mkTask "3" "" (Some ["1"]) []]
     = {| count := 2; reason := "Small number of independent tasks" |}.
Proof.
  cbv zeta.
  rewrite <- (filter_ext _ _ isIndependent_deps tasks).
  unfold suggestTeammateCount.
  rewrite maxParallel_min, independent_filter.
  set (n := List.length (filter isIndependent tasks)).
  split; [intros ->; repeat split|].
  split; [intros ->; repeat split|].
  split; [intros [H1 H2]|split; [intros H|reflexivity]];
    destruct n as [|[|[|[|n]]]]; try lia; repeat split.
Qed.

(** The table rows of C8 at the list 1(), 2(), 3(1), which has two
    independent tasks. *)
Lemma suggestTeammateCount_table_witness :
  2 <= List.length
         (filter (fun t => Nat.eqb (List.length (deps t)) 0)
                 [mkTask "1" "" (Some []) []; mkTask "2" "" (Some []) [];
                  mkTask "3" "" (Some ["1"]) []]) <= 3
  /\ count (suggestTeammateCount
              [mkTask "1" "" (Some []) []; mkTask "2" "" (Some []) [];
               mkTask "3" "" (Some ["1"]) []]) = 2.
Proof.
  split; [simpl; lia|].
  destruct (suggestTeammateCount_table
              [mkTask "1" "" (Some []) []; mkTask "2" "" (Some []) [];
               mkTask "3" "" (Some ["1"]) []]) as (_ & _ & H & _).
  destruct H as [H _]; [simpl; lia|exact H].
Defined.

End Classification.

(** ** Insertion-ordered maps *)

Section MapFacts.
Context {V : Type}.
Implicit Types (m : list (string * V)) (k : string) (v : V).

Lemma get_set_same m k v : JsMap.get k (JsMap.set k v m) = Some v.
Proof.
  induction m as [|[k' v'] m IH]; simpl.
  - now rewrite String.eqb_refl.
  - destruct (String.eqb k k') eqn:E; simpl.
    + now rewrite String.eqb_refl.
    + now rewrite E.
Qed.

Lemma get_set_other m k k' v :
  k' <> k -> JsMap.get k' (JsMap.set k v m) = JsMap.get k' m.
Proof.
  intros Hne. induction m as [|[k0 v0] m IH]; simpl.
  - apply String.eqb_neq in Hne. now rewrite Hne.
  - destruct (String.eqb k k0) eqn:E; simpl.
    + apply String.eqb_eq in E. subst k0.
      apply String.eqb_neq in Hne. now rewrite Hne.
    + now rewrite IH.
Qed.

Lemma get_set m k k' v :
  JsMap.get k' (JsMap.set k v m)
  = if String.eqb k' k then Some v else JsMap.get k' m.
Proof.
  destruct (String.eqb k' k) eqn:E.
  - apply String.eqb_eq in E. subst. apply get_set_same.
  - apply String.eqb_neq in E. now apply get_set_other.
Qed.

Lemma keys_set m k v k' :
  In k' (JsMap.keys (JsMap.set k v m)) <-> k' = k \/ In k' (JsMap.keys m).
Proof.
  unfold JsMap.keys. induction m as [|[k0 v0] m IH]; simpl.
  - intuition.
  - destruct (String.eqb k k0) eqn:E; simpl.
    + apply String.eqb_eq in E. subst. intuition.
    + rewrite IH. intuition.
Qed.

Lemma NoDup_keys_set m k v :
  NoDup (JsMap.keys m) -> NoDup (JsMap.keys (JsMap.set k v m)).
Proof.
  unfold JsMap.keys. induction m as [|[k0 v0] m IH]; simpl; intros Hnd.
  - constructor; [intros []|constructor].
  - inversion Hnd as [|? ? Hnotin Hnd']; subst.
    destruct (String.eqb k k0) eqn:E; simpl.
    + apply String.eqb_eq in E. subst. now constructor.
    + constructor; [|now apply IH].
      intros Hin. apply (keys_set m k v k0) in Hin. destruct Hin as [->|Hin].
      * now rewrite String.eqb_refl in E.
      * now apply Hnotin.
Qed.

Lemma get_None m k : JsMap.get k m = None <-> ~ In k (JsMap.keys m).
Proof.
  unfold JsMap.keys. induction m as [|[k0 v0] m IH]; simpl.
  - intuition.
  - destruct (String.eqb k k0) eqn:E.
    + apply String.eqb_eq in E. subst. split; [discriminate|intuition].
    + apply String.eqb_neq in E. rewrite IH. intuition.
Qed.

Lemma get_Some_key m k v : JsMap.get k m = Some v -> In k (JsMap.keys m).
Proof.
  intros H. destruct (in_dec string_dec k (JsMap.keys m)) as [Hin|Hnot]; [easy|].
  apply get_None in Hnot. congruence.
Qed.

Lemma get_of_In m k v :
  NoDup (JsMap.keys m) -> In (k, v) m -> JsMap.get k m = Some v.
Proof.
  unfold JsMap.keys. induction m as [|[k0 v0] m IH]; simpl; intros Hnd Hin; [easy|].
  inversion Hnd as [|? ? Hnotin Hnd']; subst.
  destruct Hin as [Heq|Hin].
  - inversion Heq; subst. now rewrite String.eqb_refl.
  - destruct (String.eqb k k0) eqn:E; [|now apply IH].
    apply String.eqb_eq in E. subst.
    exfalso. apply Hnotin. now apply (in_map fst) in Hin.
Qed.

Lemma get_In m k v : JsMap.get k m = Some v -> In (k, v) m.
Proof.
  induction m as [|[k0 v0] m IH]; simpl; [discriminate|].
  destruct (String.eqb k k0) eqn:E; intros H.
  - apply String.eqb_eq in E. inversion H; subst. now left.
  - right. now apply IH.
Qed.

End MapFacts.

(** ** Lists of keys *)

Section ListFacts.
Import TaskGrouping GraphNotions.

Lemma includes_In (x : string) (l : list string) :
  includes x l = true <-> In x l.
Proof.
  unfold includes. rewrite existsb_exists. split.
  - intros [y [Hy E]]. apply String.eqb_eq in E. now subst.
  - intros H. exists x. split; [easy|apply String.eqb_refl].
Qed.

Lemma includes_false (x : string) (l : list string) :
  includes x l = false <-> ~ In x l.
Proof.
  rewrite <- includes_In. destruct (includes x l); intuition congruence.
Qed.

Lemma occ_cons (x y : string) (l : list string) :
  occ x (y :: l) = (if String.eqb x y then 1 else 0) + occ x l.
Proof. unfold occ. simpl. now destruct (String.eqb x y). Qed.

Lemma occ_pos_In (x : string) (l : list string) : 0 < occ x l -> In x l.
Proof.
  induction l as [|y l IH]; [inversion 1|].
  rewrite occ_cons. destruct (String.eqb x y) eqn:E.
  - apply String.eqb_eq in E. subst. now left.
  - intros H. right. now apply IH.
Qed.

Lemma remaining_zero (order : list string) (t : Task) :
  remaining order t = 0 <-> incl (deps t) order.
Proof.
  unfold remaining, incl. induction (deps t) as [|d ds IH]; simpl.
  - intuition.
  - destruct (includes d order) eqn:E; simpl.
    + apply includes_In in E. rewrite IH. split.
      * intros H a [<-|Ha]; auto.
      * intros H a Ha. apply H. now right.
    + apply includes_false in E. split; [discriminate|].
      intros H. exfalso. apply E, H. now left.
Qed.

Lemma remaining_pos (order : list string) (t : Task) (d : string) :
  In d (deps t) -> ~ In d order -> 0 < remaining order t.
Proof.
  intros Hd Hnot. destruct (remaining order t) eqn:E; [|lia].
  apply remaining_zero in E. now apply E in Hd.
Qed.

Lemma remaining_nil (t : Task) : remaining [] t = List.length (deps t).
Proof.
  unfold remaining. induction (deps t) as [|d ds IH]; simpl in *; [easy|].
  now rewrite IH.
Qed.

(** Emitting [c] removes from the count exactly the declarations of [c]. *)
Lemma remaining_snoc (order : list string) (c : string) (t : Task) :
  ~ In c order ->
  remaining (order ++ [c]) t + occ c (deps t) = remaining order t.
Proof.
  intros Hc. unfold remaining. induction (deps t) as [|d ds IH]; [reflexivity|].
  rewrite occ_cons. simpl.
  unfold includes in *. rewrite existsb_app. simpl. rewrite orb_false_r.
  destruct (existsb (String.eqb d) order) eqn:E; simpl.
  - assert (Hne : String.eqb c d = false).
    { apply String.eqb_neq. intros ->. apply Hc.
      apply (includes_In d order). exact E. }
    rewrite Hne. exact IH.
  - rewrite (String.eqb_sym d c).
    destruct (String.eqb c d); simpl; lia.
Qed.

Lemma snoc_split (A : Type) (l l1 l2 : list A) (c k : A) :
  l ++ [c] = l1 ++ k :: l2 ->
  (l2 = [] /\ l1 = l /\ k = c) \/ (exists l2', l2 = l2' ++ [c] /\ l = l1 ++ k :: l2').
Proof.
  intros H. destruct (exists_last (l := k :: l2)) as [l' [a E]]; [discriminate|].
  destruct l2 as [|b l2].
  - left. apply (app_inj_tail l l1) in H. intuition.
  - right. destruct (exists_last (l := b :: l2)) as [l2' [a' E']]; [discriminate|].
    exists l2'. rewrite E' in *.
    change (l1 ++ k :: l2' ++ [a']) with (l1 ++ (k :: l2') ++ [a']) in H.
    rewrite app_assoc in H. apply app_inj_tail in H. destruct H as [H1 H2].
    subst. split; reflexivity.
Qed.

End ListFacts.

(** ** The dependency graph *)

Section GraphFacts.
Import TaskGrouping GraphNotions.

Lemma lastTask_snoc (tasks : list Task) (t : Task) (k : string) :
  lastTask (tasks ++ [t]) k
  = if String.eqb (taskId t) k then Some t else lastTask tasks k.
Proof. unfold lastTask. rewrite rev_app_distr. reflexivity. Qed.

Lemma lastTask_Some (tasks : list Task) (k : string) (t : Task) :
  lastTask tasks k = Some t -> In t tasks /\ taskId t = k.
Proof.
  unfold lastTask. intros H. apply find_some in H. destruct H as [H1 H2].
  apply in_rev in H1. apply String.eqb_eq in H2. now split.
Qed.

Lemma lastTask_None (tasks : list Task) (k : string) :
  lastTask tasks k = None <-> ~ In k (taskIds tasks).
Proof.
  unfold lastTask, taskIds. split.
  - intros H Hin. apply in_map_iff in Hin. destruct Hin as [t [E Hin]].
    apply in_rev in Hin. apply (find_none _ _ H) in Hin.
    rewrite E, String.eqb_refl in Hin. discriminate.
  - intros H. destruct (find _ (rev tasks)) as [t|] eqn:E; [|reflexivity].
    apply lastTask_Some in E. destruct E as [E1 E2].
    exfalso. apply H. rewrite <- E2. now apply in_map.
Qed.

Lemma lastTask_app (l1 l2 : list Task) (t : Task) :
  ~ In (taskId t) (taskIds l2) -> lastTask (l1 ++ t :: l2) (taskId t) = Some t.
Proof.
  intros H. unfold lastTask. rewrite rev_app_distr. simpl.
  rewrite <- app_assoc. simpl.
  apply lastTask_None in H. unfold lastTask in H.
  induction (rev l2) as [|x xs IH]; simpl in *.
  - now rewrite String.eqb_refl.
  - destruct (String.eqb (taskId x) (taskId t)); [discriminate|now apply IH].
Qed.

Lemma lastTask_NoDup (tasks : list Task) (t : Task) :
  NoDup (taskIds tasks) -> In t tasks -> lastTask tasks (taskId t) = Some t.
Proof.
  intros Hnd Hin. apply in_split in Hin. destruct Hin as [l1 [l2 ->]].
  apply lastTask_app. unfold taskIds in Hnd. rewrite map_app in Hnd. simpl in Hnd.
  apply NoDup_remove_2 in Hnd. intros Hin. apply Hnd, in_or_app. now right.
Qed.

Lemma addNode_fold_get (tasks : list Task) (g : Graph) (k : string) :
  JsMap.get k (fold_left addNode tasks g)
  = match lastTask tasks k with
    | Some t => Some (mkNode [] (deps t) t)
    | None => JsMap.get k g
    end.
Proof.
  induction tasks as [|t tasks IH] using rev_ind; [reflexivity|].
  rewrite fold_left_app, lastTask_snoc. simpl. unfold addNode at 1.
  rewrite get_set, (String.eqb_sym k).
  destruct (String.eqb (taskId t) k); [reflexivity|exact IH].
Qed.

Lemma addDependent_fold_get (ds : list string) (tid : string) (g : Graph) (d : string) :
  JsMap.get d (fold_left (addDependent tid) ds g)
  = match JsMap.get d g with
    | Some n =>
        Some (mkNode (dependents n ++ map (fun _ => tid) (filter (String.eqb d) ds))
                     (nodeDependencies n) (nodeTask n))
    | None => None
    end.
Proof.
  revert g. induction ds as [|x ds IH]; intros g; simpl.
  - destruct (JsMap.get d g) as [[a b c]|]; [|reflexivity].
    simpl. now rewrite app_nil_r.
  - rewrite IH. unfold addDependent.
    destruct (String.eqb d x) eqn:E.
    + apply String.eqb_eq in E. subst x.
      destruct (JsMap.get d g) as [n|] eqn:G; [|now rewrite G].
      rewrite get_set_same. simpl. now rewrite <- app_assoc.
    + apply String.eqb_neq in E.
      destruct (JsMap.get x g) as [n|]; [|reflexivity].
      now rewrite get_set_other.
Qed.

Lemma populateDependents_fold_get (tasks : list Task) (g : Graph) (d : string) :
  JsMap.get d (fold_left populateDependents tasks g)
  = match JsMap.get d g with
    | Some n =>
        Some (mkNode (dependents n ++ dependentsOf tasks d)
                     (nodeDependencies n) (nodeTask n))
    | None => None
    end.
Proof.
  revert g. induction tasks as [|t tasks IH]; intros g; simpl.
  - destruct (JsMap.get d g) as [[a b c]|]; [|reflexivity].
    simpl. now rewrite app_nil_r.
  - rewrite IH.
    assert (E : JsMap.get d (populateDependents g t)
                = match JsMap.get d g with
                  | Some n =>
                      Some (mkNode (dependents n ++
                                      map (fun _ => taskId t)
                                          (filter (String.eqb d) (deps t)))
                                   (nodeDependencies n) (nodeTask n))
                  | None => None
                  end).
    { unfold populateDependents, deps.
      destruct (dependencies t) as [ds|]; [apply addDependent_fold_get|].
      destruct (JsMap.get d g) as [[a b c]|]; [|reflexivity].
      simpl. now rewrite app_nil_r. }
    rewrite E. destruct (JsMap.get d g) as [n|]; [|reflexivity].
    simpl. now rewrite <- app_assoc.
Qed.

(** The node stored under a key belongs to the last task with that key
    and lists every declaration of the key as a dependency. *)
Lemma buildDependencyGraph_get (tasks : list Task) (d : string) :
  JsMap.get d (buildDependencyGraph tasks)
  = match lastTask tasks d with
    | Some t => Some (mkNode (dependentsOf tasks d) (deps t) t)
    | None => None
    end.
Proof.
  unfold buildDependencyGraph.
  rewrite populateDependents_fold_get, addNode_fold_get.
  destruct (lastTask tasks d); reflexivity.
Qed.

Lemma In_dependentsOf (tasks : list Task) (d x : string) :
  In x (dependentsOf tasks d) <-> dependsOn tasks x d.
Proof.
  unfold dependentsOf, dependsOn. rewrite in_flat_map. split.
  - intros [t [Ht Hx]]. apply in_map_iff in Hx. destruct Hx as [y [E Hy]].
    apply filter_In in Hy. destruct Hy as [Hy Hd].
    apply String.eqb_eq in Hd. subst. now exists t.
  - intros [t [Ht [E Hd]]]. exists t. split; [exact Ht|].
    apply in_map_iff. exists d. split; [exact E|].
    apply filter_In. split; [exact Hd|apply String.eqb_refl].
Qed.

Lemma dependentsOf_keys (tasks : list Task) (d x : string) :
  In x (dependentsOf tasks d) -> In x (taskIds tasks).
Proof.
  intros H. apply In_dependentsOf in H. destruct H as [t [Ht [E _]]].
  subst. now apply in_map.
Qed.

Lemma getDependentTasks_build (tasks : list Task) (d : string) :
  getDependentTasks d (buildDependencyGraph tasks)
  = if includes d (taskIds tasks) then dependentsOf tasks d else [].
Proof.
  unfold getDependentTasks. rewrite buildDependencyGraph_get.
  destruct (lastTask tasks d) as [t|] eqn:E.
  - apply lastTask_Some in E. destruct E as [E1 E2].
    assert (H : includes d (taskIds tasks) = true).
    { apply includes_In. subst. now apply in_map. }
    now rewrite H.
  - apply lastTask_None in E. apply includes_false in E. now rewrite E.
Qed.

(** With pairwise distinct keys, the declarations of [c] by the task with
    key [taskId t] are the occurrences of that key among the dependents
    of [c]. *)
Lemma occ_dependentsOf (tasks : list Task) (t : Task) (c : string) :
  NoDup (taskIds tasks) -> In t tasks ->
  occ (taskId t) (dependentsOf tasks c) = occ c (deps t).
Proof.
  unfold occ, dependentsOf, taskIds.
  induction tasks as [|u tasks IH]; simpl; intros Hnd Hin; [easy|].
  inversion Hnd as [|? ? Hnotin Hnd']; subst.
  rewrite filter_app, length_app.
  assert (Hmap : forall (k : string) (l : list string),
             List.length (filter (String.eqb (taskId t)) (map (fun _ => k) l))
             = if String.eqb (taskId t) k then List.length l else 0).
  { intros k l. induction l as [|y l IHl]; simpl.
    - now destruct (String.eqb (taskId t) k).
    - destruct (String.eqb (taskId t) k); simpl; [now rewrite IHl|exact IHl]. }
  rewrite Hmap.
  assert (Hrest : forall l : list Task,
             ~ In (taskId t) (map taskId l) ->
             List.length
               (filter (String.eqb (taskId t))
                  (flat_map (fun t0 => map (fun _ => taskId t0)
                                           (filter (String.eqb c) (deps t0))) l)) = 0).
  { intros l Hl. induction l as [|y l IHl]; simpl; [reflexivity|].
    rewrite filter_app, length_app, Hmap.
    simpl in Hl. destruct (String.eqb (taskId t) (taskId y)) eqn:E.
    - apply String.eqb_eq in E. exfalso. apply Hl. now left.
    - simpl. apply IHl. intros H. apply Hl. now right. }
  destruct Hin as [->|Hin].
  - rewrite String.eqb_refl, (Hrest tasks Hnotin). lia.
  - destruct (String.eqb (taskId t) (taskId u)) eqn:E.
    + apply String.eqb_eq in E. exfalso. apply Hnotin. rewrite <- E.
      now apply in_map.
    + simpl. now apply IH.
Qed.

(** [x] is among the dependents the graph answers for [d] exactly when
    [d] is a key of the list and a task with key [x] declares [d]. *)
Lemma getDependentTasks_In (tasks : list Task) (d x : string) :
  In x (getDependentTasks d (buildDependencyGraph tasks)) <->
  In d (taskIds tasks) /\ dependsOn tasks x d.
Proof.
  rewrite getDependentTasks_build.
  destruct (includes d (taskIds tasks)) eqn:E.
  - apply includes_In in E. rewrite In_dependentsOf. tauto.
  - apply includes_false in E. simpl. tauto.
Qed.

(** An id that is the key of no task has no node and no dependents. *)
Lemma buildDependencyGraph_unknown (tasks : list Task) (d : string) :
  ~ In d (taskIds tasks) ->
  JsMap.get d (buildDependencyGraph tasks) = None
  /\ getDependentTasks d (buildDependencyGraph tasks) = [].
Proof.
  intros Hd. split.
  - rewrite buildDependencyGraph_get. apply lastTask_None in Hd. now rewrite Hd.
  - rewrite getDependentTasks_build. apply includes_false in Hd. now rewrite Hd.
Qed.

End GraphFacts.

(** ** The loop of [calculateExecutionOrder] *)

Section KahnLoop.
Import TaskGrouping GraphNotions.

Lemma degree_get (m : JsMap.t jsnum) (k : string) (z : Z) :
  degree m k = Some z <-> JsMap.get k m = Some (Num z).
Proof.
  unfold degree. destruct (JsMap.get k m) as [[z'|]|]; split;
    intros H; inversion H; reflexivity.
Qed.

Lemma degree_set_pred (m : JsMap.t jsnum) (d k : string) :
  degree (JsMap.set d (js_pred (JsMap.get d m)) m) k
  = if String.eqb k d then option_map (fun z => z - 1)%Z (degree m d)
    else degree m k.
Proof.
  unfold degree. rewrite get_set. destruct (String.eqb k d); [|reflexivity].
  destruct (JsMap.get d m) as [[z|]|]; reflexivity.
Qed.

Lemma reduceInDegree_eq (m : JsMap.t jsnum) (q : list string) (d : string) :
  reduceInDegree (m, q) d
  = (JsMap.set d (js_pred (JsMap.get d m)) m,
     match degree m d with
     | Some 1%Z => q ++ [d]
     | _ => q
     end).
Proof.
  unfold reduceInDegree, degree. simpl.
  destruct (JsMap.get d m) as [[z|]|]; simpl; try reflexivity.
  destruct (z - 1)%Z eqn:E; simpl.
  - replace z with 1%Z by lia. reflexivity.
  - destruct z as [|[?|?|]|?]; try reflexivity; lia.
  - destruct z as [|[?|?|]|?]; try reflexivity; lia.
Qed.

(** One pass over the dependents [L] of the current key: every degree
    drops by the number of occurrences of its key in [L], and the keys
    appended to the queue are those whose degree was between 1 and that
    number, each once. *)
Lemma reduceInDegree_fold (L : list string) :
  forall (m : JsMap.t jsnum) (q : list string),
    (forall k,
        degree (fst (fold_left reduceInDegree L (m, q))) k
        = option_map (fun z => z - Z.of_nat (occ k L))%Z (degree m k))
    /\ exists p,
        snd (fold_left reduceInDegree L (m, q)) = q ++ p
        /\ NoDup p
        /\ forall k, In k p <->
                     exists z, degree m k = Some z
                               /\ (1 <= z <= Z.of_nat (occ k L))%Z.
Proof.
  induction L as [|d L IH]; intros m q.
  - simpl. split.
    + intros k. destruct (degree m k); simpl; [f_equal; lia|reflexivity].
    + exists []. rewrite app_nil_r. repeat split; [constructor|easy|].
      intros [z [_ Hz]]. unfold occ in Hz. simpl in Hz. lia.
  - simpl fold_left. rewrite reduceInDegree_eq.
    set (m1 := JsMap.set d (js_pred (JsMap.get d m)) m).
    set (q1 := match degree m d with Some 1%Z => q ++ [d] | _ => q end).
    destruct (IH m1 q1) as [Hdeg [p [Hq [Hnd Hp]]]].
    assert (Hm1 : forall k, degree m1 k
                            = if String.eqb k d
                              then option_map (fun z => z - 1)%Z (degree m d)
                              else degree m k)
      by (intros k; apply degree_set_pred).
    split.
    + intros k. rewrite Hdeg, Hm1, occ_cons.
      destruct (String.eqb_spec k d) as [->|Hne].
      * destruct (degree m d); simpl; [f_equal; lia|reflexivity].
      * destruct (degree m k); simpl; [f_equal; lia|reflexivity].
    + assert (Hone : {degree m d = Some 1%Z} + {degree m d <> Some 1%Z}).
      { destruct (degree m d) as [z|]; [|right; discriminate].
        destruct (Z.eq_dec z 1) as [->|Hz]; [now left|right; congruence]. }
      destruct Hone as [H1|H1].
      * assert (Eq1 : q1 = q ++ [d]) by (subst q1; now rewrite H1).
        exists (d :: p). rewrite Hq, Eq1, <- app_assoc.
        split; [reflexivity|]. split.
        -- constructor; [|exact Hnd]. intros Hin. apply Hp in Hin.
           destruct Hin as [z [Hz Hr]]. rewrite Hm1, String.eqb_refl, H1 in Hz.
           simpl in Hz. inversion Hz. lia.
        -- intros k. simpl. rewrite Hp, Hm1, occ_cons.
           destruct (String.eqb_spec k d) as [->|Hne].
           ++ rewrite H1. split.
              ** intros _. exists 1%Z. split; [reflexivity|lia].
              ** intros _. now left.
           ++ simpl. split.
              ** intros [Hk|Hk]; [congruence|exact Hk].
              ** intros Hk. now right.
      * assert (Eq1 : q1 = q).
        { subst q1.
          destruct (degree m d) as [[|[?|?|]|?]|]; try reflexivity. congruence. }
        exists p. split; [now rewrite Hq, Eq1|].
        split; [exact Hnd|].
        intros k. rewrite Hp, Hm1, occ_cons.
        destruct (String.eqb_spec k d) as [->|Hne].
           ++ split.
              ** intros [z [Hz Hr]]. destruct (degree m d) as [z0|]; [|discriminate].
                 simpl in Hz. inversion Hz. exists z0. split; [reflexivity|lia].
              ** intros [z [Hz Hr]]. rewrite Hz in *. exists (z - 1)%Z.
                 split; [reflexivity|].
                 assert (z <> 1%Z) by congruence. lia.
           ++ reflexivity.
Qed.

End KahnLoop.

Section KahnInvariants.
Import TaskGrouping GraphNotions.

Lemma queue_regroup (o rest p : list string) (c : string) :
  (o ++ [c]) ++ rest ++ p = (o ++ c :: rest) ++ p.
Proof. rewrite <- !app_assoc. reflexivity. Qed.

(** The general invariant is kept by one iteration, whatever the list
    of dependents the graph answers. *)
Lemma queueInv_step (tasks : list Task) (L : list string)
    (m : JsMap.t jsnum) (c : string) (rest o : list string) :
  queueInv tasks m (c :: rest) o ->
  queueInv tasks (fst (fold_left reduceInDegree L (m, rest)))
           (snd (fold_left reduceInDegree L (m, rest))) (o ++ [c]).
Proof.
  intros (Hnd & Hdeg & Hkeys).
  destruct (reduceInDegree_fold L m rest) as [Hd [p [Hq [Hp Hin]]]].
  rewrite Hq. unfold queueInv. rewrite queue_regroup.
  split; [|split].
  - apply NoDup_app; [exact Hnd|exact Hp|].
    intros a Ha Hap. apply Hdeg in Ha. destruct Ha as [z [Hz Hle]].
    apply Hin in Hap. destruct Hap as [z' [Hz' Hr]].
    rewrite Hz in Hz'. inversion Hz'. lia.
  - intros k Hk. apply in_app_or in Hk. destruct Hk as [Hk|Hk].
    + destruct (Hdeg k Hk) as [z [Hz Hle]].
      exists (z - Z.of_nat (occ k L))%Z. rewrite Hd, Hz. split; [reflexivity|lia].
    + apply Hin in Hk. destruct Hk as [z [Hz Hr]].
      exists (z - Z.of_nat (occ k L))%Z. rewrite Hd, Hz. split; [reflexivity|lia].
  - intros k z Hz. rewrite Hd in Hz.
    destruct (degree m k) as [z0|] eqn:E; [|discriminate].
    now apply (Hkeys k z0).
Qed.

Lemma queueInv_incl (tasks : list Task) (m : JsMap.t jsnum) (q o : list string) :
  queueInv tasks m q o -> incl (o ++ q) (taskIds tasks).
Proof.
  intros (_ & Hdeg & Hkeys) k Hk.
  destruct (Hdeg k Hk) as [z [Hz _]]. now apply (Hkeys k z).
Qed.

Lemma queueInv_bound (tasks : list Task) (m : JsMap.t jsnum) (q o : list string) :
  queueInv tasks m q o -> List.length (o ++ q) <= List.length tasks.
Proof.
  intros H. unfold taskIds. rewrite <- (length_map taskId tasks).
  apply NoDup_incl_length; [apply H|exact (queueInv_incl H)].
Qed.

(** The invariant for graphs with distinct keys is kept by one iteration
    on the graph built from the tasks. *)
Lemma kahnInv_step (tasks : list Task)
    (m : JsMap.t jsnum) (c : string) (rest o : list string) :
  NoDup (taskIds tasks) ->
  kahnInv tasks m (c :: rest) o ->
  kahnInv tasks
    (fst (fold_left reduceInDegree
            (getDependentTasks c (buildDependencyGraph tasks)) (m, rest)))
    (snd (fold_left reduceInDegree
            (getDependentTasks c (buildDependencyGraph tasks)) (m, rest)))
    (o ++ [c]).
Proof.
  intros Hkeys (Hnd & Hincl & Hdeg & Hzero & Htopo).
  assert (Hc : In c (taskIds tasks)).
  { apply Hincl, in_or_app. right. now left. }
  rewrite getDependentTasks_build.
  apply includes_In in Hc. rewrite Hc. apply includes_In in Hc.
  set (L := dependentsOf tasks c).
  destruct (reduceInDegree_fold L m rest) as [Hd [p [Hq [Hp Hin]]]].
  assert (Hco : ~ In c o).
  { intros Hino. apply NoDup_remove_2 in Hnd. apply Hnd, in_or_app. now left. }
  assert (Hocc : forall t, In t tasks -> occ (taskId t) L = occ c (deps t)).
  { intros t Ht. now apply occ_dependentsOf. }
  assert (Hrem : forall t, remaining (o ++ [c]) t + occ c (deps t) = remaining o t).
  { intros t. now apply remaining_snoc. }
  assert (Hpin : forall k, In k p ->
            exists t, In t tasks /\ taskId t = k
                      /\ 1 <= remaining o t <= occ c (deps t)).
  { intros k Hk. apply Hin in Hk. destruct Hk as [z [Hz Hr]].
    assert (HkL : In k L) by (apply occ_pos_In; lia).
    apply dependentsOf_keys, in_map_iff in HkL. destruct HkL as [t [Et Ht]].
    exists t. split; [exact Ht|]. split; [exact Et|].
    subst k. rewrite (Hdeg t Ht) in Hz. inversion Hz. subst z.
    rewrite (Hocc t Ht) in Hr. lia. }
  rewrite Hq. unfold kahnInv. rewrite queue_regroup.
  split; [|split; [|split; [|split]]].
  - apply NoDup_app; [exact Hnd|exact Hp|].
    intros a Ha Hap. destruct (Hpin a Hap) as [t [Ht [Et Hr]]]. subst a.
    apply (Hzero t Ht) in Ha. lia.
  - intros a Ha. apply in_app_or in Ha. destruct Ha as [Ha|Ha].
    + now apply Hincl.
    + destruct (Hpin a Ha) as [t [Ht [Et _]]]. subst a. now apply in_map.
  - intros t Ht. rewrite Hd, (Hdeg t Ht), (Hocc t Ht). simpl. f_equal.
    specialize (Hrem t). lia.
  - intros t Ht. specialize (Hrem t). split.
    + intros Ha. apply in_app_or in Ha. destruct Ha as [Ha|Ha].
      * apply (Hzero t Ht) in Ha. lia.
      * apply Hin in Ha. destruct Ha as [z [Hz Hr]].
        rewrite (Hdeg t Ht) in Hz. inversion Hz. subst z.
        rewrite (Hocc t Ht) in Hr. lia.
    + intros Hz. apply in_or_app.
      destruct (remaining o t) as [|n] eqn:E.
      * left. now apply (Hzero t Ht).
      * right. apply Hin. exists (Z.of_nat (S n)). split.
        -- rewrite (Hdeg t Ht), E. reflexivity.
        -- rewrite (Hocc t Ht). lia.
  - intros l1 k l2 t Heq Ht Hk. apply snoc_split in Heq.
    destruct Heq as [(_ & -> & ->)|[l2' [_ Ho]]].
    + apply remaining_zero. apply (Hzero t Ht). rewrite Hk.
      apply in_or_app. right. now left.
    + now apply (Htopo l1 k l2' t).
Qed.

(** Running the loop from a state that satisfies an invariant kept by
    every iteration, under which queued and emitted keys are never more
    than the tasks: the loop ends within the fuel and the invariant holds
    at the end, with an empty queue. *)
Lemma processQueue_invariant (tasks : list Task) (g : Graph)
    (P : JsMap.t jsnum -> list string -> list string -> Prop) :
  (forall m c rest o,
      P m (c :: rest) o ->
      P (fst (fold_left reduceInDegree (getDependentTasks c g) (m, rest)))
        (snd (fold_left reduceInDegree (getDependentTasks c g) (m, rest)))
        (o ++ [c])) ->
  (forall m q o, P m q o -> List.length (o ++ q) <= List.length tasks) ->
  forall fuel m q o,
    P m q o ->
    List.length tasks <= List.length o + fuel ->
    exists m' o', processQueue fuel g m q o = Some o' /\ P m' [] o'.
Proof.
  intros Hstep Hbound. induction fuel as [|fuel IH]; intros m q o HP Hfuel.
  - destruct q as [|c rest]; [now exists m, o|].
    apply Hbound in HP. rewrite length_app in HP. simpl in HP. lia.
  - destruct q as [|c rest]; [now exists m, o|].
    simpl. apply IH; [now apply Hstep|].
    rewrite length_app. simpl. lia.
Qed.

End KahnInvariants.

Section KahnRun.
Import TaskGrouping GraphNotions.

Lemma setInDegree_fold_get (tasks : list Task) (m0 : JsMap.t jsnum) (k : string) :
  JsMap.get k (fold_left setInDegree tasks m0)
  = match lastTask tasks k with
    | Some t => Some (Num (Z.of_nat (List.length (deps t))))
    | None => JsMap.get k m0
    end.
Proof.
  induction tasks as [|t tasks IH] using rev_ind; [reflexivity|].
  rewrite fold_left_app, lastTask_snoc. simpl. unfold setInDegree at 1.
  rewrite get_set, (String.eqb_sym k).
  destruct (String.eqb (taskId t) k); [reflexivity|exact IH].
Qed.

Lemma setInDegree_fold_NoDup (tasks : list Task) (m0 : JsMap.t jsnum) :
  NoDup (JsMap.keys m0) -> NoDup (JsMap.keys (fold_left setInDegree tasks m0)).
Proof.
  revert m0. induction tasks as [|t tasks IH]; intros m0 H; [exact H|].
  simpl. apply IH. unfold setInDegree. now apply NoDup_keys_set.
Qed.

Lemma zeroDegree_NoDup (m : JsMap.t jsnum) :
  NoDup (JsMap.keys m) -> NoDup (zeroDegree m).
Proof.
  unfold zeroDegree, JsMap.keys.
  induction m as [|[k v] m IH]; simpl; intros H; [constructor|].
  inversion H as [|? ? Hnotin Hnd]; subst.
  destruct (js_is_zero v); simpl; [|now apply IH].
  constructor; [|now apply IH].
  intros Hin. apply Hnotin. apply in_map_iff in Hin.
  destruct Hin as [[k' v'] [E Hin]]. apply filter_In in Hin.
  destruct Hin as [Hin _].
  simpl in E. subst k'. apply (in_map fst) in Hin. exact Hin.
Qed.

Lemma zeroDegree_In (m : JsMap.t jsnum) (k : string) :
  NoDup (JsMap.keys m) -> (In k (zeroDegree m) <-> degree m k = Some 0%Z).
Proof.
  intros Hnd. unfold zeroDegree. rewrite degree_get, in_map_iff. split.
  - intros [[k' v] [E Hin]]. simpl in E. subst k'.
    apply filter_In in Hin. destruct Hin as [Hin Hz]. simpl in Hz.
    destruct v as [[| |]|]; try discriminate. now apply get_of_In.
  - intros H. apply get_In in H. exists (k, Num 0). split; [reflexivity|].
    apply filter_In. now split.
Qed.

Lemma degree_initial (tasks : list Task) (k : string) (z : Z) :
  degree (fold_left setInDegree tasks []) k = Some z ->
  exists t, lastTask tasks k = Some t /\ z = Z.of_nat (List.length (deps t)).
Proof.
  unfold degree. rewrite setInDegree_fold_get.
  destruct (lastTask tasks k) as [t|]; [|discriminate].
  intros H. inversion H. now exists t.
Qed.

Lemma queueInv_initial (tasks : list Task) :
  queueInv tasks (fold_left setInDegree tasks [])
           (zeroDegree (fold_left setInDegree tasks [])) [].
Proof.
  assert (Hnd : NoDup (JsMap.keys (fold_left setInDegree tasks [])))
    by (apply setInDegree_fold_NoDup; constructor).
  unfold queueInv. simpl. split; [|split].
  - now apply zeroDegree_NoDup.
  - intros k Hk. apply zeroDegree_In in Hk; [|exact Hnd]. exists 0%Z. split; [exact Hk|lia].
  - intros k z Hz. apply degree_initial in Hz. destruct Hz as [t [Ht _]].
    apply lastTask_Some in Ht. destruct Ht as [Ht <-]. now apply in_map.
Qed.

(** The loop ends within one unit of fuel per task, for every task list
    and every graph, and never emits a key twice. *)
Lemma calculateExecutionOrder_total (tasks : list Task) (g : Graph) :
  exists m order,
    calculateExecutionOrder tasks g = Some order /\ queueInv tasks m [] order.
Proof.
  unfold calculateExecutionOrder.
  apply (@processQueue_invariant tasks g (queueInv tasks)).
  - intros m c rest o. apply queueInv_step.
  - intros m q o. apply queueInv_bound.
  - apply queueInv_initial.
  - simpl. lia.
Qed.

(** *** Lists with pairwise distinct keys *)

Section DistinctKeys.
Variable tasks : list Task.
Hypothesis Hkeys : NoDup (taskIds tasks).

Lemma kahnInv_initial :
  kahnInv tasks (fold_left setInDegree tasks [])
          (zeroDegree (fold_left setInDegree tasks [])) [].
Proof.
  assert (Hnd : NoDup (JsMap.keys (fold_left setInDegree tasks [])))
    by (apply setInDegree_fold_NoDup; constructor).
  assert (Hdeg : forall t, In t tasks ->
            degree (fold_left setInDegree tasks []) (taskId t)
            = Some (Z.of_nat (remaining [] t))).
  { intros t Ht. unfold degree.
    rewrite setInDegree_fold_get, (lastTask_NoDup tasks t Hkeys Ht), remaining_nil.
    reflexivity. }
  unfold kahnInv. simpl. split; [|split; [|split; [|split]]].
  - now apply zeroDegree_NoDup.
  - exact (queueInv_incl (queueInv_initial tasks)).
  - exact Hdeg.
  - intros t Ht. rewrite (zeroDegree_In _ (taskId t) Hnd), (Hdeg t Ht). split.
    + intros H. inversion H. lia.
    + intros ->. reflexivity.
  - intros l1 k l2 t Heq. now destruct l1.
Qed.

Lemma calculateExecutionOrder_kahn :
  exists m order,
    calculateExecutionOrder tasks (buildDependencyGraph tasks) = Some order
    /\ kahnInv tasks m [] order.
Proof.
  unfold calculateExecutionOrder.
  apply (@processQueue_invariant tasks (buildDependencyGraph tasks) (kahnInv tasks)).
  - intros m c rest o. now apply kahnInv_step.
  - intros m q o (Hnd & Hincl & _).
    unfold taskIds in Hincl. rewrite <- (length_map taskId tasks).
    now apply NoDup_incl_length.
  - exact kahnInv_initial.
  - simpl. lia.
Qed.

End DistinctKeys.

Lemma order_NoDup_incl (tasks : list Task) (m : JsMap.t jsnum) (order : list string) :
  queueInv tasks m [] order -> NoDup order /\ incl order (taskIds tasks).
Proof.
  intros H. pose proof (queueInv_incl H) as Hi. destruct H as (Hnd & _).
  rewrite app_nil_r in *. now split.
Qed.

(** A key that no emitted order contains makes the order shorter than
    the task list. *)
Lemma order_shorter (tasks : list Task) (order : list string) (k : string) :
  NoDup order -> incl order (taskIds tasks) ->
  In k (taskIds tasks) -> ~ In k order ->
  List.length order < List.length tasks.
Proof.
  intros Hnd Hincl Hk Hnot.
  assert (H : List.length (k :: order) <= List.length (taskIds tasks)).
  { apply NoDup_incl_length; [now constructor|].
    intros a [<-|Ha]; [exact Hk|now apply Hincl]. }
  unfold taskIds in H. rewrite length_map in H. simpl in H. lia.
Qed.

(** With a repeated key the order is shorter than the task list. *)
Lemma order_shorter_dup (tasks : list Task) (order : list string) :
  NoDup order -> incl order (taskIds tasks) -> ~ NoDup (taskIds tasks) ->
  List.length order < List.length tasks.
Proof.
  intros Hnd Hincl Hdup.
  destruct (Nat.lt_ge_cases (List.length order) (List.length tasks)) as [H|H];
    [exact H|].
  exfalso. apply Hdup. apply (NoDup_incl_NoDup Hnd); [|exact Hincl].
  unfold taskIds. now rewrite length_map.
Qed.

End KahnRun.

(** ** Cycles *)

Section Cycles.
Import TaskGrouping GraphNotions.

Lemma clos_trans_mono (A : Type) (R R' : A -> A -> Prop) :
  (forall a b, R' a b -> clos_trans A R a b) ->
  forall a b, clos_trans A R' a b -> clos_trans A R a b.
Proof.
  intros H a b Hab. induction Hab as [a b Hab|a c b _ IH1 _ IH2].
  - now apply H.
  - now apply t_trans with c.
Qed.

Lemma clos_trans_first (A : Type) (R : A -> A -> Prop) (a b : A) :
  clos_trans A R a b -> exists c, R a c.
Proof.
  intros H. induction H as [a b Hab|a c b _ IH1 _ _]; [now exists b|exact IH1].
Qed.

(** In a finite non-empty set of keys where every key has a successor
    in the set, some key reaches itself. *)
Lemma cycle_of_successors (n : nat) :
  forall (S : list string) (R : string -> string -> Prop),
    List.length S <= n ->
    (forall x, In x S -> exists y, In y S /\ R x y) ->
    forall x, In x S -> exists k, clos_trans string R k k.
Proof.
  induction n as [|n IH]; intros S R Hlen Hsucc x Hx.
  - destruct S; [destruct Hx|simpl in Hlen; lia].
  - destruct (Hsucc x Hx) as [y [Hy Rxy]].
    destruct (string_dec y x) as [->|Hne]; [exists x; now apply t_step|].
    destruct (IH (remove string_dec x S)
                 (fun a b => R a b \/ (R a x /\ R x b))) with (x := y)
      as [k Hk].
    + pose proof (remove_length_lt string_dec S x Hx). lia.
    + intros z Hz. apply in_remove in Hz. destruct Hz as [Hz Hzx].
      destruct (Hsucc z Hz) as [w [Hw Rzw]].
      destruct (string_dec w x) as [->|Hwx].
      * exists y. split; [now apply in_in_remove|]. right. now split.
      * exists w. split; [now apply in_in_remove|]. now left.
    + now apply in_in_remove.
    + exists k. apply clos_trans_mono with (2 := Hk).
      intros a b [H|[H1 H2]]; [now apply t_step|].
      apply t_trans with x; now apply t_step.
Qed.

(** A strictly decreasing rank along the dependencies excludes cycles. *)
Lemma acyclic_of_rank (tasks : list Task) (rank : string -> nat) :
  (forall a b, dependsOn tasks a b -> rank b < rank a) -> acyclic tasks.
Proof.
  intros H k Hk.
  assert (Hlt : forall a b, clos_trans string (dependsOn tasks) a b -> rank b < rank a).
  { intros a b Hab. induction Hab as [a b Hab|a c b _ IH1 _ IH2]; [now apply H|lia]. }
  apply Hlt in Hk. lia.
Qed.

Lemma onCycle_key (tasks : list Task) (k : string) :
  onCycle tasks k -> In k (taskIds tasks).
Proof.
  intros H. apply clos_trans_first in H. destruct H as [c [t [Ht [<- _]]]].
  now apply in_map.
Qed.

(** In a topological order, whatever a key reaches comes before it. *)
Lemma topological_reach (tasks : list Task) (order : list string) :
  topological tasks order ->
  forall a b, clos_trans string (dependsOn tasks) a b ->
  forall l1 l2, order = l1 ++ a :: l2 -> In b l1.
Proof.
  intros Htopo a b H. induction H as [a b Hab|a c b _ IH1 _ IH2]; intros l1 l2 Heq.
  - destruct Hab as [t [Ht [Et Hb]]]. exact (Htopo l1 a l2 t Heq Ht Et b Hb).
  - pose proof (IH1 l1 l2 Heq) as Hc. apply in_split in Hc.
    destruct Hc as [l1' [l1'' ->]].
    apply in_or_app. left. apply (IH2 l1' (l1'' ++ a :: l2)).
    rewrite Heq, <- app_assoc. reflexivity.
Qed.

Lemma cycle_not_emitted (tasks : list Task) (order : list string) (k : string) :
  topological tasks order -> NoDup order -> onCycle tasks k -> ~ In k order.
Proof.
  intros Htopo Hnd Hk Hin. apply in_split in Hin. destruct Hin as [l1 [l2 ->]].
  pose proof (topological_reach Htopo Hk l1 l2 eq_refl) as H.
  apply NoDup_remove_2 in Hnd. apply Hnd, in_or_app. now left.
Qed.

Lemma remaining_pos_inv (order : list string) (t : Task) :
  remaining order t <> 0 -> exists d, In d (deps t) /\ ~ In d order.
Proof.
  unfold remaining. induction (deps t) as [|d ds IH]; simpl; [easy|].
  destruct (includes d order) eqn:E; simpl.
  - intros H. destruct (IH H) as [d' [Hd' Hn]]. exists d'. split; [now right|exact Hn].
  - intros _. exists d. split; [now left|now apply includes_false].
Qed.

(** Without cycles and unknown dependencies, the final order holds
    every key. *)
Lemma all_emitted (tasks : list Task) (m : JsMap.t jsnum) (order : list string) :
  resolved tasks -> acyclic tasks -> kahnInv tasks m [] order ->
  forall k, In k (taskIds tasks) -> In k order.
Proof.
  intros Hres Hacyc (_ & _ & _ & Hzero & _) k Hk.
  destruct (in_dec string_dec k order) as [Hin|Hnot]; [exact Hin|exfalso].
  set (S := filter (fun x => negb (includes x order)) (taskIds tasks)).
  assert (HS : forall x, In x S <-> In x (taskIds tasks) /\ ~ In x order).
  { intros x. unfold S. rewrite filter_In, negb_true_iff, includes_false. tauto. }
  destruct (@cycle_of_successors (List.length S) S (dependsOn tasks)) with (x := k)
    as [c Hc].
  - lia.
  - intros x Hx. apply HS in Hx. destruct Hx as [Hx Hxo].
    apply in_map_iff in Hx. destruct Hx as [t [Et Ht]].
    assert (Hrem : remaining order t <> 0).
    { intros H0. apply (Hzero t Ht) in H0. rewrite app_nil_r, Et in H0. tauto. }
    apply remaining_pos_inv in Hrem. destruct Hrem as [d [Hd Hdo]].
    exists d. split.
    + apply HS. split; [now apply (Hres t d)|exact Hdo].
    + now exists t.
  - now apply HS.
  - now apply (Hacyc c).
Qed.

End Cycles.

(** ** Graph construction and validation *)

Section Validation.
Import TaskGrouping GraphNotions Scenarios.

(** Decides the dependency edges of a concrete scenario and closes the
    goal by comparing ranks. *)
Ltac rank_edges :=
  let t := fresh "t" in
  let Ht := fresh "Ht" in
  let Hb := fresh "Hb" in
  intros ? ? [t [Ht [<- Hb]]];
  simpl in Ht;
  repeat (destruct Ht as [<-|Ht]; [simpl in Hb; intuition (subst; simpl; lia)|]);
  destruct Ht.

Lemma acyclic_diamond : acyclic diamond.
Proof.
  apply acyclic_of_rank with
    (rank := fun k => if String.eqb k "1" then 0
                      else if String.eqb k "4" then 2 else 1).
  rank_edges.
Qed.

Lemma acyclic_unknownOnly : acyclic unknownOnly.
Proof.
  apply acyclic_of_rank with
    (rank := fun k => if String.eqb k "1" then 1 else 0).
  rank_edges.
Qed.

Lemma acyclic_unknownSecond : acyclic unknownSecond.
Proof.
  apply acyclic_of_rank with
    (rank := fun k => if String.eqb k "2" then 1 else 0).
  rank_edges.
Qed.

Lemma validate_of_order (tasks : list Task) (order : list string) :
  calculateExecutionOrder tasks (buildDependencyGraph tasks) = Some order ->
  validateDependencies tasks
  = Some {| valid := Nat.eqb (List.length order) (List.length tasks);
            cycleDetected := negb (Nat.eqb (List.length order) (List.length tasks)) |}.
Proof. unfold validateDependencies. now intros ->. Qed.

Lemma validate_shorter (tasks : list Task) (order : list string) :
  calculateExecutionOrder tasks (buildDependencyGraph tasks) = Some order ->
  List.length order < List.length tasks ->
  validateDependencies tasks = Some {| valid := false; cycleDetected := true |}.
Proof.
  intros Hc Hlt. rewrite (validate_of_order _ Hc).
  assert (E : Nat.eqb (List.length order) (List.length tasks) = false)
    by (apply Nat.eqb_neq; lia).
  now rewrite E.
Qed.

(** C10, counterexample.  With two tasks under the id "1", the first
    declaring no dependency and the second declaring "1", the only node
    carries the second task's dependency list: the first task has no node
    whose [dependencies] equal its own declared list. *)
Lemma buildDependencyGraph_sameId_overwrites :
  ~ (forall t, In t sameId ->
       exists n, JsMap.get (taskId t) (buildDependencyGraph sameId) = Some n
                 /\ nodeDependencies n = deps t).
Proof.
  intros H. destruct (H (task "1" [])) as [n [Hn Hd]]; [now left|].
  vm_compute in Hn. inversion Hn. subst n. discriminate Hd.
Qed.

(** C10, amended.  For every task list the graph holds, under each key
    of the list and under no other key, the node of the last task with
    that key: its [dependencies] are that task's declared list and its
    [dependents] are the keys of the tasks that declare the key, once
    per declaration.  So [t] is among the dependents of [d] exactly when
    [d] is the key of a task and a task with key [t] declares [d]; a
    declared id that is the key of no task has no node and no reverse
    edge; and a task whose key is not used again later in the list has
    its own node, with its own dependency list. *)
Theorem buildDependencyGraph_reverse_edges (tasks : list Task) :
  let g := buildDependencyGraph tasks in
  (forall d, JsMap.get d g = option_map (nodeOf tasks) (lastTask tasks d))
  /\ (forall d x, In x (getDependentTasks d g) <->
                  In d (taskIds tasks) /\ dependsOn tasks x d)
  /\ (forall k, In k (JsMap.keys g) <-> In k (taskIds tasks))
  /\ (forall d, ~ In d (taskIds tasks) ->
        JsMap.get d g = None /\ getDependentTasks d g = [])
  /\ (forall l1 t l2, tasks = l1 ++ t :: l2 -> ~ In (taskId t) (taskIds l2) ->
        JsMap.get (taskId t) g = Some (nodeOf tasks t)
        /\ getDependencyTasks (taskId t) g = deps t).
Proof.
  cbv zeta.
  assert (Hget : forall d, JsMap.get d (buildDependencyGraph tasks)
                           = option_map (nodeOf tasks) (lastTask tasks d)).
  { intros d. rewrite buildDependencyGraph_get.
    destruct (lastTask tasks d) as [t|] eqn:E; [|reflexivity].
    apply lastTask_Some in E. destruct E as [_ <-]. reflexivity. }
  split; [exact Hget|]. split; [|split; [|split]].
  - intros d x. apply getDependentTasks_In.
  - intros k. split.
    + intros Hk. destruct (in_dec string_dec k (taskIds tasks)) as [Hin|Hnot];
        [exact Hin|].
      apply lastTask_None in Hnot. specialize (Hget k). rewrite Hnot in Hget.
      apply get_None in Hget. contradiction.
    + intros Hk. destruct (in_dec string_dec k (JsMap.keys (buildDependencyGraph tasks)))
        as [Hin|Hnot]; [exact Hin|].
      apply get_None in Hnot. rewrite Hget in Hnot.
      destruct (lastTask tasks k) eqn:E; [discriminate|].
      apply lastTask_None in E. contradiction.
  - intros d Hd. now apply buildDependencyGraph_unknown.
  - intros l1 t l2 -> Hlater.
    assert (E : JsMap.get (taskId t) (buildDependencyGraph (l1 ++ t :: l2))
                = Some (nodeOf (l1 ++ t :: l2) t)).
    { rewrite Hget, (lastTask_app l1 l2 t Hlater). reflexivity. }
    split; [exact E|]. unfold getDependencyTasks. now rewrite E.
Qed.

(** The statement of C10 at the diamond: task 2 has its own node, and
    the unknown id "9" has none. *)
Lemma buildDependencyGraph_reverse_edges_witness :
  ~ In "9" (taskIds diamond)
  /\ JsMap.get "9" (buildDependencyGraph diamond) = None
  /\ getDependencyTasks "2" (buildDependencyGraph diamond) = ["1"].
Proof.
  assert (H9 : ~ In "9" (taskIds diamond)).
  { simpl. intuition discriminate. }
  destruct (buildDependencyGraph_reverse_edges diamond) as (_ & _ & _ & Hd & Hown).
  split; [exact H9|]. split; [exact (proj1 (Hd "9" H9))|].
  apply (Hown [task "1" []] (task "2" ["1"]) [task "3" ["1"]; task "4" ["2"; "3"]]).
  - reflexivity.
  - simpl. intuition discriminate.
Defined.

End Validation.

Section ValidationResults.
Import TaskGrouping GraphNotions Scenarios.

(** C3, counterexample.  The one-task list whose task declares the
    unknown dependency "9" has no cycle, yet the order is empty and
    [validateDependencies] answers [valid = false, cycleDetected = true]. *)
Lemma validateDependencies_acyclic_invalid :
  acyclic unknownOnly
  /\ calculateExecutionOrder unknownOnly (buildDependencyGraph unknownOnly) = Some []
  /\ validateDependencies unknownOnly
     = Some {| valid := false; cycleDetected := true |}.
Proof.
  split; [exact acyclic_unknownOnly|]. split; reflexivity.
Qed.

(** The answer carries no task: cycles on different tasks get the same
    answer. *)
Example validateDependencies_names_no_task :
  validateDependencies [task "a" ["b"]; task "b" ["a"]]
  = validateDependencies twoCycle.
Proof. reflexivity. Qed.

(** The same answer for two acyclic tasks that share an id. *)
Lemma validateDependencies_sameId :
  validateDependencies [task "1" []; task "1" []]
  = Some {| valid := false; cycleDetected := true |}.
Proof. reflexivity. Qed.

(** C3, amended.  The loop of [calculateExecutionOrder] always ends.  For
    every task list with pairwise distinct keys whose declared
    dependencies all name tasks of the list and which has no cycle, the
    order is a topological order of all the keys, its length is the task
    count and [validateDependencies] answers [valid = true,
    cycleDetected = false].  For every task list with a dependency cycle
    the order is shorter than the task count and the answer is
    [valid = false, cycleDetected = true]; the answer names no task, but
    with distinct keys every key on a cycle is missing from the order.
    For 1(2), 2(1) the answer is [valid = false, cycleDetected = true]. *)
Theorem validateDependencies_kahn (tasks : list Task) :
  (exists order,
      calculateExecutionOrder tasks (buildDependencyGraph tasks) = Some order)
  /\ (NoDup (taskIds tasks) -> resolved tasks -> acyclic tasks ->
      exists order,
        calculateExecutionOrder tasks (buildDependencyGraph tasks) = Some order
        /\ Permutation order (taskIds tasks)
        /\ topological tasks order
        /\ List.length order = List.length tasks
        /\ validateDependencies tasks
           = Some {| valid := true; cycleDetected := false |})
  /\ (hasCycle tasks ->
      exists order,
        calculateExecutionOrder tasks (buildDependencyGraph tasks) = Some order
        /\ List.length order < List.length tasks
        /\ validateDependencies tasks
           = Some {| valid := false; cycleDetected := true |}
        /\ (NoDup (taskIds tasks) ->
            forall k, onCycle tasks k -> ~ In k order))
  /\ validateDependencies twoCycle
     = Some {| valid := false; cycleDetected := true |}.
Proof.
  split; [|split; [|split; [|reflexivity]]].
  - destruct (calculateExecutionOrder_total tasks (buildDependencyGraph tasks))
      as [m [order [Hc _]]]. now exists order.
  - intros Hkeys Hres Hacyc.
    destruct (@calculateExecutionOrder_kahn tasks Hkeys) as [m [order [Hc Hinv]]].
    pose proof (all_emitted Hres Hacyc Hinv) as Hall.
    destruct Hinv as (Hnd & Hincl & _ & _ & Htopo). rewrite app_nil_r in *.
    assert (Hperm : Permutation order (taskIds tasks)).
    { apply NoDup_Permutation; [exact Hnd|exact Hkeys|].
      intros x. split; [apply Hincl|apply Hall]. }
    assert (Hlen : List.length order = List.length tasks).
    { rewrite (Permutation_length Hperm). unfold taskIds. apply length_map. }
    exists order. repeat split; try assumption.
    rewrite (validate_of_order _ Hc), Hlen, Nat.eqb_refl. reflexivity.
  - intros [k Hk].
    destruct (ListDec.NoDup_dec string_dec (taskIds tasks)) as [Hkeys|Hdup].
    + destruct (@calculateExecutionOrder_kahn tasks Hkeys) as [m [order [Hc Hinv]]].
      destruct Hinv as (Hnd & Hincl & _ & _ & Htopo). rewrite app_nil_r in *.
      assert (Hlt : List.length order < List.length tasks).
      { apply order_shorter with k; try assumption.
        - now apply onCycle_key.
        - now apply cycle_not_emitted with tasks. }
      exists order. split; [exact Hc|]. split; [exact Hlt|].
      split; [now apply validate_shorter with order|].
      intros _ k' Hk'. now apply cycle_not_emitted with tasks.
    + destruct (calculateExecutionOrder_total tasks (buildDependencyGraph tasks))
        as [m [order [Hc Hinv]]].
      apply order_NoDup_incl in Hinv. destruct Hinv as [Hnd Hincl].
      pose proof (@order_shorter_dup tasks order Hnd Hincl Hdup) as Hlt.
      exists order. split; [exact Hc|]. split; [exact Hlt|].
      split; [now apply validate_shorter with order|].
      intros Hkeys. contradiction.
Qed.

(** C3 at the diamond, which has distinct keys, no unknown dependency
    and no cycle, and at the cycle 1(2), 2(1). *)
Lemma validateDependencies_kahn_witness :
  (NoDup (taskIds diamond) /\ resolved diamond /\ acyclic diamond
   /\ validateDependencies diamond = Some {| valid := true; cycleDetected := false |})
  /\ (hasCycle twoCycle
      /\ validateDependencies twoCycle
         = Some {| valid := false; cycleDetected := true |}).
Proof.
  assert (Hkeys : NoDup (taskIds diamond)).
  { simpl. repeat constructor; simpl; intuition discriminate. }
  assert (Hres : resolved diamond).
  { intros t d Ht Hd. simpl in Ht.
    repeat (destruct Ht as [<-|Ht]; [simpl in Hd; simpl; intuition|]).
    destruct Ht. }
  assert (Hcyc : hasCycle twoCycle).
  { exists "1". apply t_trans with "2"; apply t_step.
    - exists (task "1" ["2"]). simpl. intuition.
    - exists (task "2" ["1"]). simpl. intuition. }
  split.
  - split; [exact Hkeys|]. split; [exact Hres|]. split; [exact acyclic_diamond|].
    destruct (validateDependencies_kahn diamond) as (_ & HA & _).
    destruct (HA Hkeys Hres acyclic_diamond) as [order (_ & _ & _ & _ & Hv)].
    exact Hv.
  - split; [exact Hcyc|].
    destruct (validateDependencies_kahn twoCycle) as (_ & _ & HB & _).
    destruct (HB Hcyc) as [order (_ & _ & Hv & _)]. exact Hv.
Defined.

(** C4, counterexample.  The second task of the list declares the id
    "7", which matches no task; the list has no cycle; the answer of
    [validateDependencies] is the one it gives for the cycle 1(2), 2(1):
    no unknown-dependency error is reported and the answer is not distinct
    from that for a cycle. *)
Lemma validateDependencies_unknown_as_cycle :
  dangling unknownSecond "7"
  /\ acyclic unknownSecond
  /\ validateDependencies unknownSecond
     = Some {| valid := false; cycleDetected := true |}
  /\ validateDependencies unknownSecond = validateDependencies twoCycle.
Proof.
  split; [|split; [exact acyclic_unknownSecond|split; reflexivity]].
  split.
  - exists (task "2" ["1"; "7"]). simpl. intuition.
  - simpl. intuition discriminate.
Qed.

(** C4, amended.  For every task list in which a task declares a
    dependency id that matches no task, no error is raised:
    [buildDependencyGraph] gives the id no node and no reverse edge, and
    [validateDependencies] returns [valid = false, cycleDetected = true],
    the answer it gives for a cycle. *)
Theorem validateDependencies_dangling (tasks : list Task) (d : string) :
  dangling tasks d ->
  JsMap.get d (buildDependencyGraph tasks) = None
  /\ getDependentTasks d (buildDependencyGraph tasks) = []
  /\ validateDependencies tasks = Some {| valid := false; cycleDetected := true |}.
Proof.
  intros [[t [Ht Hd]] Hnot].
  destruct (buildDependencyGraph_unknown tasks d Hnot) as [H1 H2].
  split; [exact H1|]. split; [exact H2|].
  destruct (ListDec.NoDup_dec string_dec (taskIds tasks)) as [Hkeys|Hdup].
  - destruct (@calculateExecutionOrder_kahn tasks Hkeys) as [m [order [Hc Hinv]]].
    destruct Hinv as (Hnd & Hincl & _ & Hzero & _). rewrite app_nil_r in *.
    apply validate_shorter with order; [exact Hc|].
    apply order_shorter with (taskId t); try assumption.
    + now apply in_map.
    + intros Hin. apply (Hzero t Ht) in Hin.
      assert (0 < remaining order t); [|lia].
      apply remaining_pos with d; [exact Hd|]. intros Hdo. apply Hnot. now apply Hincl.
  - destruct (calculateExecutionOrder_total tasks (buildDependencyGraph tasks))
      as [m [order [Hc Hinv]]].
    apply order_NoDup_incl in Hinv. destruct Hinv as [Hnd Hincl].
    apply validate_shorter with order; [exact Hc|].
    now apply order_shorter_dup.
Qed.

(** C4 at the single task 1(9). *)
Lemma validateDependencies_dangling_witness :
  dangling unknownOnly "9"
  /\ validateDependencies unknownOnly
     = Some {| valid := false; cycleDetected := true |}.
Proof.
  assert (H : dangling unknownOnly "9").
  { split.
    - exists (task "1" ["9"]). simpl. intuition.
    - simpl. intuition discriminate. }
  split; [exact H|].
  exact (proj2 (proj2 (validateDependencies_dangling H))).
Defined.

End ValidationResults.

(** ** Failure handling in the team manager *)

Section FailureHandling.
Import TaskGrouping GraphNotions Scenarios.
Import TeamManager.

Lemma blockOne_fold (L : list string) :
  forall blocked,
    NoDup blocked ->
    NoDup (fold_left blockOne L blocked)
    /\ (forall x, In x (fold_left blockOne L blocked) <-> In x blocked \/ In x L)
    /\ exists added, fold_left blockOne L blocked = blocked ++ added.
Proof.
  induction L as [|d L IH]; intros blocked Hnd; simpl.
  - split; [exact Hnd|]. split; [intuition|]. exists []. now rewrite app_nil_r.
  - unfold blockOne at 2 4 6. destruct (includes d blocked) eqn:E.
    + apply includes_In in E. destruct (IH blocked Hnd) as (H1 & H2 & H3).
      split; [exact H1|]. split; [|exact H3].
      intros x. rewrite H2. intuition (subst; auto).
    + apply includes_false in E.
      assert (Hnd' : NoDup (blocked ++ [d])).
      { apply NoDup_app; [exact Hnd|repeat constructor; intros []|].
        intros a Ha [<-|[]]. contradiction. }
      destruct (IH (blocked ++ [d]) Hnd') as (H1 & H2 & [added H3]).
      split; [exact H1|]. split.
      * intros x. rewrite H2, in_app_iff. simpl. intuition.
      * exists (d :: added). rewrite H3, <- app_assoc. reflexivity.
Qed.

Lemma handleTaskFailure_blocked (tasks : list Task) (st : State) (t : Task)
    (error : string) :
  blockedTasks (fst (handleTaskFailure tasks st t error))
  = fold_left blockOne
      (TaskGrouping.getDependentTasks (id t) (buildDependencyGraph tasks))
      (blockedTasks st).
Proof.
  unfold handleTaskFailure. simpl. rewrite dependencyGraph_build.
  change (TeamManager.getDependentTasks (id t) (buildDependencyGraph tasks))
    with (TaskGrouping.getDependentTasks (id t) (buildDependencyGraph tasks)).
  destruct (TaskGrouping.getDependentTasks (id t) (buildDependencyGraph tasks));
    reflexivity.
Qed.

(** The blocked list never holds an id twice in a state reached through
    [dispatchAndMonitor] from the initial state. *)
Lemma dispatchAndMonitor_blocked_NoDup (planTasks : list Task)
    (oversight : option Oversight) (st : State) (t : Task)
    (dispatchResult : DispatchResult.t) :
  NoDup (blockedTasks st) ->
  NoDup (blockedTasks (dispatchAndMonitor planTasks oversight st t dispatchResult)).
Proof.
  intros Hnd. unfold dispatchAndMonitor.
  destruct (DispatchResult.success dispatchResult); cbn [negb].
  - destruct (WorkResult.success (DispatchResult.result dispatchResult)).
    + exact Hnd.
    + rewrite handleTaskFailure_blocked. now apply blockOne_fold.
  - rewrite handleTaskFailure_blocked. now apply blockOne_fold.
Qed.

(** C1, counterexample.  In the diamond, the failure of task 1 blocks
    tasks 2 and 3 only: task 4 depends on task 1 through 2 (and 3) but is
    not in the blocked list. *)
Lemma handleTaskFailure_diamond_misses_descendant :
  blockedTasks (fst (handleTaskFailure diamond initial (Scenarios.task "1" []) "failed"))
  = ["2"; "3"]
  /\ clos_trans string (dependsOn diamond) "4" "1"
  /\ ~ In "4" (blockedTasks
                 (fst (handleTaskFailure diamond initial (Scenarios.task "1" []) "failed"))).
Proof.
  split; [reflexivity|]. split.
  - apply t_trans with "2"; apply t_step.
    + exists (Scenarios.task "4" ["2"; "3"]). simpl. intuition.
    + exists (Scenarios.task "2" ["1"]). simpl. intuition.
  - simpl. intuition discriminate.
Qed.

(** C1, amended.  When a task fails, the failure handler reads the
    direct dependents of the failed task from the reverse edges of the
    graph and appends to the blocked list each of them that is not
    already there: from a blocked list without repetition, every direct
    dependent ends up in the list exactly once, earlier entries stay, and
    nothing else is added.  In the diamond, a failure of task 1 leaves
    tasks 2 and 3 in the blocked list, once each. *)
Theorem handleTaskFailure_blocks_dependents (tasks : list Task) (st : State)
    (t : Task) (error : string) :
  NoDup (blockedTasks st) ->
  let st' := fst (handleTaskFailure tasks st t error) in
  NoDup (blockedTasks st')
  /\ (forall x, In x (blockedTasks st') <->
                In x (blockedTasks st)
                \/ (In (id t) (taskIds tasks) /\ dependsOn tasks x (id t)))
  /\ (exists added, blockedTasks st' = blockedTasks st ++ added)
  /\ completedTasks st' = completedTasks st
  /\ blockedTasks (fst (handleTaskFailure diamond initial (Scenarios.task "1" []) error))
     = ["2"; "3"].
Proof.
  intros Hnd. cbv zeta. rewrite handleTaskFailure_blocked.
  destruct (blockOne_fold
              (TaskGrouping.getDependentTasks (id t) (buildDependencyGraph tasks))
              Hnd) as (H1 & H2 & H3).
  split; [exact H1|]. split; [|split; [exact H3|split; reflexivity]].
  intros x. rewrite H2, getDependentTasks_In. reflexivity.
Qed.

(** C1 at the diamond, from an empty blocked list. *)
Lemma handleTaskFailure_blocks_dependents_witness :
  NoDup (blockedTasks initial)
  /\ NoDup (blockedTasks
              (fst (handleTaskFailure diamond initial (Scenarios.task "1" []) "failed"))).
Proof.
  assert (H : NoDup (blockedTasks initial)) by constructor.
  split; [exact H|].
  exact (proj1 (@handleTaskFailure_blocks_dependents
                  diamond initial (Scenarios.task "1" []) "failed" H)).
Defined.

End FailureHandling.

(** ** The performance checker *)

Section Performance.
Import JsString Checkers CheckNotions.

Lemma backtrack_Some (R : Type) (n : nat) (attempt : nat -> option R) (r : R) :
  backtrack n attempt = Some r -> exists k, k <= n /\ attempt k = Some r.
Proof.
  induction n as [|n IH]; simpl.
  - destruct (attempt 0) eqn:E; [|discriminate].
    intros H. inversion H. subst. now exists 0.
  - destruct (attempt (S n)) eqn:E.
    + intros H. inversion H. subst. now exists (S n).
    + intros H. destruct (IH H) as [k [Hk Hr]]. exists k. split; [lia|exact Hr].
Qed.

(** The text captured by a group that starts with a single-character
    atom starts with a character matched by that atom. *)
Lemma match_here_group_head (pre : list Atom) (a : Atom) (rest : list Atom) :
  Forall (fun x => captured x = false) pre ->
  captured a = true -> quant a = One ->
  forall s cap,
    match_here (pre ++ a :: rest) s = Some cap ->
    exists c cap', cap = c :: cap' /\ atom_matches a c = true.
Proof.
  intros Hpre Hcap Hone. induction Hpre as [|b pre Hb Hpre IH]; intros s cap.
  - simpl. rewrite Hone, Hcap.
    destruct s as [|c s]; simpl; [discriminate|].
    destruct (atom_matches a c) eqn:E; simpl; [|discriminate].
    destruct (match_here rest s) as [cap'|]; [|discriminate].
    intros H. inversion H. now exists c, cap'.
  - cbn [app match_here]. rewrite Hb.
    assert (Hattempt : forall k r,
               match match_here (pre ++ a :: rest) (skipn k s) with
               | Some cap0 => Some ([] ++ cap0)
               | None => None
               end = Some r ->
               exists c cap', r = c :: cap' /\ atom_matches a c = true).
    { intros k r. destruct (match_here (pre ++ a :: rest) (skipn k s)) as [cap0|] eqn:E;
        [|discriminate].
      intros H. inversion H. subst. now apply (IH (skipn k s)). }
    destruct (quant b).
    + destruct (Nat.leb 1 (run_length b s)); [apply Hattempt|discriminate].
    + intros H. apply backtrack_Some in H. destruct H as [k [_ H]].
      now apply (Hattempt k).
    + intros H. apply backtrack_Some in H. destruct H as [k [_ H]].
      destruct (Nat.leb 1 k); [now apply (Hattempt k)|discriminate].
Qed.

Lemma match_from_here (atoms : list Atom) (s : list ascii) (cap : list ascii) :
  match_from atoms s = Some cap -> exists s', match_here atoms s' = Some cap.
Proof.
  induction s as [|c s IH]; simpl.
  - destruct (match_here atoms []) eqn:E; [|discriminate].
    intros H. inversion H. subst. now exists [].
  - destruct (match_here atoms (c :: s)) eqn:E.
    + intros H. inversion H. subst. now exists (c :: s).
    + exact IH.
Qed.

Lemma backslash_only (c : ascii) :
  atom_matches (grp "\" One) c = true -> c = "\"%char.
Proof.
  destruct c as [[] [] [] [] [] [] [] []]; vm_compute; intros H;
    first [reflexivity|discriminate H].
Qed.

Lemma parseInt_backslash (cap : list ascii) :
  parseInt (string_of_list_ascii ("\"%char :: cap)) = Js.NaN.
Proof.
  unfold parseInt. rewrite list_ascii_of_string_of_list_ascii. reflexivity.
Qed.

(** Whatever either literal captures, [parseInt] of it is [NaN]. *)
Lemma timePattern_target (requirement g : string) :
  match_group timePattern requirement = Some g -> parseInt g = Js.NaN.
Proof.
  unfold match_group.
  destruct (match_from timePattern (list_ascii_of_string requirement)) as [cap|] eqn:E;
    [|discriminate].
  intros H. inversion H. subst g.
  apply match_from_here in E. destruct E as [s' E].
  apply (@match_here_group_head [lit "<"; lit "\"; star "s"] (grp "\" One)
           [grp "d" Plus; lit "m"; lit "s"]) in E;
    [|repeat constructor|reflexivity|reflexivity].
  destruct E as [c [cap' [-> Hc]]]. apply backslash_only in Hc. subst c.
  apply parseInt_backslash.
Qed.

Lemma throughputPattern_target (requirement g : string) :
  match_group throughputPattern requirement = Some g -> parseInt g = Js.NaN.
Proof.
  unfold match_group.
  destruct (match_from throughputPattern (list_ascii_of_string requirement))
    as [cap|] eqn:E; [|discriminate].
  intros H. inversion H. subst g.
  apply match_from_here in E. destruct E as [s' E].
  apply (@match_here_group_head [] (grp "\" One)
           [grp "d" Plus; lit "\"; star "s";
            lit "c"; lit "o"; lit "n"; lit "c"; lit "u"; lit "r"; lit "r";
            lit "e"; lit "n"; lit "t"]) in E;
    [|constructor|reflexivity|reflexivity].
  destruct E as [c [cap' [-> Hc]]]. apply backslash_only in Hc. subst c.
  apply parseInt_backslash.
Qed.

Lemma performanceIssues_nil (tests : option Tests) (requirement : string) :
  performanceIssues tests requirement = [].
Proof.
  unfold performanceIssues.
  destruct (match_group timePattern requirement) as [g|] eqn:E1;
    destruct (match_group throughputPattern requirement) as [g'|] eqn:E2;
    try rewrite (timePattern_target _ E1);
    try rewrite (throughputPattern_target _ E2);
    reflexivity.
Qed.

(** The block guarded by [timeMatch] applies the specified thresholds
    once it is given a numeric target: critical above twice the target,
    warning above the target, nothing otherwise. *)
Lemma responseTimeIssue_thresholds (target actual : Z) :
  ((2 * target < actual)%Z -> (0 <= target)%Z ->
   exists msg, responseTimeIssue (Js.Num target) (Js.Num actual) []
               = [mkIssue msg (Some Critical) None])
  /\ ((target < actual <= 2 * target)%Z ->
      exists msg, responseTimeIssue (Js.Num target) (Js.Num actual) []
                  = [mkIssue msg (Some Warning) None])
  /\ ((actual <= target)%Z ->
      responseTimeIssue (Js.Num target) (Js.Num actual) [] = []).
Proof.
  unfold responseTimeIssue, pushIf, Js.js_gt, Js.js_double.
  split; [|split].
  - intros H1 H2.
    assert (E1 : (target <? actual)%Z = true) by (apply Z.ltb_lt; lia).
    assert (E2 : (target * 2 <? actual)%Z = true) by (apply Z.ltb_lt; lia).
    rewrite E1, E2. eexists. reflexivity.
  - intros H.
    assert (E1 : (target <? actual)%Z = true) by (apply Z.ltb_lt; lia).
    assert (E2 : (target * 2 <? actual)%Z = false) by (apply Z.ltb_ge; lia).
    rewrite E1, E2. eexists. reflexivity.
  - intros H.
    assert (E1 : (target <? actual)%Z = false) by (apply Z.ltb_ge; lia).
    now rewrite E1.
Qed.

(** C6, the code at the failing input.  Neither literal of
    [PerformanceChecker.check] can match a requirement such as "< 100ms",
    and whatever they capture parses to [NaN]: the checker returns
    [passed = true] with no issue for every requirement and every
    measurement; in particular for the target "< 100ms" and measured
    300 ms (three times the target) or 150 ms, for which a critical issue
    and a warning are specified. *)
Theorem PerformanceChecker_check_never_reports :
  (forall code tests requirement,
      PerformanceChecker_check code tests requirement = clean)
  /\ match_group timePattern "< 100ms" = None
  /\ PerformanceChecker_check [] (measured 300) "< 100ms" = clean
  /\ PerformanceChecker_check [] (measured 150) "< 100ms" = clean.
Proof.
  assert (H : forall code tests requirement,
             PerformanceChecker_check code tests requirement = clean).
  { intros code tests requirement. unfold PerformanceChecker_check.
    rewrite performanceIssues_nil. reflexivity. }
  split; [exact H|]. split; [reflexivity|]. split; apply H.
Qed.

End Performance.

(** ** Aggregation of the category results *)

Section Aggregation.
Import Checkers CheckNotions.

Lemma architectureIssues_nil (code : Code) (requirement : string) :
  architectureIssues code requirement = [].
Proof.
  unfold architectureIssues.
  repeat match goal with
         | |- context [String.eqb ?a ?b] => destruct (String.eqb a b)
         end; reflexivity.
Qed.

Lemma styleIssues_nil (code : Code) (requirement : string) :
  styleIssues code requirement = [].
Proof.
  unfold styleIssues.
  repeat match goal with
         | |- context [String.eqb ?a ?b] => destruct (String.eqb a b)
         end; reflexivity.
Qed.

(** Every result a checker of [this.checkers] can return follows the
    critical policy. *)
Lemma checkers_policy :
  Forall (fun entry : string * Checker =>
            forall code tests requirement,
              criticalPolicy (snd entry code tests requirement))
         checkers.
Proof.
  unfold checkers.
  repeat (apply Forall_cons); [| | | | |apply Forall_nil];
    intros code tests requirement; unfold criticalPolicy, reportsCritical;
    cbn [snd].
  - unfold ArchitectureChecker_check. rewrite architectureIssues_nil. now split.
  - unfold StyleChecker_check. rewrite styleIssues_nil. now split.
  - unfold TestingChecker_check. now split.
  - unfold PerformanceChecker_check. rewrite performanceIssues_nil. now split.
  - unfold SecurityChecker_check. now split.
Qed.

Lemma set_Forall (V : Type) (P : string * V -> Prop) (m : JsMap.t V)
    (k : string) (v : V) :
  Forall P m -> P (k, v) -> Forall P (JsMap.set k v m).
Proof.
  intros Hm Hv. induction Hm as [|[k' v'] m Hx Hm IH]; simpl.
  - now repeat constructor.
  - destruct (String.eqb k k'); constructor; assumption.
Qed.

Lemma runCheckers_policy (code : Code) (tests : option Tests)
    (goalTags : JsMap.t string) :
  Forall (fun e => criticalPolicy (snd e)) (runCheckers code tests goalTags).
Proof.
  unfold runCheckers.
  assert (H : forall acc : JsMap.t CheckResult.t,
             Forall (fun e => criticalPolicy (snd e)) acc ->
             Forall (fun e => criticalPolicy (snd e))
               (fold_left
                  (fun results (entry : string * Checker) =>
                     let goalValue := JsMap.get (fst entry) goalTags in
                     match goalValue with
                     | Some v =>
                         if isInvoked goalValue
                         then JsMap.set (fst entry) (snd entry code tests v) results
                         else results
                     | None => results
                     end)
                  checkers acc)).
  { induction checkers_policy as [|entry cs He _ IH]; intros acc Hacc; simpl;
      [exact Hacc|].
    apply IH.
    destruct (JsMap.get (fst entry) goalTags) as [v|]; [|exact Hacc].
    destruct (isInvoked (Some v)); [|exact Hacc].
    apply set_Forall; [exact Hacc|apply He]. }
  apply H. constructor.
Qed.

(** The results hold exactly the invoked categories. *)
Lemma runCheckers_get (code : Code) (tests : option Tests)
    (goalTags : JsMap.t string) (key : string) :
  JsMap.get key (runCheckers code tests goalTags)
  = categoryResult code tests goalTags key.
Proof.
  unfold runCheckers, categoryResult.
  assert (H : forall cs : JsMap.t Checker,
             NoDup (JsMap.keys cs) ->
             forall acc : JsMap.t CheckResult.t,
               (forall k, In k (JsMap.keys cs) -> JsMap.get k acc = None) ->
               JsMap.get key
                 (fold_left
                    (fun results (entry : string * Checker) =>
                       let goalValue := JsMap.get (fst entry) goalTags in
                       match goalValue with
                       | Some v =>
                           if isInvoked goalValue
                           then JsMap.set (fst entry) (snd entry code tests v) results
                           else results
                       | None => results
                       end)
                    cs acc)
               = match JsMap.get key cs, JsMap.get key goalTags with
                 | Some checker, Some v =>
                     if isInvoked (Some v) then Some (checker code tests v)
                     else JsMap.get key acc
                 | _, _ => JsMap.get key acc
                 end).
  { induction cs as [|[k0 c0] cs IH]; intros Hnd acc Hacc.
    - simpl. now destruct (JsMap.get key goalTags).
    - unfold JsMap.keys in Hnd. simpl in Hnd.
      inversion Hnd as [|? ? Hnotin Hnd']; subst.
      cbn [fold_left].
      match goal with
      | |- context [fold_left _ cs ?a] => set (acc' := a)
      end.
      assert (Hacc' : acc' = match JsMap.get k0 goalTags with
                             | Some v =>
                                 if isInvoked (Some v)
                                 then JsMap.set k0 (c0 code tests v) acc
                                 else acc
                             | None => acc
                             end).
      { subst acc'. cbn [fst snd]. cbv zeta.
        now destruct (JsMap.get k0 goalTags). }
      clearbody acc'.
      assert (Hother : forall k, k <> k0 -> JsMap.get k acc' = JsMap.get k acc).
      { intros k Hk. subst acc'.
        destruct (JsMap.get k0 goalTags) as [v|]; [|reflexivity].
        destruct (isInvoked (Some v)); [now apply get_set_other|reflexivity]. }
      cbn [JsMap.get].
      assert (Hnone : forall k, In k (JsMap.keys cs) -> JsMap.get k acc' = None).
      { intros k Hk. rewrite Hother.
        - apply Hacc. unfold JsMap.keys. simpl. now right.
        - intros ->. contradiction. }
      etransitivity; [exact (IH Hnd' acc' Hnone)|].
      destruct (String.eqb_spec key k0) as [->|Hne].
      + assert (E : JsMap.get k0 cs = None) by now apply get_None.
        rewrite E, Hacc'.
        destruct (JsMap.get k0 goalTags) as [v|]; [|reflexivity].
        destruct (isInvoked (Some v)); [apply get_set_same|reflexivity].
      + rewrite (Hother key Hne). reflexivity. }
  etransitivity.
  { apply H; [|intros k _; reflexivity].
    unfold checkers, JsMap.keys. simpl.
    repeat constructor; simpl; intuition discriminate. }
  destruct (JsMap.get key checkers), (JsMap.get key goalTags) as [v|];
    reflexivity.
Qed.

(** What [combineResults] computes for arbitrary category results: the
    aggregate is critical when a failing category is flagged critical,
    and passes when every failing category has an empty issue list. *)
Lemma combineResults_fold (results : JsMap.t CheckResult.t) :
  forall acc : list AlignmentIssue.t * bool,
    snd (fold_left combineStep results acc)
    = (snd acc
       || existsb (fun e => negb (CheckResult.passed (snd e))
                            && CheckResult.critical (snd e)) results)
    /\ Nat.eqb (List.length (fst (fold_left combineStep results acc))) 0
       = (Nat.eqb (List.length (fst acc)) 0
          && forallb (fun e => CheckResult.passed (snd e)
                               || Nat.eqb (List.length (CheckResult.issues (snd e))) 0)
                     results).
Proof.
  induction results as [|[k r] results IH]; intros acc; simpl.
  - now rewrite orb_false_r, andb_true_r.
  - destruct (IH (combineStep acc (k, r))) as [H1 H2]. rewrite H1, H2.
    unfold combineStep. simpl.
    destruct (CheckResult.passed r); simpl; [now split|].
    rewrite length_app, length_map.
    destruct (CheckResult.critical r); simpl; split;
      try rewrite orb_true_r; try reflexivity;
      destruct (List.length (fst acc)), (List.length (CheckResult.issues r));
      simpl; try reflexivity; now rewrite ?andb_false_r.
Qed.

(** Under the critical policy a failing category has a non-empty issue
    list and is flagged critical. *)
Lemma combineResults_policy (results : JsMap.t CheckResult.t) :
  Forall (fun e => criticalPolicy (snd e)) results ->
  existsb (fun e => negb (CheckResult.passed (snd e))
                    && CheckResult.critical (snd e)) results
  = existsb (fun e => CheckResult.critical (snd e)) results
  /\ forallb (fun e => CheckResult.passed (snd e)
                       || Nat.eqb (List.length (CheckResult.issues (snd e))) 0)
             results
     = negb (existsb (fun e => reportsCritical (snd e)) results).
Proof.
  induction 1 as [|[k r] results [Hc Hp] _ [IH1 IH2]]; simpl; [now split|].
  simpl in Hc, Hp. rewrite IH1, IH2, Hp, Hc.
  unfold reportsCritical.
  destruct (existsb isCritical (CheckResult.issues r)) eqn:E; simpl; [|now split].
  split; [reflexivity|].
  destruct (CheckResult.issues r); [discriminate E|reflexivity].
Qed.

(** C2.  For every input, the result of [checkAll] aggregates the
    results of the invoked categories (those whose goal tag is present
    and not "none" or "standard"): its critical flag is the disjunction
    of their critical flags, and it passes exactly when none of them
    reports a critical issue, so warnings and info issues alone leave
    [passed] true. *)
Theorem checkAll_aggregate (code : Code) (tests : option Tests)
    (goalTags : JsMap.t string) :
  let invoked := runCheckers code tests goalTags in
  let r := checkAll code tests goalTags in
  AlignmentResult.details r = invoked
  /\ AlignmentResult.critical r
     = existsb (fun e => CheckResult.critical (snd e)) invoked
  /\ AlignmentResult.passed r
     = negb (existsb (fun e => reportsCritical (snd e)) invoked)
  /\ (forall key, JsMap.get key invoked = categoryResult code tests goalTags key).
Proof.
  cbv zeta. unfold checkAll, combineResults. simpl.
  destruct (combineResults_fold (runCheckers code tests goalTags) ([], false))
    as [H1 H2].
  destruct (combineResults_policy (runCheckers_policy code tests goalTags))
    as [H3 H4].
  split; [reflexivity|]. split; [|split].
  - rewrite H1, H3. reflexivity.
  - rewrite H2, H4. reflexivity.
  - apply runCheckers_get.
Qed.

(** A testing category with a warning only: the aggregate passes. *)
Example checkAll_warning_only :
  AlignmentResult.passed
    (checkAll [] (Some (mkTests None (Some 0%Z) None None None None None))
              [("testing", "unit")]) = true
  /\ CheckResult.issues
       (TestingChecker_check [] (Some (mkTests None (Some 0%Z) None None None None None))
                             "unit")
     = [mkIssue "No unit tests found" (Some Warning) None].
Proof. split; reflexivity. Qed.

(** [combineResults] alone, on a failing category that reports a warning
    only, such as the performance result for 150 ms against a parsed
    target of 100 ms: the aggregate does not pass.  No checker of
    [this.checkers] returns such a result. *)
Example combineResults_failing_warning :
  let issues := responseTimeIssue (Num 100) (Num 150) [] in
  let result :=
    CheckResult.mk (Nat.eqb (List.length issues) 0) issues
                   (existsb isCritical issues) None in
  map severity issues = [Some Warning]
  /\ AlignmentResult.passed (combineResults [("performance", result)]) = false
  /\ AlignmentResult.critical (combineResults [("performance", result)]) = false.
Proof. repeat split. Qed.

End Aggregation.

(** ** Milestone report *)

Section Milestone.
Import AlertSystem ReportNotions.

Lemma percentOr_pos (otherwise : jsnum) (part total : nat) :
  0 < total -> percentOr otherwise part total = round_percent part total.
Proof.
  intros H. unfold percentOr. apply Nat.ltb_lt in H. now rewrite H.
Qed.


(** C9, counterexample.  For the empty result set the quotient
    [aligned / total] is 0/0 and [Math.round] of it is [NaN]; the report
    does not compute it: the guard [total > 0] makes the score 0, with
    status "misaligned" and the medium-priority recommendation. *)
Lemma generateMilestoneReport_empty_score :
  Summary.score (summary (generateMilestoneReport "" [] [] "Milestone")) = Num 0
  /\ round_percent 0 0 = NaN
  /\ Summary.score (summary (generateMilestoneReport "" [] [] "Milestone"))
     <> round_percent (List.length (filter (hasStatus "aligned") []))
                      (List.length (@nil TaskResult))
  /\ status (generateMilestoneReport "" [] [] "Milestone") = "misaligned"
  /\ map priority (recommendations (generateMilestoneReport "" [] [] "Milestone"))
     = ["medium"].
Proof.
  split; [reflexivity|]. split; [vm_compute; reflexivity|].
  split; [vm_compute; discriminate|]. split; reflexivity.
Qed.

(** C9, amended.  For every non-empty set of task results, the score of
    the milestone report is [Math.round((aligned / total) * 100)]; for
    the empty set it is 0.  The status is "aligned" when the score is at
    least 90, "partial" when it is at least 70 and below 90, "misaligned"
    when it is below 70; the recommendations hold one high-priority
    entry, whose message lists the ids of all misaligned results, when a
    misaligned result exists and none otherwise, followed by one
    medium-priority entry exactly when the score is below 80. *)
Theorem generateMilestoneReport_score (now : string) (taskResults : list TaskResult)
    (goals : JsMap.t string) (milestoneName : string) :
  let report := generateMilestoneReport now taskResults goals milestoneName in
  let aligned := List.length (filter (hasStatus "aligned") taskResults) in
  let misaligned := List.length (filter (hasStatus "misaligned") taskResults) in
  let total := List.length taskResults in
  let score := Summary.score (summary report) in
  (0 < total -> score = round_percent aligned total)
  /\ (total = 0 -> score = Num 0)
  /\ (forall z, score = Num z ->
        ((90 <= z)%Z -> status report = "aligned")
        /\ ((70 <= z < 90)%Z -> status report = "partial")
        /\ ((z < 70)%Z -> status report = "misaligned"))
  /\ recommendations report
     = (if Nat.ltb 0 misaligned then [fixMisaligned taskResults] else [])
       ++ (if js_lt score (Num 80) then [improveAlignment score] else [])
  /\ priority (fixMisaligned taskResults) = "high"
  /\ message (fixMisaligned taskResults)
     = ("Review and fix " ++ show_nat misaligned ++ " misaligned task(s): "
        ++ join ", " (map (fun r => js_or (id r) (taskId r))
                          (filter (hasStatus "misaligned") taskResults)))%string
  /\ withPriority "high" (recommendations report)
     = (if Nat.ltb 0 misaligned then 1 else 0)
  /\ withPriority "medium" (recommendations report)
     = (if js_lt score (Num 80) then 1 else 0)
  /\ List.length (recommendations report)
     = withPriority "high" (recommendations report)
       + withPriority "medium" (recommendations report).
Proof.
  cbv zeta. unfold generateMilestoneReport.
  cbn [summary Summary.score status recommendations].
  set (aligned := List.length (filter (hasStatus "aligned") taskResults)).
  set (misaligned := List.length (filter (hasStatus "misaligned") taskResults)).
  set (total := List.length taskResults).
  set (score := percentOr (Num 0) aligned total).
  split; [intros H; now apply percentOr_pos|].
  split; [intros H; subst score; now rewrite H|].
  split.
  { intros z Hz. rewrite Hz. unfold js_ge. split; [|split]; intros H.
    - assert (E : (90 <=? z)%Z = true) by (apply Z.leb_le; lia). now rewrite E.
    - assert (E1 : (90 <=? z)%Z = false) by (apply Z.leb_gt; lia).
      assert (E2 : (70 <=? z)%Z = true) by (apply Z.leb_le; lia).
      now rewrite E1, E2.
    - assert (E1 : (90 <=? z)%Z = false) by (apply Z.leb_gt; lia).
      assert (E2 : (70 <=? z)%Z = false) by (apply Z.leb_gt; lia).
      now rewrite E1, E2. }
  split.
  { destruct (js_lt score (Num 80)); [reflexivity|now rewrite app_nil_r]. }
  split; [reflexivity|].
  split.
  { unfold fixMisaligned, misalignedTasks. simpl. subst misaligned.
    now rewrite length_map. }
  unfold withPriority.
  destruct (Nat.ltb 0 misaligned), (js_lt score (Num 80)); repeat split.
Qed.

(** C9 on nine aligned results and one misaligned result. *)
Lemma generateMilestoneReport_score_witness :
  0 < List.length (resultWith "10" "misaligned"
                     :: map (fun i => resultWith i "aligned")
                            ["1"; "2"; "3"; "4"; "5"; "6"; "7"; "8"; "9"])
  /\ Summary.score
       (summary (generateMilestoneReport "" (resultWith "10" "misaligned"
                     :: map (fun i => resultWith i "aligned")
                            ["1"; "2"; "3"; "4"; "5"; "6"; "7"; "8"; "9"]) [] "M"))
     = round_percent 9 10
  /\ round_percent 9 10 = Num 90.
Proof.
  split; [simpl; lia|]. split; [|reflexivity].
  apply (generateMilestoneReport_score "" (resultWith "10" "misaligned"
           :: map (fun i => resultWith i "aligned")
                  ["1"; "2"; "3"; "4"; "5"; "6"; "7"; "8"; "9"]) [] "M").
  simpl; lia.
Defined.

(** The score is computed in binary64: 23 aligned results out of 40 give
    57, although 23/40 is 57.5%. *)
Example round_percent_binary64 :
  round_percent 23 40 = Num 57 /\ round_percent 1 8 = Num 13
  /\ round_percent 7 10 = Num 70 /\ round_percent 1 3 = Num 33.
Proof. repeat split; vm_compute; reflexivity. Qed.

End Milestone.

(** ** Errored alignment checks *)

Section ErroredChecks.
Import AlertSystem ReportNotions.
Import TeamManager.

(** C5, counterexample.  Task 1 completes aligned and the check of task
    2 throws; task 2 is recorded with status "error", and the summary
    reports an alignment rate of 50: the errored task is in the
    denominator.  Leaving it out would give 100. *)
Lemma generateSummary_errored_in_denominator :
  map (fun t => AlertSystem.Alignment.status (alignment t)) (completedTasks afterBoth)
  = ["aligned"; "error"]
  /\ Summary.alignmentRate (generateSummary twoTasks afterBoth) = Num 50
  /\ rateExcludingErrors afterBoth = Num 100
  /\ AlertSystem.Summary.score
       (summary (generateMilestoneReport ""
                   [resultWith "1" "aligned"; resultWith "2" "error"] [] "M"))
     = Num 50.
Proof. repeat split; vm_compute; reflexivity. Qed.

(** C5, amended.  When the alignment check of a successfully completed
    task throws, the run goes on: the task is recorded as completed with
    an alignment of status "error" (not "misaligned") carrying the error
    message, and nothing is blocked.  In the summary it counts as
    completed, neither as aligned nor as misaligned, and it is counted in
    the denominator of the alignment rate, which is
    [Math.round((aligned / completed) * 100)] over all completed tasks.
    In a milestone report a result of status "error" is listed in the
    details with that status, is counted in [totalTasks], which is the
    denominator of the score, and is not counted as aligned, misaligned
    or not checked. *)
Theorem errored_check_recorded_and_counted
    (planTasks : list TaskGrouping.Task) (checkAlignment : Oversight) (st : State)
    (t : TaskGrouping.Task) (dispatchResult : DispatchResult.t) (errorMessage : string) :
  DispatchResult.success dispatchResult = true ->
  WorkResult.success (DispatchResult.result dispatchResult) = true ->
  checkAlignment
    (mkRequest (TaskGrouping.id t)
               (firstPresent (WorkResult.code (DispatchResult.result dispatchResult))
                             (WorkResult.changes (DispatchResult.result dispatchResult)))
               (WorkResult.tests (DispatchResult.result dispatchResult))
               (TaskGrouping.goalTags t))
  = inr errorMessage ->
  let errored := AlertSystem.Alignment.mk "error" errorMessage [] [] in
  let st' := dispatchAndMonitor planTasks (Some checkAlignment) st t dispatchResult in
  let s := generateSummary planTasks st in
  let s' := generateSummary planTasks st' in
  completedTasks st'
  = completedTasks st ++ [mkCompleted t (DispatchResult.result dispatchResult) errored]
  /\ JsMap.get (TaskGrouping.id t) (taskResults st')
     = Some (Succeeded errored (DispatchResult.result dispatchResult))
  /\ blockedTasks st' = blockedTasks st
  /\ Summary.completedTasks s' = S (Summary.completedTasks s)
  /\ Summary.alignedTasks s' = Summary.alignedTasks s
  /\ Summary.misalignedTasks s' = Summary.misalignedTasks s
  /\ Summary.alignmentRate s'
     = round_percent (Summary.alignedTasks s) (S (Summary.completedTasks s))
  /\ (forall now before after goals milestoneName r a,
        AlertSystem.alignment r = Some a ->
        AlertSystem.Alignment.status a = "error" ->
        let results := before ++ r :: after in
        let report := generateMilestoneReport now results goals milestoneName in
        In (AlertSystem.Detail.mk (js_or (AlertSystem.id r) (AlertSystem.taskId r))
                                  "error"
                                  (List.length (AlertSystem.Alignment.issues a)))
           (details report)
        /\ AlertSystem.Summary.totalTasks (summary report)
           = S (List.length (before ++ after))
        /\ AlertSystem.Summary.aligned (summary report)
           = List.length (filter (hasStatus "aligned") (before ++ after))
        /\ AlertSystem.Summary.misaligned (summary report)
           = List.length (filter (hasStatus "misaligned") (before ++ after))
        /\ AlertSystem.Summary.notChecked (summary report)
           = List.length (filter lacksAlignment (before ++ after))
        /\ AlertSystem.Summary.score (summary report)
           = round_percent
               (List.length (filter (hasStatus "aligned") (before ++ after)))
               (S (List.length (before ++ after)))).
Proof.
  intros Hd Hw Hthrow. cbv zeta.
  unfold dispatchAndMonitor, runOversightCheck. rewrite Hd, Hw, Hthrow. simpl.
  split; [reflexivity|]. split; [apply get_set_same|]. split; [reflexivity|].
  rewrite !filter_app, !length_app. simpl.
  split; [lia|]. split; [lia|]. split; [lia|]. split.
  - unfold percentOr. rewrite !Nat.add_0_r, Nat.add_1_r. reflexivity.
  - intros now before after goals milestoneName r a Ha Hs.
    unfold generateMilestoneReport, hasStatus, lacksAlignment.
    cbn [details summary AlertSystem.Summary.totalTasks AlertSystem.Summary.aligned
         AlertSystem.Summary.misaligned AlertSystem.Summary.notChecked
         AlertSystem.Summary.score].
    rewrite !filter_app, !length_app. cbn [filter]. rewrite Ha, Hs.
    cbn [String.eqb Ascii.eqb Bool.eqb List.length].
    split.
    + apply in_map_iff. exists r. split; [|apply in_or_app; right; now left].
      unfold detailOf. rewrite Ha, Hs. reflexivity.
    + split; [lia|]. split; [reflexivity|]. split; [reflexivity|].
      split; [reflexivity|].
      rewrite percentOr_pos by lia. f_equal. lia.
Qed.

(** C5 on task 2 of [twoTasks] under [flakyOversight]. *)
Lemma errored_check_recorded_and_counted_witness :
  DispatchResult.success succeeded = true
  /\ WorkResult.success (DispatchResult.result succeeded) = true
  /\ map (fun c => AlertSystem.Alignment.status (alignment c)) (completedTasks afterBoth)
     = ["aligned"; "error"].
Proof.
  split; [reflexivity|]. split; [reflexivity|].
  destruct (@errored_check_recorded_and_counted
              twoTasks flakyOversight
              (dispatchAndMonitor twoTasks (Some flakyOversight) initial
                                  (Scenarios.task "1" []) succeeded)
              (Scenarios.task "2" []) succeeded "analysis failed"
              eq_refl eq_refl eq_refl) as [H _].
  unfold afterBoth. rewrite H. reflexivity.
Defined.

End ErroredChecks.

(** ** Shape of the execution order *)

Section OrderShape.
Import TaskGrouping GraphNotions Scenarios.

Lemma set_fresh (V : Type) (m : list (string * V)) (k : string) (v : V) :
  ~ In k (JsMap.keys m) -> JsMap.set k v m = m ++ [(k, v)].
Proof.
  induction m as [|[k' v'] m IH]; simpl; intros Hk; [reflexivity|].
  destruct (String.eqb_spec k k') as [->|Hne].
  - exfalso. apply Hk. now left.
  - rewrite IH; [reflexivity|]. intros H. apply Hk. now right.
Qed.

(** On distinct keys the first loop lists the tasks in input order. *)
Lemma setInDegree_fold_distinct (tasks : list Task) :
  forall m0 : JsMap.t jsnum,
    NoDup (JsMap.keys m0 ++ taskIds tasks) ->
    fold_left setInDegree tasks m0
    = m0 ++ map (fun t => (taskId t, Num (Z.of_nat (List.length (deps t))))) tasks.
Proof.
  induction tasks as [|t tasks IH]; intros m0 Hnd; simpl.
  - now rewrite app_nil_r.
  - unfold setInDegree at 2. rewrite set_fresh.
    + rewrite IH.
      * now rewrite <- app_assoc.
      * unfold JsMap.keys. rewrite map_app. simpl. rewrite <- app_assoc. exact Hnd.
    + intros Hin. simpl in Hnd. apply NoDup_remove_2 in Hnd. apply Hnd.
      apply in_or_app. now left.
Qed.

Lemma zeroDegree_initial (tasks : list Task) :
  zeroDegree (map (fun t => (taskId t, Num (Z.of_nat (List.length (deps t))))) tasks)
  = map taskId (filter isIndependent tasks).
Proof.
  unfold zeroDegree. induction tasks as [|t tasks IH]; simpl; [reflexivity|].
  rewrite isIndependent_deps.
  destruct (List.length (deps t)); simpl; now rewrite IH.
Qed.

(** The loop only appends: the order it returns starts with what was
    emitted so far, followed by the keys already queued. *)
Lemma processQueue_prefix (g : Graph) :
  forall fuel (m : JsMap.t jsnum) (q o r : list string),
    processQueue fuel g m q o = Some r -> exists rest, r = o ++ q ++ rest.
Proof.
  induction fuel as [|fuel IH]; intros m q o r H.
  - destruct q; [|discriminate]. inversion H. exists []. now rewrite !app_nil_r.
  - destruct q as [|c q']; simpl in H.
    + inversion H. exists []. now rewrite !app_nil_r.
    + destruct (reduceInDegree_fold (getDependentTasks c g) m q') as [_ [p [Hp _]]].
      apply IH in H. destruct H as [rest ->]. rewrite Hp.
      exists (p ++ rest). rewrite <- !app_assoc. reflexivity.
Qed.

Lemma getDependencyTasks_build (tasks : list Task) (k : string) :
  getDependencyTasks k (buildDependencyGraph tasks)
  = match lastTask tasks k with
    | Some t => deps t
    | None => []
    end.
Proof.
  unfold getDependencyTasks. rewrite buildDependencyGraph_get.
  now destruct (lastTask tasks k).
Qed.

Lemma forallb_includes (ds completed : list string) :
  forallb (fun d => includes d completed) ds = true <-> incl ds completed.
Proof.
  rewrite forallb_forall. split; intros H d Hd.
  - apply includes_In. now apply H.
  - apply includes_In. now apply H.
Qed.

(** X1: for every task list and every graph, [calculateExecutionOrder]
    returns an order; no key occurs in it twice, every key of it is the
    key of a task, and it is no longer than the task list. *)
Theorem calculateExecutionOrder_any_graph (tasks : list Task) (g : Graph) :
  exists order,
    calculateExecutionOrder tasks g = Some order
    /\ NoDup order
    /\ incl order (taskIds tasks)
    /\ List.length order <= List.length tasks.
Proof.
  destruct (calculateExecutionOrder_total tasks g) as (m & order & Heq & Hinv).
  exists order. split; [exact Heq|].
  destruct (order_NoDup_incl Hinv) as [Hnd Hincl].
  split; [exact Hnd|]. split; [exact Hincl|].
  apply queueInv_bound in Hinv. now rewrite app_nil_r in Hinv.
Qed.

(** X2: on a task list with pairwise distinct keys, whatever its
    dependencies are (cyclic or unknown ones included), the order returned
    for its own graph is topological, contains a task exactly when it
    contains all the dependencies the task declares, and every key of it
    satisfies [areDependenciesComplete] for the keys emitted before it. *)
Theorem calculateExecutionOrder_closed (tasks : list Task) :
  NoDup (taskIds tasks) ->
  exists order,
    calculateExecutionOrder tasks (buildDependencyGraph tasks) = Some order
    /\ topological tasks order
    /\ (forall t, In t tasks -> (In (taskId t) order <-> incl (deps t) order))
    /\ (forall l1 k l2, order = l1 ++ k :: l2 ->
          areDependenciesComplete k (buildDependencyGraph tasks) l1 = true).
Proof.
  intros Hkeys.
  destruct (@calculateExecutionOrder_kahn tasks Hkeys)
    as (m & order & Heq & Hnd & Hincl & Hdeg & Hiff & Htopo).
  rewrite app_nil_r in *.
  exists order. split; [exact Heq|]. split; [exact Htopo|]. split.
  - intros t Ht. rewrite (Hiff t Ht). apply remaining_zero.
  - intros l1 k l2 Horder.
    assert (Hk : In k (taskIds tasks)).
    { apply Hincl. rewrite Horder. apply in_or_app. right. now left. }
    apply in_map_iff in Hk. destruct Hk as [t [Hid Ht]].
    unfold areDependenciesComplete.
    rewrite getDependencyTasks_build, <- Hid, (lastTask_NoDup tasks t Hkeys Ht).
    apply forallb_includes. exact (Htopo l1 (taskId t) l2 t
                                     ltac:(now rewrite Hid) Ht eq_refl).
Qed.

(** X2 on [1(), 2(1, 7)], where 7 names no task. *)
Lemma calculateExecutionOrder_closed_witness :
  NoDup (taskIds unknownSecond)
  /\ exists order,
       calculateExecutionOrder unknownSecond (buildDependencyGraph unknownSecond)
       = Some order
       /\ topological unknownSecond order.
Proof.
  assert (H : NoDup (taskIds unknownSecond)).
  { repeat constructor; simpl; intuition discriminate. }
  split; [exact H|].
  destruct (@calculateExecutionOrder_closed unknownSecond H) as (order & Heq & Htopo & _).
  exists order. now split.
Defined.

(** X3: on a task list with pairwise distinct keys, and for every graph,
    the order starts with the keys of the tasks without dependencies, in
    input order; the keys that follow belong to tasks that declare a
    dependency. *)
Theorem calculateExecutionOrder_independent_first (tasks : list Task) (g : Graph) :
  NoDup (taskIds tasks) ->
  exists rest,
    calculateExecutionOrder tasks g
    = Some (map taskId (filter isIndependent tasks) ++ rest)
    /\ (forall k, In k rest ->
          exists t, In t tasks /\ taskId t = k /\ isIndependent t = false).
Proof.
  intros Hkeys.
  destruct (calculateExecutionOrder_total tasks g) as (m & order & Heq & Hinv).
  destruct (order_NoDup_incl Hinv) as [Hnd Hincl].
  pose proof Heq as Hrun. unfold calculateExecutionOrder in Hrun.
  rewrite (setInDegree_fold_distinct tasks []) in Hrun by exact Hkeys.
  simpl in Hrun. rewrite zeroDegree_initial in Hrun.
  apply processQueue_prefix in Hrun. destruct Hrun as [rest Hrest].
  simpl in Hrest. subst order.
  exists rest. split; [exact Heq|].
  intros k Hk.
  assert (Hin : In k (taskIds tasks)).
  { apply Hincl. apply in_or_app. now right. }
  apply in_map_iff in Hin. destruct Hin as [t [Hid Ht]].
  exists t. split; [exact Ht|]. split; [exact Hid|].
  destruct (isIndependent t) eqn:E; [|reflexivity].
  exfalso.
  apply NoDup_app_remove_l in Hnd as Hr.
  assert (Hp : In k (map taskId (filter isIndependent tasks))).
  { rewrite <- Hid. apply in_map. apply filter_In. now split. }
  clear Hr. revert Hnd Hp Hk. generalize (map taskId (filter isIndependent tasks)).
  intros p Hnd Hp Hk. induction p as [|a p IH]; [destruct Hp|].
  simpl in Hnd. inversion Hnd as [|? ? Hna Hnd']. subst.
  destruct Hp as [->|Hp].
  - apply Hna. apply in_or_app. now right.
  - now apply IH.
Qed.

(** X3 on [1(), 2(), 3(1)]. *)
Lemma calculateExecutionOrder_independent_first_witness :
  NoDup (taskIds twoIndependent)
  /\ exists rest,
       calculateExecutionOrder twoIndependent (buildDependencyGraph twoIndependent)
       = Some (["1"; "2"] ++ rest).
Proof.
  assert (H : NoDup (taskIds twoIndependent)).
  { repeat constructor; simpl; intuition discriminate. }
  split; [exact H|].
  destruct (@calculateExecutionOrder_independent_first
              twoIndependent (buildDependencyGraph twoIndependent) H)
    as (rest & Heq & _).
  exists rest. exact Heq.
Defined.

(** X4: [areDependenciesComplete] reads the dependencies of the last task
    filed under the key; it answers [true] for a key that names no task,
    for a task with distinct key it holds exactly when every declared
    dependency is among the completed ids, and completing more tasks never
    turns it false. *)
Theorem areDependenciesComplete_spec (tasks : list Task) (completed : list string) :
  let g := buildDependencyGraph tasks in
  (forall k, areDependenciesComplete k g completed
             = match lastTask tasks k with
               | Some t => forallb (fun d => includes d completed) (deps t)
               | None => true
               end)
  /\ (forall k, ~ In k (taskIds tasks) -> areDependenciesComplete k g completed = true)
  /\ (forall t, NoDup (taskIds tasks) -> In t tasks ->
        (areDependenciesComplete (taskId t) g completed = true
         <-> incl (deps t) completed))
  /\ (forall k completed', incl completed completed' ->
        areDependenciesComplete k g completed = true ->
        areDependenciesComplete k g completed' = true).
Proof.
  intros g.
  assert (Hget : forall k c, areDependenciesComplete k g c
             = match lastTask tasks k with
               | Some t => forallb (fun d => includes d c) (deps t)
               | None => true
               end).
  { intros k c. unfold areDependenciesComplete, g. rewrite getDependencyTasks_build.
    now destruct (lastTask tasks k). }
  split; [intros k; apply Hget|]. split; [|split].
  - intros k Hk. rewrite Hget. apply lastTask_None in Hk. now rewrite Hk.
  - intros t Hkeys Ht. rewrite Hget, (lastTask_NoDup tasks t Hkeys Ht).
    apply forallb_includes.
  - intros k completed' Hincl. rewrite !Hget.
    destruct (lastTask tasks k) as [t|]; [|reflexivity].
    rewrite !forallb_includes. intros H d Hd. apply Hincl. now apply H.
Qed.

(** X4 on the diamond: task 4 is ready once 2 and 3 are completed. *)
Lemma areDependenciesComplete_spec_witness :
  NoDup (taskIds diamond)
  /\ In (task "4" ["2"; "3"]) diamond
  /\ incl ["2"; "3"] ["1"; "2"; "3"]
  /\ areDependenciesComplete "4" (buildDependencyGraph diamond) ["1"; "2"; "3"] = true.
Proof.
  assert (H : NoDup (taskIds diamond)).
  { repeat constructor; simpl; intuition discriminate. }
  assert (Hin : In (task "4" ["2"; "3"]) diamond) by (simpl; tauto).
  assert (Hincl : incl ["2"; "3"] ["1"; "2"; "3"]).
  { intros d Hd. simpl in *. tauto. }
  split; [exact H|]. split; [exact Hin|]. split; [exact Hincl|].
  destruct (@areDependenciesComplete_spec diamond ["1"; "2"; "3"]) as (_ & _ & Hiff & _).
  apply (Hiff (task "4" ["2"; "3"]) H Hin). exact Hincl.
Defined.

(** X5: on a task list with pairwise distinct keys the two edge lists of
    the graph are converse to each other: [x] is among the dependents of
    the key [d] exactly when [d] is a key, [x] is a key and [d] is among
    the dependencies recorded for [x]. *)
Theorem dependents_converse_dependencies (tasks : list Task) (d x : string) :
  NoDup (taskIds tasks) ->
  let g := buildDependencyGraph tasks in
  In x (getDependentTasks d g)
  <-> In d (taskIds tasks) /\ In x (taskIds tasks) /\ In d (getDependencyTasks x g).
Proof.
  intros Hkeys g. unfold g. rewrite getDependentTasks_In, getDependencyTasks_build.
  split.
  - intros (Hd & t & Ht & Hid & Hdep). split; [exact Hd|]. split.
    + rewrite <- Hid. now apply in_map.
    + rewrite <- Hid, (lastTask_NoDup tasks t Hkeys Ht). exact Hdep.
  - intros (Hd & Hx & Hdep). split; [exact Hd|].
    apply in_map_iff in Hx. destruct Hx as [t [Hid Ht]].
    rewrite <- Hid, (lastTask_NoDup tasks t Hkeys Ht) in Hdep.
    exists t. now split.
Qed.

(** X5 on the diamond: 4 is a dependent of 2 and 2 a dependency of 4. *)
Lemma dependents_converse_dependencies_witness :
  NoDup (taskIds diamond)
  /\ (In "4" (getDependentTasks "2" (buildDependencyGraph diamond))
      <-> In "2" (taskIds diamond) /\ In "4" (taskIds diamond)
          /\ In "2" (getDependencyTasks "4" (buildDependencyGraph diamond))).
Proof.
  assert (H : NoDup (taskIds diamond)).
  { repeat constructor; simpl; intuition discriminate. }
  split; [exact H|].
  exact (@dependents_converse_dependencies diamond "2" "4" H).
Defined.

End OrderShape.

(** ** Sizes of the task groups *)

Section GroupSizes.
Import TaskGrouping GraphNotions Scenarios.

Lemma filter_split_Permutation (l : list Task) :
  Permutation (filter isIndependent l ++ filter isDependent l) l.
Proof.
  induction l as [|t l IH]; simpl; [constructor|].
  rewrite isIndependent_deps, isDependent_deps.
  destruct (Nat.eqb (List.length (deps t)) 0); simpl.
  - now constructor.
  - symmetry. apply Permutation_cons_app. now symmetry.
Qed.

(** X6: [groupTasksForTeams] splits the tasks into two groups without
    losing or repeating one: the two groups together are a rearrangement
    of the input, no task is in both, and the sizes add up to the task
    count.  For a non-empty input [totalTasks] is the task count and
    [parallelizableTasks] the size of the independent group (not capped,
    unlike [maxParallel]); for the empty input both are absent. *)
Theorem groupTasksForTeams_sizes (tasks : list Task) :
  let g := groupTasksForTeams tasks in
  Permutation (independent g ++ dependent g) tasks
  /\ List.length (independent g) + List.length (dependent g) = List.length tasks
  /\ (forall t, In t (independent g) -> ~ In t (dependent g))
  /\ (tasks <> [] ->
      totalTasks g = Some (List.length tasks)
      /\ parallelizableTasks g = Some (List.length (independent g))
      /\ maxParallel g <= List.length (independent g))
  /\ (tasks = [] -> totalTasks g = None /\ parallelizableTasks g = None).
Proof.
  intros g. unfold g. rewrite independent_filter, dependent_filter.
  pose proof (filter_split_Permutation tasks) as Hperm.
  split; [exact Hperm|]. split; [|split; [|split]].
  - rewrite <- length_app. now apply Permutation_length.
  - intros t Hi Hd. apply filter_In in Hi. apply filter_In in Hd.
    destruct Hi as [_ Hi]. destruct Hd as [_ Hd].
    rewrite isIndependent_deps in Hi. rewrite isDependent_deps in Hd.
    rewrite Hi in Hd. discriminate.
  - intros Hne. destruct tasks as [|t tasks]; [contradiction|].
    split; [reflexivity|]. split; [reflexivity|].
    cbn [groupTasksForTeams maxParallel]. apply Nat.le_min_l.
  - intros ->. split; reflexivity.
Qed.

(** X6 on the diamond. *)
Lemma groupTasksForTeams_sizes_witness :
  diamond <> []
  /\ totalTasks (groupTasksForTeams diamond) = Some 4
  /\ parallelizableTasks (groupTasksForTeams diamond) = Some 1.
Proof.
  assert (H : diamond <> []) by discriminate.
  split; [exact H|].
  destruct (groupTasksForTeams_sizes diamond) as (_ & _ & _ & Hne & _).
  destruct (Hne H) as (H1 & H2 & _).
  split; [exact H1|exact H2].
Defined.

End GroupSizes.

(** ** Runs of the team manager *)

Section ManagerRuns.
Import TaskGrouping GraphNotions Scenarios.
Import TeamManager RunNotions.

Lemma blockOne_fold_In (L : list string) :
  forall blocked x,
    In x (fold_left blockOne L blocked) <-> In x blocked \/ In x L.
Proof.
  induction L as [|d L IH]; intros blocked x; simpl; [tauto|].
  rewrite IH. unfold blockOne. destruct (includes d blocked) eqn:E.
  - apply includes_In in E. split; [tauto|].
    intros [H|[<-|H]]; tauto.
  - rewrite in_app_iff. simpl. tauto.
Qed.

Lemma blockOne_fold_present (L : list string) :
  forall blocked,
    (forall x, In x L -> In x blocked) -> fold_left blockOne L blocked = blocked.
Proof.
  induction L as [|d L IH]; intros blocked H; simpl; [reflexivity|].
  unfold blockOne at 2.
  assert (E : includes d blocked = true) by (apply includes_In, H; now left).
  rewrite E. apply IH. intros x Hx. apply H. now right.
Qed.

Lemma set_set_same (V : Type) (m : list (string * V)) (k : string) (v v' : V) :
  JsMap.set k v (JsMap.set k v' m) = JsMap.set k v m.
Proof.
  induction m as [|[k0 v0] m IH]; simpl.
  - now rewrite String.eqb_refl.
  - destruct (String.eqb k k0) eqn:E; simpl.
    + now rewrite String.eqb_refl.
    + now rewrite E, IH.
Qed.

Lemma handleTaskFailure_completed (tasks : list Task) (st : State) (t : Task)
    (error : string) :
  completedTasks (fst (handleTaskFailure tasks st t error)) = completedTasks st.
Proof. reflexivity. Qed.

(** What one call of [dispatchAndMonitor] does to the two lists. *)
Lemma dispatchAndMonitor_lists (planTasks : list Task) (oversight : option Oversight)
    (st : State) (e : Event) :
  let st' := dispatchAndMonitor planTasks oversight st (fst e) (snd e) in
  blockedTasks st'
  = (if failed e
     then fold_left blockOne
            (TaskGrouping.getDependentTasks (id (fst e)) (buildDependencyGraph planTasks))
            (blockedTasks st)
     else blockedTasks st)
  /\ completedTasks st'
     = (if failed e then completedTasks st
        else completedTasks st
             ++ [mkCompleted (fst e) (DispatchResult.result (snd e))
                   (runOversightCheck oversight (fst e)
                                      (DispatchResult.result (snd e)))]).
Proof.
  destruct e as [t r]. unfold failed, dispatchAndMonitor. cbn [fst snd].
  destruct (DispatchResult.success r); cbn [negb orb].
  - destruct (WorkResult.success (DispatchResult.result r)); cbn [negb].
    + split; reflexivity.
    + rewrite handleTaskFailure_blocked. split; reflexivity.
  - rewrite handleTaskFailure_blocked. split; reflexivity.
Qed.

(** The two lists after a sequence of calls from any state. *)
Lemma run_from (planTasks : list Task) (oversight : option Oversight)
    (events : list Event) :
  forall st0,
    NoDup (blockedTasks st0) ->
    let st := fold_left (fun st e =>
                           dispatchAndMonitor planTasks oversight st (fst e) (snd e))
                        events st0 in
    NoDup (blockedTasks st)
    /\ (forall x, In x (blockedTasks st) <->
          In x (blockedTasks st0)
          \/ exists e, In e events /\ failed e = true
                       /\ In (id (fst e)) (taskIds planTasks)
                       /\ dependsOn planTasks x (id (fst e)))
    /\ completedTasks st
       = completedTasks st0
         ++ map (fun e => mkCompleted (fst e) (DispatchResult.result (snd e))
                            (runOversightCheck oversight (fst e)
                                               (DispatchResult.result (snd e))))
                (filter (fun e => negb (failed e)) events).
Proof.
  induction events as [|e events IH]; intros st0 Hnd; cbn [fold_left].
  - split; [exact Hnd|]. split.
    + intros x. split; [tauto|]. intros [H|[e [[] _]]]. exact H.
    + cbn. now rewrite app_nil_r.
  - destruct (dispatchAndMonitor_lists planTasks oversight st0 e) as [Hb Hc].
    set (st1 := dispatchAndMonitor planTasks oversight st0 (fst e) (snd e)) in *.
    assert (Hnd1 : NoDup (blockedTasks st1)).
    { rewrite Hb. destruct (failed e); [|exact Hnd]. now apply blockOne_fold. }
    destruct (IH st1 Hnd1) as (H1 & H2 & H3).
    split; [exact H1|]. split.
    + intros x. rewrite H2, Hb. destruct (failed e) eqn:E.
      * rewrite blockOne_fold_In, getDependentTasks_In. split.
        -- intros [[H|[Hk Hd]]|[e' (He' & Hf & Hk & Hd)]].
           ++ now left.
           ++ right. exists e. repeat split; auto. now left.
           ++ right. exists e'. repeat split; auto. now right.
        -- intros [H|[e' ([<-|He'] & Hf & Hk & Hd)]].
           ++ left. now left.
           ++ left. right. now split.
           ++ right. exists e'. now repeat split.
      * split.
        -- intros [H|[e' (He' & Hf & Hk & Hd)]]; [now left|].
           right. exists e'. repeat split; auto. now right.
        -- intros [H|[e' ([<-|He'] & Hf & Hk & Hd)]]; [now left|congruence|].
           right. exists e'. now repeat split.
    + rewrite H3, Hc. cbn [filter]. destruct (failed e); cbn [negb map].
      * reflexivity.
      * now rewrite <- app_assoc.
Qed.

Lemma dependsOn_key (tasks : list Task) (x d : string) :
  dependsOn tasks x d -> In x (taskIds tasks).
Proof.
  intros (t & Ht & <- & _). now apply in_map.
Qed.

Lemma filter_exclusive_length (A : Type) (p q : A -> bool) (l : list A) :
  (forall a, p a = true -> q a = false) ->
  List.length (filter p l) + List.length (filter q l) <= List.length l.
Proof.
  intros H. induction l as [|a l IH]; simpl; [lia|].
  destruct (p a) eqn:Ep.
  - rewrite (H a Ep). simpl. lia.
  - destruct (q a); simpl; lia.
Qed.

(** X7: after any sequence of calls of [dispatchAndMonitor] on a new
    manager, the completed list holds exactly the calls whose dispatch and
    work both succeeded, in order, each with the verdict of the oversight
    check; the blocked list holds no id twice and holds exactly the direct
    dependents of the tasks whose call failed (and whose id is a key of
    the plan), all of them keys of plan tasks. *)
Theorem run_completed_and_blocked (planTasks : list Task)
    (oversight : option Oversight) (events : list Event) :
  let st := run planTasks oversight events in
  completedTasks st
  = map (fun e => mkCompleted (fst e) (DispatchResult.result (snd e))
                    (runOversightCheck oversight (fst e)
                                       (DispatchResult.result (snd e))))
        (filter (fun e => negb (failed e)) events)
  /\ NoDup (blockedTasks st)
  /\ (forall x, In x (blockedTasks st) <->
        exists e, In e events /\ failed e = true
                  /\ In (id (fst e)) (taskIds planTasks)
                  /\ dependsOn planTasks x (id (fst e)))
  /\ incl (blockedTasks st) (taskIds planTasks).
Proof.
  intros st. unfold st, run.
  destruct (@run_from planTasks oversight events initial ltac:(constructor))
    as (H1 & H2 & H3).
  assert (Hiff : forall x,
            In x (blockedTasks
                    (fold_left (fun st e =>
                        dispatchAndMonitor planTasks oversight st (fst e) (snd e))
                      events initial)) <->
            exists e, In e events /\ failed e = true
                      /\ In (id (fst e)) (taskIds planTasks)
                      /\ dependsOn planTasks x (id (fst e))).
  { intros x. rewrite H2. cbn [initial blockedTasks In]. tauto. }
  split; [exact H3|]. split; [exact H1|]. split; [exact Hiff|].
  intros x Hx. apply Hiff in Hx. destruct Hx as (e & _ & _ & _ & Hd).
  exact (dependsOn_key Hd).
Qed.

(** X7 on the diamond: when the dispatch of task 1 fails, task 2 is
    blocked. *)
Lemma run_completed_and_blocked_witness :
  In "2" (blockedTasks
            (run diamond None
                 [(Scenarios.task "1" [],
                   DispatchResult.mk false (WorkResult.mk false None None None "")
                                     "no teammate")])).
Proof.
  destruct (@run_completed_and_blocked diamond None
              [(Scenarios.task "1" [],
                DispatchResult.mk false (WorkResult.mk false None None None "")
                                  "no teammate")]) as (_ & _ & Hiff & _).
  apply Hiff. eexists. split; [left; reflexivity|]. split; [reflexivity|].
  split; [simpl; tauto|].
  exists (Scenarios.task "2" ["1"]). simpl. tauto.
Defined.

(** X8: handling the same failure a second time changes nothing: the
    state and the returned object are those of the first call. *)
Theorem handleTaskFailure_idempotent (planTasks : list Task) (st : State)
    (t : Task) (error : string) :
  handleTaskFailure planTasks (fst (handleTaskFailure planTasks st t error)) t error
  = handleTaskFailure planTasks st t error.
Proof.
  unfold handleTaskFailure. cbn [fst blockedTasks completedTasks runningTasks taskResults].
  rewrite set_set_same.
  set (L := TeamManager.getDependentTasks (id t)
              (dependencyGraph (groupTasksForTeams planTasks))).
  destruct (Nat.ltb 0 (List.length L)); [|reflexivity].
  rewrite (@blockOne_fold_present L (fold_left blockOne L (blockedTasks st))).
  - reflexivity.
  - intros x Hx. apply blockOne_fold_In. now right.
Qed.

(** X9: in the summary of any run, the blocked count never exceeds the
    task count of the plan, the aligned and misaligned counts together
    never exceed the completed count, and every call is either counted as
    completed or failed; when the calls are for pairwise distinct tasks of
    the plan the completed count is at most the task count.  The
    completion rate of an empty plan is 0 and so is the alignment rate
    when nothing completed. *)
Theorem generateSummary_of_run (planTasks : list Task)
    (oversight : option Oversight) (events : list Event) :
  let s := generateSummary planTasks (run planTasks oversight events) in
  Summary.totalTasks s = List.length planTasks
  /\ Summary.blockedTasks s <= Summary.totalTasks s
  /\ Summary.alignedTasks s + Summary.misalignedTasks s <= Summary.completedTasks s
  /\ Summary.completedTasks s + List.length (filter failed events)
     = List.length events
  /\ (NoDup (map (fun e => TaskGrouping.taskId (fst e)) events) ->
      incl (map (fun e => TaskGrouping.taskId (fst e)) events) (taskIds planTasks) ->
      Summary.completedTasks s <= Summary.totalTasks s)
  /\ (planTasks = [] -> Summary.completionRate s = Num 0)
  /\ (Summary.completedTasks s = 0 -> Summary.alignmentRate s = Num 0).
Proof.
  intros s.
  destruct (@run_from planTasks oversight events initial ltac:(constructor))
    as (Hnd & Hiff & Hc).
  fold (run planTasks oversight events) in Hnd, Hiff, Hc.
  assert (Hlen : List.length (completedTasks (run planTasks oversight events))
                 + List.length (filter failed events) = List.length events).
  { rewrite Hc. cbn [initial completedTasks app]. rewrite length_map.
    clear. induction events as [|e events IH]; simpl; [reflexivity|].
    destruct (failed e); simpl; lia. }
  unfold s, generateSummary.
  cbn [Summary.totalTasks Summary.blockedTasks Summary.alignedTasks
       Summary.misalignedTasks Summary.completedTasks Summary.completionRate
       Summary.alignmentRate].
  split; [reflexivity|]. split; [|split; [|split; [|split; [|split]]]].
  - rewrite <- (length_map TaskGrouping.taskId planTasks). apply NoDup_incl_length; [exact Hnd|].
    intros x Hx. apply Hiff in Hx. cbn [initial blockedTasks In] in Hx.
    destruct Hx as [[]|(e & _ & _ & _ & Hd)]. exact (dependsOn_key Hd).
  - apply filter_exclusive_length. intros c. unfold completedWith.
    destruct (String.eqb_spec (AlertSystem.Alignment.status (alignment c)) "aligned")
      as [->|]; [reflexivity|discriminate].
  - exact Hlen.
  - intros Hkeys Hincl.
    pose proof (NoDup_incl_length Hkeys Hincl) as H.
    unfold taskIds in H. rewrite !length_map in H. unfold Event in *. lia.
  - intros ->. reflexivity.
  - intros ->. reflexivity.
Qed.

(** X9 on a run of the two tasks of [twoTasks], both completed. *)
Lemma generateSummary_of_run_witness :
  NoDup (map (fun e : Event => TaskGrouping.taskId (fst e))
             [(Scenarios.task "1" [], ReportNotions.succeeded);
              (Scenarios.task "2" [], ReportNotions.succeeded)])
  /\ Summary.completedTasks
       (generateSummary ReportNotions.twoTasks
          (run ReportNotions.twoTasks None
               [(Scenarios.task "1" [], ReportNotions.succeeded);
                (Scenarios.task "2" [], ReportNotions.succeeded)]))
     <= 2.
Proof.
  assert (H : NoDup (map (fun e : Event => TaskGrouping.taskId (fst e))
                         [(Scenarios.task "1" [], ReportNotions.succeeded);
                          (Scenarios.task "2" [], ReportNotions.succeeded)])).
  { repeat constructor; simpl; intuition discriminate. }
  split; [exact H|].
  destruct (@generateSummary_of_run ReportNotions.twoTasks None
              [(Scenarios.task "1" [], ReportNotions.succeeded);
               (Scenarios.task "2" [], ReportNotions.succeeded)])
    as (_ & _ & _ & _ & Hle & _).
  apply (Hle H). intros x Hx. exact Hx.
Defined.

End ManagerRuns.

(** ** The category checkers *)

Section CategoryCheckers.
Import JsString Checkers CheckNotions IssueNotions.

Lemma pushIf_critical (c : bool) (i : Issue) (issues : list Issue) :
  existsb isCritical (pushIf c i issues)
  = existsb isCritical issues || (c && isCritical i).
Proof.
  unfold pushIf. destruct c; simpl.
  - rewrite existsb_app. simpl. now rewrite orb_false_r.
  - now rewrite orb_false_r.
Qed.

Lemma pushIf_length (c : bool) (i : Issue) (issues : list Issue) :
  List.length (pushIf c i issues) <= S (List.length issues).
Proof.
  unfold pushIf. destruct c; [rewrite length_app; simpl|]; lia.
Qed.

Lemma pushIf_In (c : bool) (i x : Issue) (issues : list Issue) :
  In x (pushIf c i issues) -> In x issues \/ (c = true /\ x = i).
Proof.
  unfold pushIf. destruct c; [|now left].
  rewrite in_app_iff. simpl. intuition.
Qed.

(** X10: the architecture and the style checker report nothing, whatever
    the code, the tests and the requirement are: the analyses they rely on
    are constant placeholders on which none of their rules fires. *)
Theorem placeholder_checkers_clean (code : Code) (tests : option Tests)
    (requirement : string) :
  ArchitectureChecker_check code tests requirement = clean
  /\ StyleChecker_check code tests requirement = clean.
Proof.
  unfold ArchitectureChecker_check, StyleChecker_check.
  rewrite architectureIssues_nil, styleIssues_nil. split; reflexivity.
Qed.

(** X11: the testing checker flags its result critical exactly when the
    test results report a positive number of failed tests, and passes
    otherwise, whatever the missing kinds of tests and the coverage are;
    it returns the reported coverage (0 when absent), reports at most four
    issues, its only critical issue is the one on failed tests, and absent
    test results are read as empty ones. *)
Theorem TestingChecker_check_policy (code : Code) (tests : option Tests)
    (requirement : string) :
  let r := TestingChecker_check code tests requirement in
  let results := match tests with Some t => t | None => noTests end in
  CheckResult.critical r = Z.ltb 0 (orZero (failed results))
  /\ CheckResult.passed r = negb (Z.ltb 0 (orZero (failed results)))
  /\ CheckResult.coverage r = Some (orZero (coverage results))
  /\ List.length (CheckResult.issues r) <= 4
  /\ (forall i, In i (CheckResult.issues r) -> isCritical i = true ->
        i = mkIssue (show_Z (orZero (failed results)) ++ " test(s) failed")%string
                    (Some Critical) None)
  /\ TestingChecker_check code None requirement
     = TestingChecker_check code (Some noTests) requirement.
Proof.
  intros r results. unfold r, TestingChecker_check.
  cbn [CheckResult.critical CheckResult.passed CheckResult.coverage CheckResult.issues].
  fold results. unfold testingIssues. fold results.
  set (requirements := map trim (split "+" (toLowerCase requirement))).
  set (issues1 :=
         if mem "unit" requirements
         then if isZero (unitTests results)
              then [mkIssue "No unit tests found" (Some Warning) None]
              else if Z.ltb (orZero (coverage results)) 80
                   then [mkIssue ("Unit test coverage "
                                  ++ show_Z (orZero (coverage results))
                                  ++ "% (target: 80%)")%string (Some Info) None]
                   else []
         else []).
  assert (H1 : existsb isCritical issues1 = false
               /\ List.length issues1 <= 1
               /\ forall i, In i issues1 -> isCritical i = false).
  { unfold issues1.
    destruct (mem "unit" requirements), (isZero (unitTests results)),
      (Z.ltb (orZero (coverage results)) 80); cbn;
      (split; [reflexivity|split; [lia|]]); intros i Hi;
      intuition (subst; reflexivity). }
  destruct H1 as (Hc1 & Hl1 & Hi1).
  assert (Hcrit : existsb isCritical
            (pushIf (Z.ltb 0 (orZero (failed results)))
               (mkIssue (show_Z (orZero (failed results)) ++ " test(s) failed")%string
                        (Some Critical) None)
               (pushIf (mem "e2e" requirements && isZero (e2eTests results))
                  (mkIssue "No E2E tests found" (Some Info) None)
                  (pushIf (mem "integration" requirements
                           && isZero (integrationTests results))
                     (mkIssue "No integration tests found" (Some Warning) None)
                     issues1)))
          = Z.ltb 0 (orZero (failed results))).
  { rewrite !pushIf_critical, Hc1. cbn [isCritical severity].
    now rewrite !andb_false_r, andb_true_r. }
  split; [exact Hcrit|]. split; [now rewrite Hcrit|]. split; [reflexivity|].
  split; [|split; [|reflexivity]].
  - eapply Nat.le_trans; [apply pushIf_length|]. apply le_n_S.
    eapply Nat.le_trans; [apply pushIf_length|]. apply le_n_S.
    eapply Nat.le_trans; [apply pushIf_length|]. apply le_n_S. exact Hl1.
  - intros i Hi Hcr.
    apply pushIf_In in Hi. destruct Hi as [Hi|[_ ->]]; [|reflexivity].
    apply pushIf_In in Hi. destruct Hi as [Hi|[_ ->]]; [|discriminate Hcr].
    apply pushIf_In in Hi. destruct Hi as [Hi|[_ ->]]; [|discriminate Hcr].
    rewrite (Hi1 i Hi) in Hcr. discriminate.
Qed.

(** X11 on test results with two failed tests. *)
Lemma TestingChecker_check_policy_witness :
  CheckResult.critical
    (TestingChecker_check []
       (Some (mkTests (Some 90%Z) (Some 12%Z) None None (Some 2%Z) None None)) "unit")
  = true.
Proof.
  destruct (TestingChecker_check_policy []
              (Some (mkTests (Some 90%Z) (Some 12%Z) None None (Some 2%Z) None None))
              "unit") as [H _].
  rewrite H. reflexivity.
Defined.

(** X12: the security checker flags its result critical exactly when the
    security results report hardcoded secrets or an SQL injection risk,
    and passes otherwise: an XSS risk or a missing JWT or bcrypt
    implementation alone never fails the category.  It reports at most
    five issues, and with absent test results only the two requirement
    warnings can appear. *)
Theorem SecurityChecker_check_policy (code : Code) (tests : option Tests)
    (requirement : string) :
  let r := SecurityChecker_check code tests requirement in
  let results := securityResultsOf tests in
  CheckResult.critical r = hardcodedSecrets results || sqlInjectionRisk results
  /\ CheckResult.passed r = negb (hardcodedSecrets results || sqlInjectionRisk results)
  /\ CheckResult.coverage r = None
  /\ List.length (CheckResult.issues r) <= 5
  /\ CheckResult.issues (SecurityChecker_check code None requirement)
     = (if includes "jwt" (toLowerCase requirement)
        then [mkIssue "JWT authentication not implemented" (Some Warning) None]
        else [])
       ++ (if includes "bcrypt" (toLowerCase requirement)
           then [mkIssue "bcrypt hashing not used for passwords" (Some Warning) None]
           else []).
Proof.
  intros r results. unfold r, SecurityChecker_check.
  cbn [CheckResult.critical CheckResult.passed CheckResult.coverage CheckResult.issues].
  unfold securityIssues. fold results.
  assert (Hcrit : forall c4 c5,
            existsb isCritical
              (pushIf c5 (mkIssue "bcrypt hashing not used for passwords"
                                  (Some Warning) None)
                 (pushIf c4 (mkIssue "JWT authentication not implemented"
                                     (Some Warning) None)
                    (pushIf (xssRisk results)
                       (mkIssue "XSS vulnerability risk detected" (Some Warning) None)
                       (pushIf (sqlInjectionRisk results)
                          (mkIssue "SQL injection vulnerability detected"
                                   (Some Critical) None)
                          (pushIf (hardcodedSecrets results)
                             (mkIssue "Hardcoded secrets detected" (Some Critical)
                                      (secretLocations results)) [])))))
            = hardcodedSecrets results || sqlInjectionRisk results).
  { intros c4 c5. rewrite !pushIf_critical. cbn [isCritical severity existsb].
    now rewrite !andb_false_r, !andb_true_r, !orb_false_r. }
  split; [apply Hcrit|]. split; [now rewrite Hcrit|]. split; [reflexivity|]. split.
  - eapply Nat.le_trans; [apply pushIf_length|]. apply le_n_S.
    eapply Nat.le_trans; [apply pushIf_length|]. apply le_n_S.
    eapply Nat.le_trans; [apply pushIf_length|]. apply le_n_S.
    eapply Nat.le_trans; [apply pushIf_length|]. apply le_n_S.
    eapply Nat.le_trans; [apply pushIf_length|]. simpl. lia.
  - unfold securityResultsOf, noSecurity, pushIf.
    cbn [hardcodedSecrets sqlInjectionRisk xssRisk usesJWT usesBcrypt negb].
    rewrite !andb_true_r.
    destruct (includes "jwt" (toLowerCase requirement)),
      (includes "bcrypt" (toLowerCase requirement)); reflexivity.
Qed.

End CategoryCheckers.

(** ** The combined issue list *)

Section CombinedIssues.
Import Checkers CheckNotions IssueNotions.

Lemma combineStep_issues (results : JsMap.t CheckResult.t) :
  forall acc : list AlignmentIssue.t * bool,
    fst (fold_left combineStep results acc) = fst acc ++ flat_map contribution results.
Proof.
  induction results as [|e results IH]; intros acc; cbn [fold_left flat_map].
  - now rewrite app_nil_r.
  - rewrite IH. unfold combineStep, contribution.
    destruct (CheckResult.passed (snd e)); cbn [fst app]; [reflexivity|].
    now rewrite <- app_assoc.
Qed.

(** A property of every result a checker can return holds of every
    entry of the results of [checkAll]. *)
Lemma runCheckers_Forall (P : string * CheckResult.t -> Prop)
    (code : Code) (tests : option Tests) (goalTags : JsMap.t string) :
  Forall (fun entry : string * Checker =>
            forall requirement, P (fst entry, snd entry code tests requirement))
         checkers ->
  Forall P (runCheckers code tests goalTags).
Proof.
  intros HP. unfold runCheckers.
  assert (H : forall acc : JsMap.t CheckResult.t,
             Forall P acc ->
             Forall P
               (fold_left
                  (fun results (entry : string * Checker) =>
                     let goalValue := JsMap.get (fst entry) goalTags in
                     match goalValue with
                     | Some v =>
                         if isInvoked goalValue
                         then JsMap.set (fst entry) (snd entry code tests v) results
                         else results
                     | None => results
                     end)
                  checkers acc)).
  { induction HP as [|entry cs He _ IH]; intros acc Hacc; simpl; [exact Hacc|].
    apply IH.
    destruct (JsMap.get (fst entry) goalTags) as [v|]; [|exact Hacc].
    destruct (isInvoked (Some v)); [|exact Hacc].
    apply set_Forall; [exact Hacc|apply He]. }
  apply H. constructor.
Qed.

(** Only the testing and the security category can fail. *)
Lemma failing_categories (code : Code) (tests : option Tests)
    (goalTags : JsMap.t string) :
  Forall (fun e : string * CheckResult.t =>
            CheckResult.passed (snd e) = false ->
            fst e = "testing" \/ fst e = "security")
         (runCheckers code tests goalTags).
Proof.
  apply runCheckers_Forall. unfold checkers.
  repeat (apply Forall_cons); [| | | | |apply Forall_nil];
    intros requirement; cbn [fst snd].
  - unfold ArchitectureChecker_check. rewrite architectureIssues_nil. discriminate.
  - unfold StyleChecker_check. rewrite styleIssues_nil. discriminate.
  - now left.
  - unfold PerformanceChecker_check. rewrite performanceIssues_nil. discriminate.
  - now right.
Qed.

(** The invoked categories are listed in the order of the checker
    table, whatever the order of the goal tags is. *)
Lemma runCheckers_keys (code : Code) (tests : option Tests)
    (goalTags : JsMap.t string) :
  JsMap.keys (runCheckers code tests goalTags)
  = filter (fun key => isInvoked (JsMap.get key goalTags)) (JsMap.keys checkers).
Proof.
  unfold runCheckers, checkers.
  cbn [fold_left fst snd JsMap.keys map filter].
  destruct (JsMap.get "architecture" goalTags) as [v1|];
    [destruct (isInvoked (Some v1))|change (isInvoked None) with false];
    (destruct (JsMap.get "style" goalTags) as [v2|];
     [destruct (isInvoked (Some v2))|change (isInvoked None) with false]);
    (destruct (JsMap.get "testing" goalTags) as [v3|];
     [destruct (isInvoked (Some v3))|change (isInvoked None) with false]);
    (destruct (JsMap.get "performance" goalTags) as [v4|];
     [destruct (isInvoked (Some v4))|change (isInvoked None) with false]);
    (destruct (JsMap.get "security" goalTags) as [v5|];
     [destruct (isInvoked (Some v5))|change (isInvoked None) with false]);
    reflexivity.
Qed.

(** X13: the issue list of the result of [checkAll] is the concatenation,
    over the invoked categories in the order of the checker table, of the
    tagged issues of the categories that report a critical issue; the
    issues of a category that reports warnings or info only are left out,
    also when another category fails.  On this code every listed issue
    belongs to the testing or the security category, and a result that
    does not pass is critical. *)
Theorem checkAll_issues (code : Code) (tests : option Tests)
    (goalTags : JsMap.t string) :
  let r := checkAll code tests goalTags in
  AlignmentResult.issues r
  = flat_map (fun e => if reportsCritical (snd e)
                       then map (tagged (fst e)) (CheckResult.issues (snd e))
                       else [])
             (AlignmentResult.details r)
  /\ JsMap.keys (AlignmentResult.details r)
     = filter (fun key => isInvoked (JsMap.get key goalTags)) (JsMap.keys checkers)
  /\ (forall i, In i (AlignmentResult.issues r) ->
        AlignmentIssue.category i = "testing"
        \/ AlignmentIssue.category i = "security")
  /\ (AlignmentResult.passed r = false -> AlignmentResult.critical r = true)
  /\ (AlignmentResult.passed r = true -> AlignmentResult.issues r = []).
Proof.
  intros r. unfold r, checkAll, combineResults.
  cbn [AlignmentResult.issues AlignmentResult.details AlignmentResult.passed
       AlignmentResult.critical].
  set (invoked := runCheckers code tests goalTags).
  pose proof (runCheckers_policy code tests goalTags) as Hpol. fold invoked in Hpol.
  pose proof (failing_categories code tests goalTags) as Hfail. fold invoked in Hfail.
  rewrite (combineStep_issues invoked ([], false)). cbn [fst app].
  assert (Hflat : flat_map contribution invoked
                  = flat_map (fun e => if reportsCritical (snd e)
                                       then map (tagged (fst e))
                                                (CheckResult.issues (snd e))
                                       else []) invoked).
  { clear Hfail. induction Hpol as [|e l [_ Hp] _ IH]; simpl; [reflexivity|].
    rewrite IH. unfold contribution at 1. rewrite Hp.
    now destruct (reportsCritical (snd e)). }
  split; [exact Hflat|]. split; [apply runCheckers_keys|]. split; [|split].
  - intros i Hi. apply in_flat_map in Hi. destruct Hi as [e [He Hi]].
    rewrite Forall_forall in Hfail. specialize (Hfail e He).
    unfold contribution in Hi. destruct (CheckResult.passed (snd e)); [destruct Hi|].
    apply in_map_iff in Hi. destruct Hi as [x [<- _]]. cbn. now apply Hfail.
  - destruct (combineResults_fold invoked ([], false)) as [H1 H2].
    destruct (combineResults_policy Hpol) as [H3 H4].
    rewrite (combineStep_issues invoked ([], false)) in H2. cbn [fst snd app] in *.
    rewrite H2, H1, H3, H4. cbn [List.length Nat.eqb andb orb].
    intros H. apply negb_false_iff in H.
    clear - H Hpol. induction Hpol as [|e l [Hc _] _ IH]; simpl in *; [discriminate|].
    rewrite Hc. destruct (reportsCritical (snd e)); [reflexivity|]. now apply IH.
  - intros H. apply Nat.eqb_eq in H.
    now destruct (flat_map contribution invoked).
Qed.

(** X13 on failing tests checked together with a JWT requirement that
    is not met: the aggregate lists the testing issues only. *)
Lemma checkAll_issues_witness :
  AlignmentResult.passed
    (checkAll [] (Some (mkTests None None None None (Some 1%Z) None None))
              [("testing", "unit"); ("security", "jwt")]) = false
  /\ AlignmentResult.critical
       (checkAll [] (Some (mkTests None None None None (Some 1%Z) None None))
                 [("testing", "unit"); ("security", "jwt")]) = true.
Proof.
  assert (H : AlignmentResult.passed
                (checkAll [] (Some (mkTests None None None None (Some 1%Z) None None))
                          [("testing", "unit"); ("security", "jwt")]) = false)
    by reflexivity.
  split; [exact H|].
  destruct (checkAll_issues [] (Some (mkTests None None None None (Some 1%Z) None None))
              [("testing", "unit"); ("security", "jwt")]) as (_ & _ & _ & Hc & _).
  exact (Hc H).
Defined.

End CombinedIssues.

(** ** Goal tags *)

Section GoalTagObjects.
Import JsString Checkers CheckNotions GoalTags.

(** X14: when [checkAll] is given a [GoalTags] object, the style checker
    is never invoked, because the object files the style under
    [codeStyle] while the checker table has it under [style]: the result
    has no style entry, holds at most the architecture, testing,
    performance and security categories, and does not depend on the
    [codeStyle] and [userExperience] properties.  For the default goal
    tags only the testing checker runs. *)
Theorem checkAll_goalTags_object (code : Code) (tests : option Tests)
    (tags : GoalTags.t) :
  let r := checkAll code tests (properties tags) in
  JsMap.get "style" (AlignmentResult.details r) = None
  /\ incl (JsMap.keys (AlignmentResult.details r))
          ["architecture"; "testing"; "performance"; "security"]
  /\ (forall style ux,
        checkAll code tests
          (properties (GoalTags.mk (architecture tags) style (testing tags)
                                   (security tags) (performance tags) ux))
        = r)
  /\ checkAll code tests (properties getDefaultGoalTags)
     = combineResults [("testing", TestingChecker_check code tests "unit")].
Proof.
  intros r. unfold r. clear r.
  destruct tags as [a s t sec p u].
  split; [|split; [|split]].
  - unfold checkAll, combineResults. cbn [AlignmentResult.details].
    rewrite runCheckers_get. reflexivity.
  - unfold checkAll, combineResults. cbn [AlignmentResult.details].
    unfold runCheckers, checkers, properties.
    cbn [fold_left fst snd JsMap.get String.eqb Ascii.eqb Bool.eqb
         architecture codeStyle testing security performance userExperience].
    destruct (isInvoked (Some a)), (isInvoked (Some t)), (isInvoked (Some p)),
      (isInvoked (Some sec));
      cbn [JsMap.set JsMap.keys map fst String.eqb Ascii.eqb Bool.eqb];
      intros k Hk; simpl in Hk |- *; tauto.
  - intros style ux. reflexivity.
  - reflexivity.
Qed.

(** X15: [validateGoalTags] accepts the tags exactly when the
    architecture, the code style and the testing strategy are each one of
    the listed values; it reports one error per property that is not, and
    never looks at the security, performance and user-experience
    properties.  The default goal tags are valid. *)
Theorem validateGoalTags_spec (tags : GoalTags.t) :
  let v := validateGoalTags tags in
  Validation.valid v
  = mem (architecture tags) validArchitectures
    && mem (codeStyle tags) validStyles
    && mem (testing tags) validTesting
  /\ List.length (Validation.errors v)
     = (if mem (architecture tags) validArchitectures then 0 else 1)
       + (if mem (codeStyle tags) validStyles then 0 else 1)
       + (if mem (testing tags) validTesting then 0 else 1)
  /\ (Validation.valid v = true <-> Validation.errors v = [])
  /\ (forall sec perf ux,
        validateGoalTags (GoalTags.mk (architecture tags) (codeStyle tags)
                                      (testing tags) sec perf ux) = v)
  /\ validateGoalTags getDefaultGoalTags = Validation.mk true [].
Proof.
  intros v.
  assert (Hsame : forall sec perf ux,
            validateGoalTags (GoalTags.mk (architecture tags) (codeStyle tags)
                                          (testing tags) sec perf ux) = v)
    by (intros sec perf ux; reflexivity).
  assert (Hrest : Validation.valid v
            = mem (architecture tags) validArchitectures
              && mem (codeStyle tags) validStyles
              && mem (testing tags) validTesting
            /\ List.length (Validation.errors v)
               = (if mem (architecture tags) validArchitectures then 0 else 1)
                 + (if mem (codeStyle tags) validStyles then 0 else 1)
                 + (if mem (testing tags) validTesting then 0 else 1)
            /\ (Validation.valid v = true <-> Validation.errors v = [])).
  { unfold v, validateGoalTags, pushInvalid.
    cbn [Validation.valid Validation.errors].
    destruct (mem (architecture tags) validArchitectures),
      (mem (codeStyle tags) validStyles), (mem (testing tags) validTesting);
      cbn [app List.length Nat.eqb andb Nat.add];
      (split; [reflexivity|]); (split; [reflexivity|]);
      split; intros H; (discriminate H || reflexivity). }
  destruct Hrest as (H1 & H2 & H3).
  split; [exact H1|]. split; [exact H2|]. split; [exact H3|].
  split; [exact Hsame|reflexivity].
Qed.

(** X15 on the default goal tags. *)
Lemma validateGoalTags_spec_witness :
  Validation.errors (validateGoalTags getDefaultGoalTags) = []
  /\ Validation.valid (validateGoalTags getDefaultGoalTags) = true.
Proof.
  assert (H : Validation.errors (validateGoalTags getDefaultGoalTags) = [])
    by reflexivity.
  split; [exact H|].
  destruct (validateGoalTags_spec getDefaultGoalTags) as (_ & _ & Hiff & _).
  apply Hiff. exact H.
Defined.

(** X16: [formatGoalTags] always starts with the header line and adds
    one line for each of architecture, code style, testing, security and
    performance that differs from its default, in that order; the
    user-experience property is never printed.  The output is the header
    alone exactly when the five properties have their default values. *)
Theorem formatGoalTags_lines (tags : GoalTags.t) :
  (exists rest,
      goalLines tags = "**Goal Tags:**" :: rest
      /\ List.length rest
         = (if String.eqb (architecture tags) "standard" then 0 else 1)
           + (if String.eqb (codeStyle tags) "standard" then 0 else 1)
           + (if String.eqb (testing tags) "unit" then 0 else 1)
           + (if String.eqb (security tags) "none" then 0 else 1)
           + (if String.eqb (performance tags) "none" then 0 else 1))
  /\ formatGoalTags tags = Js.join newline (goalLines tags)
  /\ (goalLines tags = ["**Goal Tags:**"]
      <-> architecture tags = "standard" /\ codeStyle tags = "standard"
          /\ testing tags = "unit" /\ security tags = "none"
          /\ performance tags = "none")
  /\ (forall ux,
        formatGoalTags (GoalTags.mk (architecture tags) (codeStyle tags)
                                    (testing tags) (security tags)
                                    (performance tags) ux)
        = formatGoalTags tags)
  /\ formatGoalTags getDefaultGoalTags = "**Goal Tags:**".
Proof.
  unfold formatGoalTags, goalLines, pushUnless.
  destruct tags as [a s t sec p u].
  cbn [architecture codeStyle testing security performance].
  split; [|split; [reflexivity|split; [|split; [reflexivity|reflexivity]]]].
  - destruct (String.eqb a "standard"), (String.eqb s "standard"),
      (String.eqb t "unit"), (String.eqb sec "none"), (String.eqb p "none");
      cbn [app]; eexists; (split; [reflexivity|reflexivity]).
  - destruct (String.eqb_spec a "standard"), (String.eqb_spec s "standard"),
      (String.eqb_spec t "unit"), (String.eqb_spec sec "none"),
      (String.eqb_spec p "none"); cbn [app];
      (split; [intros H; try discriminate H; now repeat split
              |intros (? & ? & ? & ? & ?); try contradiction; reflexivity]).
Qed.

(** X16 on the default goal tags. *)
Lemma formatGoalTags_lines_witness :
  goalLines getDefaultGoalTags = ["**Goal Tags:**"].
Proof.
  destruct (formatGoalTags_lines getDefaultGoalTags) as (_ & _ & Hiff & _).
  apply Hiff. repeat split.
Defined.

End GoalTagObjects.

(** ** Mode detection *)

Section ModeDetection.
Import DetectMode.

(** X17: [shouldUseTeamsMode] returns the detected mode whether
    [forceTeams] is set or not: the option has no effect.  The answer is
    "agent-teams" exactly when the environment variable is "1" and the
    API function exists, and "subagent" otherwise. *)
Theorem shouldUseTeamsMode_ignores_forceTeams (env : option string)
    (hasApi forceTeams : bool) :
  shouldUseTeamsMode env hasApi forceTeams = mode (detectAgentTeamsMode env hasApi)
  /\ shouldUseTeamsMode env hasApi forceTeams = shouldUseTeamsMode env hasApi false
  /\ (shouldUseTeamsMode env hasApi forceTeams = "agent-teams"
      <-> env = Some "1" /\ hasApi = true)
  /\ (shouldUseTeamsMode env hasApi forceTeams <> "agent-teams"
      -> shouldUseTeamsMode env hasApi forceTeams = "subagent").
Proof.
  unfold shouldUseTeamsMode, detectAgentTeamsMode. cbn [enabled mode].
  destruct forceTeams; cbn [negb];
    (destruct env as [v|]; [destruct (String.eqb_spec v "1") as [->|Hv]|]);
    destruct hasApi; cbn [andb];
    (split; [reflexivity|]); (split; [reflexivity|]);
    (split; [split; [intros H; try discriminate H; now split
                    |intros [H1 H2]; try discriminate; try congruence]
            |intros H; try reflexivity; now contradiction H]).
Qed.

(** X17 with the variable set and the API present, [forceTeams] set. *)
Lemma shouldUseTeamsMode_ignores_forceTeams_witness :
  shouldUseTeamsMode (Some "1") true true = "agent-teams".
Proof.
  destruct (shouldUseTeamsMode_ignores_forceTeams (Some "1") true true)
    as (_ & _ & Hiff & _).
  apply Hiff. split; reflexivity.
Defined.

End ModeDetection.

(** ** Counts of the milestone report *)

Section MilestoneCounts.
Import AlertSystem ReportNotions.


Lemma filter_three_length (A : Type) (p q r : A -> bool) (l : list A) :
  (forall a, (if p a then 1 else 0) + (if q a then 1 else 0)
             + (if r a then 1 else 0) <= 1) ->
  List.length (filter p l) + List.length (filter q l) + List.length (filter r l)
  <= List.length l.
Proof.
  intros H. induction l as [|a l IH]; simpl; [lia|].
  specialize (H a). destruct (p a), (q a), (r a); simpl in *; lia.
Qed.





End MilestoneCounts.

(** ** The teammate table of the dispatcher *)

Section TeammateTable.
Import Dispatcher DispatchNotions.

Lemma pick_fold_keep (l : list (nat * Teammate)) (acc : option nat * nat) :
  (forall e, In e l -> isEligible (snd e) = true ->
             belowMin (taskCount (snd e)) (fst acc) = false) ->
  fold_left pick l acc = acc.
Proof.
  induction l as [|e l IH]; intros H; cbn [fold_left]; [reflexivity|].
  assert (He : pick acc e = acc).
  { unfold pick. destruct (isEligible (snd e)) eqn:E; [|reflexivity].
    rewrite (H e (or_introl eq_refl) E). reflexivity. }
  rewrite He. apply IH. intros e' He' Hel. apply H; [now right|exact Hel].
Qed.

Lemma pick_fold_min (l : list (nat * Teammate)) :
  forall acc : option nat * nat,
    fst (fold_left pick l acc) = fst acc
    \/ exists e, In e l /\ isEligible (snd e) = true
                 /\ fst (fold_left pick l acc) = Some (taskCount (snd e)).
Proof.
  induction l as [|e l IH]; intros acc; cbn [fold_left]; [now left|].
  destruct (IH (pick acc e)) as [H|[e' (He' & Hel & H)]].
  - rewrite H. unfold pick. destruct (isEligible (snd e)) eqn:E; [|now left].
    destruct (belowMin (taskCount (snd e)) (fst acc)); [|now left].
    right. exists e. split; [now left|]. split; [exact E|reflexivity].
  - right. exists e'. split; [now right|]. now split.
Qed.

Lemma pick_fold_found (l : list (nat * Teammate)) :
  forall acc : option nat * nat,
    snd (fold_left pick l acc) = snd acc
    \/ exists t, In (snd (fold_left pick l acc), t) l /\ isEligible t = true.
Proof.
  induction l as [|e l IH]; intros acc; cbn [fold_left]; [now left|].
  destruct (IH (pick acc e)) as [H|[t (Ht & Hel)]].
  - rewrite H. unfold pick. destruct (isEligible (snd e)) eqn:E; [|now left].
    destruct (belowMin (taskCount (snd e)) (fst acc)); [|now left].
    right. exists (snd e). split; [|exact E]. left. now destruct e.
  - right. exists t. split; [now right|exact Hel].
Qed.

Lemma findAvailableTeammate_at (st : State) (l1 l2 : list (nat * Teammate))
    (i : nat) (t : Teammate) :
  activeTeammates st = l1 ++ (i, t) :: l2 ->
  isEligible t = true ->
  (forall e, In e l1 -> isEligible (snd e) = true -> taskCount t < taskCount (snd e)) ->
  (forall e, In e l2 -> isEligible (snd e) = true -> taskCount t <= taskCount (snd e)) ->
  findAvailableTeammate st = i.
Proof.
  intros Heq Hel H1 H2. unfold findAvailableTeammate.
  rewrite Heq, fold_left_app. cbn [fold_left].
  set (acc1 := fold_left pick l1 (None, 0)).
  assert (Hb : belowMin (taskCount t) (fst acc1) = true).
  { destruct (pick_fold_min l1 (None, 0)) as [H|[e (He & Hee & H)]]; fold acc1 in H.
    - rewrite H. reflexivity.
    - rewrite H. cbn [belowMin]. apply Nat.ltb_lt. now apply H1. }
  assert (Hp : pick acc1 (i, t) = (Some (taskCount t), i)).
  { unfold pick. cbn [fst snd]. now rewrite Hel, Hb. }
  rewrite Hp, pick_fold_keep; [reflexivity|].
  intros e He Hee. cbn [fst belowMin]. apply Nat.ltb_ge. now apply H2.
Qed.

Lemma getTeammate_app (l1 l2 : list (nat * Teammate)) (i : nat) (t : Teammate) :
  ~ In i (map fst l1) -> getTeammate i (l1 ++ (i, t) :: l2) = Some t.
Proof.
  induction l1 as [|[j u] l1 IH]; intros Hi; cbn.
  - now rewrite Nat.eqb_refl.
  - destruct (Nat.eqb_spec i j) as [->|Hne].
    + exfalso. apply Hi. now left.
    + apply IH. intros H. apply Hi. now right.
Qed.

Lemma updateTeammate_app (l1 l2 : list (nat * Teammate)) (i : nat) (t : Teammate)
    (f : Teammate -> Teammate) :
  ~ In i (map fst l1) ->
  updateTeammate i f (l1 ++ (i, t) :: l2) = l1 ++ (i, f t) :: l2.
Proof.
  induction l1 as [|[j u] l1 IH]; intros Hi; cbn.
  - now rewrite Nat.eqb_refl.
  - destruct (Nat.eqb_spec i j) as [->|Hne].
    + exfalso. apply Hi. now left.
    + rewrite IH; [reflexivity|]. intros H. apply Hi. now right.
Qed.

Lemma getTeammate_In (m : list (nat * Teammate)) (i : nat) (t : Teammate) :
  NoDup (map fst m) -> In (i, t) m -> getTeammate i m = Some t.
Proof.
  intros Hnd Hin. apply in_split in Hin. destruct Hin as (l1 & l2 & ->).
  apply getTeammate_app. rewrite map_app in Hnd. cbn in Hnd.
  apply NoDup_remove_2 in Hnd. intros H. apply Hnd. apply in_or_app. now left.
Qed.

Lemma getTeammate_update_other (m : list (nat * Teammate)) (i j : nat)
    (f : Teammate -> Teammate) :
  i <> j -> getTeammate i (updateTeammate j f m) = getTeammate i m.
Proof.
  intros Hne. induction m as [|[k u] m IH]; cbn; [reflexivity|].
  destruct (Nat.eqb_spec j k) as [->|Hjk]; cbn.
  - destruct (Nat.eqb_spec i k); [contradiction|reflexivity].
  - now rewrite IH.
Qed.

Lemma updateTeammate_keys (m : list (nat * Teammate)) (j : nat)
    (f : Teammate -> Teammate) :
  map fst (updateTeammate j f m) = map fst m.
Proof.
  induction m as [|[k u] m IH]; cbn; [reflexivity|].
  destruct (Nat.eqb j k); cbn; [reflexivity|now rewrite IH].
Qed.

Lemma release_keys (s taskId : string) (m : list (nat * Teammate)) :
  map fst (release s taskId m) = map fst m.
Proof.
  unfold release. rewrite map_map. apply map_ext.
  intros e. now destruct (holds taskId (snd e)).
Qed.

Lemma getTeammate_release (s taskId : string) (m : list (nat * Teammate)) (i : nat) :
  getTeammate i (release s taskId m)
  = option_map (fun t => if holds taskId t then mkTeammate (id t) None s else t)
               (getTeammate i m).
Proof.
  induction m as [|[k u] m IH]; cbn; [reflexivity|].
  destruct (holds taskId u) eqn:E; cbn; destruct (Nat.eqb i k); cbn;
    rewrite ?E; try reflexivity; exact IH.
Qed.

(** X19: [findAvailableTeammate] returns the first teammate, in table
    order, that is idle or working and has the fewest current tasks among
    those; when no teammate is idle or working it returns 0, whether or
    not a teammate 0 exists or is in service.  In every case the number
    returned is 0 or that of a teammate that is idle or working. *)
Theorem findAvailableTeammate_spec (st : State) :
  (forall l1 i t l2,
      activeTeammates st = l1 ++ (i, t) :: l2 ->
      isEligible t = true ->
      (forall e, In e l1 -> isEligible (snd e) = true ->
                 taskCount t < taskCount (snd e)) ->
      (forall e, In e l2 -> isEligible (snd e) = true ->
                 taskCount t <= taskCount (snd e)) ->
      findAvailableTeammate st = i)
  /\ ((forall e, In e (activeTeammates st) -> isEligible (snd e) = false) ->
      findAvailableTeammate st = 0)
  /\ (findAvailableTeammate st = 0
      \/ exists t, In (findAvailableTeammate st, t) (activeTeammates st)
                   /\ isEligible t = true).
Proof.
  split; [|split].
  - intros l1 i t l2. apply findAvailableTeammate_at.
  - intros H. unfold findAvailableTeammate. rewrite pick_fold_keep; [reflexivity|].
    intros e He Hel. rewrite (H e He) in Hel. discriminate.
  - exact (pick_fold_found (activeTeammates st) (None, 0)).
Qed.

(** X19 on three teammates: 0 working on a task, 1 failed, 2 idle. *)
Lemma findAvailableTeammate_spec_witness :
  findAvailableTeammate
    (mkState 3 (DetectMode.detectAgentTeamsMode None false)
             [(0, mkTeammate 0 (Some "a") "working");
              (1, mkTeammate 1 None "failed");
              (2, mkTeammate 2 None "idle")] [])
  = 2.
Proof.
  destruct (findAvailableTeammate_spec
              (mkState 3 (DetectMode.detectAgentTeamsMode None false)
                       [(0, mkTeammate 0 (Some "a") "working");
                        (1, mkTeammate 1 None "failed");
                        (2, mkTeammate 2 None "idle")] [])) as [H _].
  apply (H [(0, mkTeammate 0 (Some "a") "working"); (1, mkTeammate 1 None "failed")]
           2 (mkTeammate 2 None "idle") []).
  - reflexivity.
  - reflexivity.
  - intros e [<-|[<-|[]]] He; cbn in *; [lia|discriminate].
  - intros e [].
Defined.

Lemma atWork_eligible (e : nat * Teammate) : atWork e -> isEligible (snd e) = true.
Proof.
  intros [H _]. unfold isEligible. rewrite H. reflexivity.
Qed.

Lemma taskCount_assigned (i j : nat) (task : TaskGrouping.Task) :
  TaskGrouping.id task <> "" ->
  atWork (i, mkTeammate j (Some (TaskGrouping.id task)) "working").
Proof.
  intros H. split; [reflexivity|]. cbn.
  destruct (String.eqb_spec (TaskGrouping.id task) ""); [contradiction|reflexivity].
Qed.

(** Assignment while a teammate is idle: the first idle one is taken. *)
Lemma assignTeammate_fill (st : State) (task : TaskGrouping.Task)
    (W rest : list (nat * Teammate)) (j : nat) :
  activeTeammates st = W ++ (j, mkTeammate j None "idle") :: rest ->
  Forall atWork W -> ~ In j (map fst W) ->
  exists st',
    assignTeammate st task = Some (st', j)
    /\ teammateCount st' = teammateCount st
    /\ activeTeammates st'
       = (W ++ [(j, mkTeammate j (Some (TaskGrouping.id task)) "working")]) ++ rest.
Proof.
  intros Heq HW Hj.
  assert (Hfind : findAvailableTeammate st = j).
  { apply (@findAvailableTeammate_at st W rest j (mkTeammate j None "idle") Heq).
    - reflexivity.
    - intros e He _. rewrite Forall_forall in HW. destruct (HW e He) as [_ ->].
      cbn. lia.
    - intros e _ _. cbn. lia. }
  unfold assignTeammate. rewrite Hfind, Heq, getTeammate_app by exact Hj.
  eexists. split; [reflexivity|]. split; [reflexivity|].
  cbn [activeTeammates]. rewrite updateTeammate_app by exact Hj.
  cbn [id]. now rewrite <- app_assoc.
Qed.

(** Assignment when every teammate is at work: teammate 0 is taken and
    its current task replaced. *)
Lemma assignTeammate_full (st : State) (task : TaskGrouping.Task)
    (t0 : Teammate) (W : list (nat * Teammate)) :
  activeTeammates st = (0, t0) :: W ->
  atWork (0, t0) -> Forall atWork W ->
  exists st',
    assignTeammate st task = Some (st', 0)
    /\ teammateCount st' = teammateCount st
    /\ activeTeammates st'
       = (0, mkTeammate (id t0) (Some (TaskGrouping.id task)) "working") :: W.
Proof.
  intros Heq H0 HW.
  assert (Hfind : findAvailableTeammate st = 0).
  { apply (@findAvailableTeammate_at st [] W 0 t0 Heq).
    - exact (atWork_eligible H0).
    - intros e [].
    - intros e He _. rewrite Forall_forall in HW. destruct (HW e He) as [_ ->].
      destruct H0 as [_ H0]. cbn in H0. lia. }
  unfold assignTeammate. rewrite Hfind, Heq. cbn.
  eexists. split; [reflexivity|]. split; reflexivity.
Qed.

Lemma assignAll_from (n : nat) (tasks : list TaskGrouping.Task) :
  0 < n ->
  Forall (fun task => TaskGrouping.id task <> "") tasks ->
  forall (k : nat) (st : State) (W : list (nat * Teammate)),
    activeTeammates st
    = W ++ map (fun i => (i, mkTeammate i None "idle"))
               (seq (Nat.min k n) (n - Nat.min k n)) ->
    map fst W = seq 0 (Nat.min k n) ->
    Forall atWork W ->
    exists st',
      assignAll st tasks
      = Some (st', map (fun i => if Nat.ltb i n then i else 0)
                       (seq k (List.length tasks))).
Proof.
  intros Hn Hids. induction Hids as [|task tasks Hid _ IH]; intros k st W Heq Hkeys HW.
  - exists st. reflexivity.
  - cbn [assignAll List.length seq map].
    destruct (Nat.ltb_spec k n) as [Hlt|Hge].
    + rewrite (Nat.min_l k n) in Heq, Hkeys by lia.
      replace (n - k) with (S (n - S k)) in Heq by lia. cbn [seq map] in Heq.
      assert (Hk : ~ In k (map fst W)).
      { rewrite Hkeys, in_seq. lia. }
      destruct (assignTeammate_fill st task _ _ Heq HW Hk) as (st1 & H1 & _ & H2).
      rewrite H1.
      destruct (IH (S k) st1
                   (W ++ [(k, mkTeammate k (Some (TaskGrouping.id task)) "working")]))
        as [st2 H3].
      * rewrite H2. destruct (Nat.le_gt_cases n (S k)) as [Hle|Hgt].
        -- rewrite (Nat.min_r (S k) n) by lia.
           replace (S k) with n by lia. reflexivity.
        -- rewrite (Nat.min_l (S k) n) by lia. reflexivity.
      * rewrite map_app, Hkeys. cbn [map fst].
        destruct (Nat.le_gt_cases n (S k)) as [Hle|Hgt].
        -- rewrite (Nat.min_r (S k) n) by lia. replace n with (S k) by lia.
           now rewrite seq_S.
        -- rewrite (Nat.min_l (S k) n) by lia. now rewrite seq_S.
      * apply Forall_app. split; [exact HW|]. constructor; [|constructor].
        now apply taskCount_assigned.
      * rewrite H3. eexists. reflexivity.
    + rewrite (Nat.min_r k n) in Heq, Hkeys by lia.
      rewrite Nat.sub_diag in Heq. cbn [seq map] in Heq. rewrite app_nil_r in Heq.
      destruct n as [|n']; [lia|]. cbn [seq] in Hkeys.
      destruct W as [|[i0 t0] W0]; [discriminate Hkeys|].
      cbn [map fst] in Hkeys. inversion Hkeys as [[Hi0 Hrest]]. subst i0.
      inversion HW as [|? ? H0 HW0]. subst.
      destruct (assignTeammate_full st task Heq H0 HW0) as (st1 & H1 & _ & H2).
      rewrite H1.
      destruct (IH (S k) st1
                   ((0, mkTeammate (id t0) (Some (TaskGrouping.id task)) "working")
                      :: W0)) as [st2 H3].
      * rewrite H2, (Nat.min_r (S k) (S n')) by lia.
        rewrite Nat.sub_diag. cbn [seq map]. now rewrite app_nil_r.
      * rewrite (Nat.min_r (S k) (S n')) by lia. cbn [map fst seq]. now rewrite Hrest.
      * constructor; [|exact HW0]. now apply taskCount_assigned.
      * rewrite H3. eexists. reflexivity.
Qed.



Lemma step_preserves (st : State) (op : Op) (i : nat) (t : Teammate) :
  NoDup (teammateIds st) -> i <> 0 ->
  getTeammate i (activeTeammates st) = Some t -> outOfService t ->
  getTeammate i (activeTeammates (step st op)) = Some t
  /\ teammateIds (step st op) = teammateIds st.
Proof.
  intros Hnd Hi Hget [Hs Hc]. destruct op as [task|taskId result|taskId error].
  - cbn [step]. unfold assignTeammate.
    destruct (getTeammate (findAvailableTeammate st) (activeTeammates st)) eqn:E;
      [|now split].
    unfold teammateIds. cbn [activeTeammates]. rewrite updateTeammate_keys.
    split; [|reflexivity].
    rewrite getTeammate_update_other; [exact Hget|].
    intros Heq.
    destruct (pick_fold_found (activeTeammates st) (None, 0)) as [H|[t' (Hin & Hel)]];
      fold (findAvailableTeammate st) in *.
    + cbn in H. congruence.
    + rewrite <- Heq in Hin. apply (@getTeammate_In _ i t' Hnd) in Hin.
      rewrite Hget in Hin. inversion Hin. subst t'.
      unfold isEligible in Hel. rewrite Hs in Hel. discriminate.
  - unfold step, completeTask, teammateIds. cbn [activeTeammates].
    rewrite release_keys, getTeammate_release, Hget. cbn.
    unfold holds. rewrite Hc. now split.
  - unfold step, failTask, teammateIds. cbn [activeTeammates].
    rewrite release_keys, getTeammate_release, Hget. cbn.
    unfold holds. rewrite Hc. now split.
Qed.

(** X21: a teammate other than 0 that is out of service (status
    "failed", no current task, as [failTask] leaves it) stays so through
    every sequence of assignments, completions and failures of tasks: no
    call changes it, and [findAvailableTeammate] never returns its
    number.  Nothing in the dispatcher puts a failed teammate back to
    work. *)
Theorem failed_teammate_stays_failed (ops : list Op) (st : State) (i : nat)
    (t : Teammate) :
  NoDup (teammateIds st) -> i <> 0 ->
  getTeammate i (activeTeammates st) = Some t -> outOfService t ->
  getTeammate i (activeTeammates (fold_left step ops st)) = Some t
  /\ teammateIds (fold_left step ops st) = teammateIds st
  /\ findAvailableTeammate (fold_left step ops st) <> i.
Proof.
  intros Hnd Hi Hget Hout.
  assert (H : getTeammate i (activeTeammates (fold_left step ops st)) = Some t
              /\ teammateIds (fold_left step ops st) = teammateIds st).
  { revert st Hnd Hget. induction ops as [|op ops IH]; intros st Hnd Hget;
      cbn [fold_left]; [now split|].
    destruct (step_preserves st op Hnd Hi Hget Hout) as [H1 H2].
    destruct (IH (step st op)) as [H3 H4]; [now rewrite H2|exact H1|].
    split; [exact H3|]. now rewrite H4. }
  destruct H as [H1 H2]. split; [exact H1|]. split; [exact H2|].
  intros Heq.
  destruct (pick_fold_found (activeTeammates (fold_left step ops st)) (None, 0))
    as [H|[t' (Hin & Hel)]]; fold (findAvailableTeammate (fold_left step ops st)) in *.
  - cbn in H. congruence.
  - rewrite Heq in Hin. apply getTeammate_In in Hin.
    + rewrite H1 in Hin. inversion Hin. subst t'.
      destruct Hout as [Hs _]. unfold isEligible in Hel. rewrite Hs in Hel.
      discriminate.
    + fold (teammateIds (fold_left step ops st)). now rewrite H2.
Qed.

(** X21 on two teammates: teammate 1 fails task b and gets no task
    afterwards. *)
Lemma failed_teammate_stays_failed_witness :
  getTeammate 1
    (activeTeammates
       (fold_left step [Assign (Scenarios.task "c" []); Assign (Scenarios.task "d" [])]
          (mkState 2 (DetectMode.detectAgentTeamsMode None false)
                   [(0, mkTeammate 0 None "idle"); (1, mkTeammate 1 None "failed")]
                   [])))
  = Some (mkTeammate 1 None "failed").
Proof.
  apply (@failed_teammate_stays_failed
           [Assign (Scenarios.task "c" []); Assign (Scenarios.task "d" [])]
           (mkState 2 (DetectMode.detectAgentTeamsMode None false)
                    [(0, mkTeammate 0 None "idle"); (1, mkTeammate 1 None "failed")] [])
           1 (mkTeammate 1 None "failed")).
  - repeat constructor; simpl; intuition discriminate.
  - discriminate.
  - reflexivity.
  - split; reflexivity.
Defined.

End TeammateTable.

(** ** The status of the dispatcher *)

Section DispatcherStatus.
Import Dispatcher DispatchNotions.

Lemma step_fields (st : State) (op : Op) :
  teammateCount (step st op) = teammateCount st
  /\ mode (step st op) = mode st
  /\ teammateIds (step st op) = teammateIds st
  /\ completedTasks (step st op)
     = match op with
       | Assign _ => completedTasks st
       | Complete taskId result =>
           JsMap.set taskId (Completed result) (completedTasks st)
       | Fail taskId error => JsMap.set taskId (FailedWith error) (completedTasks st)
       end.
Proof.
  destruct op as [task|taskId result|taskId error].
  - unfold step, assignTeammate.
    destruct (getTeammate (findAvailableTeammate st) (activeTeammates st));
      [|now repeat split].
    unfold teammateIds. cbn. rewrite updateTeammate_keys. now repeat split.
  - unfold step, completeTask, teammateIds. cbn. rewrite release_keys.
    now repeat split.
  - unfold step, failTask, teammateIds. cbn. rewrite release_keys.
    now repeat split.
Qed.

(** X22: after any sequence of assignments, completions and failures on
    a new dispatcher, [getStatus] lists the teammates 0 .. n-1 it was
    created with, and its completed count is the number of distinct task
    ids that were passed to [completeTask] or to [failTask]: failed tasks
    are counted as completed, and nothing bounds the count by the task
    count of the plan. *)
Theorem getStatus_of_calls (detected : DetectMode.Detection) (n : nat)
    (planTasks : option (list TaskGrouping.Task)) (ops : list Op) :
  let st := fold_left step ops (create detected n) in
  let s := getStatus planTasks st in
  Status.mode s = DetectMode.mode detected
  /\ Status.teammateCount s = n
  /\ map teammateId (Status.teammates s) = seq 0 n
  /\ NoDup (JsMap.keys (completedTasks st))
  /\ Status.completedTasks s = List.length (JsMap.keys (completedTasks st))
  /\ (forall k, In k (JsMap.keys (completedTasks st))
                <-> In (Some k) (map closedId ops)).
Proof.
  intros st s.
  assert (H : forall ops st0,
            let st1 := fold_left step ops st0 in
            teammateCount st1 = teammateCount st0
            /\ mode st1 = mode st0
            /\ teammateIds st1 = teammateIds st0
            /\ (NoDup (JsMap.keys (completedTasks st0)) ->
                NoDup (JsMap.keys (completedTasks st1)))
            /\ (forall k, In k (JsMap.keys (completedTasks st1))
                          <-> In k (JsMap.keys (completedTasks st0))
                              \/ In (Some k) (map closedId ops))).
  { clear. induction ops as [|op ops IH]; intros st0; cbn [fold_left].
    - repeat split; auto. cbn. tauto.
    - destruct (step_fields st0 op) as (H1 & H2 & H3 & H4).
      destruct (IH (step st0 op)) as (I1 & I2 & I3 & I4 & I5).
      split; [congruence|]. split; [congruence|]. split; [congruence|]. split.
      + intros Hnd. apply I4. rewrite H4.
        destruct op; [exact Hnd|now apply NoDup_keys_set|now apply NoDup_keys_set].
      + intros k. rewrite I5, H4. cbn [map In].
        destruct op as [task|taskId result|taskId error]; cbn [closedId];
          rewrite ?keys_set; split; intros H; intuition (try discriminate; auto).
        * subst. right. now left.
        * inversion H. subst. left. now left.
        * subst. right. now left.
        * inversion H. subst. left. now left. }
  destruct (H ops (create detected n)) as (H1 & H2 & H3 & H4 & H5). fold st in H1, H2, H3, H4, H5.
  unfold s, getStatus.
  cbn [Status.mode Status.teammateCount Status.teammates Status.completedTasks].
  split; [now rewrite H2|]. split; [exact H1|]. split.
  - rewrite map_map. cbn [teammateId].
    change (map (fun x => fst x) (activeTeammates st)) with (teammateIds st).
    rewrite H3. unfold teammateIds. cbn [create activeTeammates].
    rewrite map_map. cbn [fst]. apply map_id.
  - split; [apply H4; constructor|]. split.
    + unfold JsMap.keys. now rewrite length_map.
    + intros k. rewrite H5. cbn. tauto.
Qed.

(** X22 on one teammate: a task that failed is counted. *)
Lemma getStatus_of_calls_witness :
  In "a" (JsMap.keys
            (completedTasks
               (fold_left step [Assign (Scenarios.task "a" []); Fail "a" "timeout"]
                          (create (DetectMode.detectAgentTeamsMode None false) 1)))).
Proof.
  destruct (getStatus_of_calls (DetectMode.detectAgentTeamsMode None false) 1 None
              [Assign (Scenarios.task "a" []); Fail "a" "timeout"])
    as (_ & _ & _ & _ & _ & Hiff).
  apply Hiff. cbn. tauto.
Defined.

End DispatcherStatus.

(** ** The alert queue and the alert history *)

Section AlertQueue.
Import Alerts AlertNotions.

Lemma filter_filter (A : Type) (p q : A -> bool) (l : list A) :
  filter q (filter p l) = filter (fun a => p a && q a) l.
Proof.
  induction l as [|a l IH]; cbn; [reflexivity|].
  destruct (p a); cbn; [destruct (q a); now rewrite IH|exact IH].
Qed.

Lemma filter_all (A : Type) (p : A -> bool) (l : list A) :
  (forall a, In a l -> p a = true) -> filter p l = l.
Proof.
  induction l as [|a l IH]; intros H; cbn; [reflexivity|].
  rewrite (H a (or_introl eq_refl)), IH; [reflexivity|].
  intros b Hb. apply H. now right.
Qed.

Lemma filter_none (A : Type) (p : A -> bool) (l : list A) :
  (forall a, In a l -> p a = false) -> filter p l = [].
Proof.
  induction l as [|a l IH]; intros H; cbn; [reflexivity|].
  rewrite (H a (or_introl eq_refl)). apply IH. intros b Hb. apply H. now right.
Qed.

Lemma filter_unless (A : Type) (c : bool) (p : A -> bool) (l : list A) :
  (if c then l else filter p l) = filter (fun a => c || p a) l.
Proof.
  destruct c; cbn [orb]; [|reflexivity].
  symmetry. now apply filter_all.
Qed.

(** What one call does to the three fields. *)
Lemma step_history (st : State) (op : Op) :
  alertHistory (step st op)
  = alertHistory st ++ sentAlerts [op]
  /\ criticalAlertsSent (step st op)
     = criticalAlertsSent st || existsb isCritical (sentAlerts [op])
  /\ exists kept,
       incl kept (notificationQueue st)
       /\ notificationQueue (step st op)
          = kept ++ filter (fun a => negb (isCritical a)) (sentAlerts [op]).
Proof.
  destruct op as [now newId alert| |taskId'].
  - unfold step, sendAlert, sentAlerts, isCritical, stamped.
    cbn [severity flat_map app existsb filter].
    destruct (String.eqb (severity alert) "critical");
      cbn [alertHistory criticalAlertsSent notificationQueue queueNotification negb].
    + split; [reflexivity|]. split; [now rewrite orb_true_r|].
      exists (notificationQueue st). split; [apply incl_refl|now rewrite app_nil_r].
    + split; [reflexivity|]. split; [now rewrite !orb_false_r|].
      exists (notificationQueue st). split; [apply incl_refl|reflexivity].
  - unfold step, sendBatchNotifications. cbn [sentAlerts flat_map existsb filter].
    destruct (notificationQueue st) eqn:E;
      cbn [fst alertHistory criticalAlertsSent notificationQueue];
      rewrite ?app_nil_r, ?orb_false_r.
    + split; [reflexivity|]. split; [reflexivity|].
      exists []. rewrite E. split; [apply incl_refl|reflexivity].
    + split; [reflexivity|]. split; [reflexivity|].
      exists []. split; [intros x []|reflexivity].
  - unfold step, clearNotifications. cbn [sentAlerts flat_map existsb filter].
    cbn [alertHistory criticalAlertsSent notificationQueue].
    rewrite ?app_nil_r, ?orb_false_r.
    split; [reflexivity|]. split; [reflexivity|].
    destruct (String.eqb taskId' "").
    + exists []. split; [intros x []|reflexivity].
    + exists (filter (otherTask taskId') (notificationQueue st)).
      split; [|now rewrite app_nil_r].
      intros x Hx. now apply filter_In in Hx.
Qed.

Lemma sentAlerts_app (ops1 ops2 : list Op) :
  sentAlerts (ops1 ++ ops2) = sentAlerts ops1 ++ sentAlerts ops2.
Proof. unfold sentAlerts. apply flat_map_app. Qed.

Lemma run_snoc (ops : list Op) (op : Op) : run (ops ++ [op]) = step (run ops) op.
Proof. unfold run. now rewrite fold_left_app. Qed.

(** The fields after a sequence of calls on a new alert system. *)
Lemma run_fields (ops : list Op) :
  alertHistory (run ops) = sentAlerts ops
  /\ criticalAlertsSent (run ops) = existsb isCritical (sentAlerts ops)
  /\ Forall (fun a => isCritical a = false) (notificationQueue (run ops))
  /\ incl (notificationQueue (run ops)) (alertHistory (run ops)).
Proof.
  induction ops as [|op ops IH] using rev_ind.
  - cbn. repeat split; [constructor|intros x []].
  - destruct IH as (I1 & I2 & I3 & I4).
    rewrite run_snoc, sentAlerts_app.
    destruct (step_history (run ops) op) as (H1 & H2 & kept & Hk & H3).
    split; [now rewrite H1, I1|]. split; [now rewrite H2, I2, existsb_app|].
    rewrite H3, H1. split.
    + apply Forall_app. split.
      * rewrite Forall_forall in *. intros a Ha. apply I3. now apply Hk.
      * rewrite Forall_forall. intros a Ha. apply filter_In in Ha.
        now apply negb_true_iff.
    + intros a Ha. apply in_app_iff in Ha. apply in_or_app.
      destruct Ha as [Ha|Ha]; [left; apply I4; now apply Hk|].
      right. now apply filter_In in Ha.
Qed.

(** X23: after any sequence of [sendAlert], [sendBatchNotifications] and
    [clearNotifications] calls on a new alert system, the history holds
    exactly the alerts sent, in order, as stamped: batches and clearing
    never touch it.  The critical flag is set exactly when a critical
    alert was sent and is never reset.  The queue holds alerts of the
    history only and never a critical one, so the summary of a batch
    always starts with "0 critical". *)
Theorem alert_history_and_queue (ops : list Op) :
  let st := run ops in
  alertHistory st = sentAlerts ops
  /\ criticalAlertsSent st = existsb isCritical (sentAlerts ops)
  /\ Forall (fun a => severity a <> "critical") (notificationQueue st)
  /\ incl (notificationQueue st) (alertHistory st)
  /\ (forall formatted,
        formatBatchAlert (notificationQueue st) = Some formatted ->
        summary formatted
        = ("0 critical, "
           ++ Js.show_nat (countSeverity "warning" (notificationQueue st))
           ++ " warning, "
           ++ Js.show_nat (countSeverity "info" (notificationQueue st))
           ++ " info")%string).
Proof.
  intros st. unfold st.
  destruct (run_fields ops) as (H1 & H2 & H3 & H4).
  split; [exact H1|]. split; [exact H2|]. split; [|split; [exact H4|]].
  - rewrite Forall_forall in *. intros a Ha Hs. specialize (H3 a Ha).
    unfold isCritical in H3. rewrite Hs in H3. discriminate.
  - intros formatted. unfold formatBatchAlert.
    destruct (groupByTask (notificationQueue (run ops))); [|discriminate].
    intros H. inversion H. cbn [summary]. unfold countSeverity at 1.
    rewrite filter_none; [reflexivity|].
    rewrite Forall_forall in H3. exact H3.
Qed.

(** X23 after one warning was sent. *)
Lemma alert_history_and_queue_witness :
  exists formatted,
    formatBatchAlert
      (notificationQueue
         (run [Send "2026-01-01T00:00:00.000Z" "alert-1"
                    (mkAlert "" "" (Some "Task 3") "alignment-misalignment"
                             "warning" [])]))
    = Some formatted
    /\ summary formatted = "0 critical, 1 warning, 0 info".
Proof.
  eexists. split; [reflexivity|].
  destruct (alert_history_and_queue
              [Send "2026-01-01T00:00:00.000Z" "alert-1"
                    (mkAlert "" "" (Some "Task 3") "alignment-misalignment"
                             "warning" [])]) as (_ & _ & _ & _ & H).
  rewrite (H _ eq_refl). reflexivity.
Defined.

Lemma groupFrom_None (alerts : list Alert) :
  forall grouped : JsMap.t (list Entry),
    groupFrom grouped alerts = None
    <-> existsb (fun a => JsObject.inherited (groupKey a)) alerts = true.
Proof.
  induction alerts as [|a alerts IH]; intros grouped; cbn [groupFrom existsb].
  - split; discriminate.
  - unfold groupStep. destruct (JsObject.inherited (groupKey a)); cbn [orb].
    + split; reflexivity.
    + destruct (JsMap.get (groupKey a) grouped); apply IH.
Qed.

(** X24: [sendBatchNotifications] empties the queue and leaves the
    history and the critical flag as they are, also when it raises, which
    it does exactly when a queued alert has a task id that is a property
    name inherited by every object (such as "constructor").  Otherwise it
    reports as sent the number of queued alerts and returns them, or
    [{sent: 0}] alone for an empty queue, so a second call right after
    sends nothing.  The three numbers of the summary never add up to more
    than the number sent: alerts of another severity are sent without
    being counted. *)
Theorem sendBatchNotifications_drains (st : State) :
  let st' := fst (sendBatchNotifications st) in
  let r := snd (sendBatchNotifications st) in
  notificationQueue st' = []
  /\ alertHistory st' = alertHistory st
  /\ criticalAlertsSent st' = criticalAlertsSent st
  /\ (r = None
      <-> existsb (fun a => JsObject.inherited (groupKey a)) (notificationQueue st)
          = true)
  /\ (forall result, r = Some result ->
        sent result = List.length (notificationQueue st)
        /\ alerts result
           = (if Nat.eqb (sent result) 0 then None else Some (notificationQueue st))
        /\ countSeverity "critical" (notificationQueue st)
           + countSeverity "warning" (notificationQueue st)
           + countSeverity "info" (notificationQueue st) <= sent result)
  /\ sendBatchNotifications st' = (st', Some (mkBatchResult 0 None None)).
Proof.
  intros st' r. unfold st', r, sendBatchNotifications.
  assert (Hcount : countSeverity "critical" (notificationQueue st)
                   + countSeverity "warning" (notificationQueue st)
                   + countSeverity "info" (notificationQueue st)
                   <= List.length (notificationQueue st)).
  { unfold countSeverity. apply filter_three_length. intros b.
    destruct (String.eqb_spec (severity b) "critical") as [->|]; [cbn; lia|].
    destruct (String.eqb_spec (severity b) "warning") as [->|]; [cbn; lia|].
    destruct (String.eqb (severity b) "info"); lia. }
  destruct (notificationQueue st) as [|a q] eqn:E.
  - cbn [fst snd]. rewrite E.
    split; [reflexivity|]. split; [reflexivity|]. split; [reflexivity|].
    split; [split; discriminate|]. split; [|reflexivity].
    intros result H. inversion H. cbn. repeat split. lia.
  - cbn [fst snd notificationQueue alertHistory criticalAlertsSent].
    split; [reflexivity|]. split; [reflexivity|]. split; [reflexivity|].
    split; [|split; [|reflexivity]].
    + rewrite <- (groupFrom_None (a :: q) []). unfold formatBatchAlert, groupByTask.
      destruct (groupFrom [] (a :: q)); split; (discriminate || reflexivity).
    + intros result. destruct (formatBatchAlert (a :: q)); [|discriminate].
      intros H. inversion H. cbn [sent alerts List.length Nat.eqb].
      split; [reflexivity|]. split; [reflexivity|exact Hcount].
Qed.

(** X24 on a queue with an alert of a task called "constructor". *)
Lemma sendBatchNotifications_drains_witness :
  snd (sendBatchNotifications
         (mkState [mkAlert "alert-1" "" (Some "constructor") "alignment" "warning" []]
                  [] false))
  = None.
Proof.
  destruct (sendBatchNotifications_drains
              (mkState [mkAlert "alert-1" "" (Some "constructor") "alignment"
                                "warning" []] [] false)) as (_ & _ & _ & H & _).
  apply H. reflexivity.
Defined.

(** X25: [getHistory] returns the alerts of the history that pass every
    filter given, in the order in which they were sent; without filters
    it returns the whole history, and with a [since] that is not a date it
    returns nothing.  After any sequence of calls the critical flag is set
    exactly when the history filtered by severity "critical" is not
    empty. *)
Theorem getHistory_spec (parseDate : string -> Js.jsnum) (st : State)
    (filters : Filters) :
  getHistory parseDate st filters = filter (selected parseDate filters) (alertHistory st)
  /\ getHistory parseDate st (mkFilters "" "" "") = alertHistory st
  /\ (since filters <> "" -> parseDate (since filters) = Js.NaN ->
      getHistory parseDate st filters = [])
  /\ (forall ops,
        criticalAlertsSent (run ops)
        = negb (Nat.eqb (List.length (getHistory parseDate (run ops)
                                                 (mkFilters "" "critical" ""))) 0)).
Proof.
  assert (Hsel : forall st0 f,
            getHistory parseDate st0 f
            = filter (selected parseDate f) (alertHistory st0)).
  { intros st0 f. unfold getHistory, selected.
    rewrite !filter_unless, !filter_filter. apply filter_ext.
    intros a. now rewrite andb_assoc. }
  split; [apply Hsel|]. split; [|split].
  - rewrite Hsel. now apply filter_all.
  - intros Hne Hnan. rewrite Hsel. apply filter_none. intros a _.
    unfold selected. rewrite Hnan.
    destruct (String.eqb_spec (since filters) ""); [contradiction|].
    cbn [orb]. unfold Js.js_gt. destruct (parseDate (timestamp a));
      now rewrite andb_false_r.
  - intros ops. rewrite Hsel. destruct (run_fields ops) as (H1 & H2 & _).
    rewrite H2, H1. unfold selected. cbn [byTaskId bySeverity since String.eqb orb andb].
    clear H1 H2.
    induction (sentAlerts ops) as [|a l IH]; cbn [filter existsb]; [reflexivity|].
    unfold isCritical at 1. rewrite andb_true_r.
    destruct (String.eqb (severity a) "critical"); cbn [orb]; [reflexivity|exact IH].
Qed.

(** X25 with a [since] that is no date. *)
Lemma getHistory_spec_witness :
  getHistory (fun _ => Js.NaN)
             (run [Send "2026-01-01T00:00:00.000Z" "alert-1"
                        (mkAlert "" "" (Some "Task 3") "alignment-misalignment"
                                 "warning" [])])
             (mkFilters "" "" "yesterday")
  = [].
Proof.
  destruct (getHistory_spec (fun _ => Js.NaN)
              (run [Send "2026-01-01T00:00:00.000Z" "alert-1"
                         (mkAlert "" "" (Some "Task 3") "alignment-misalignment"
                                  "warning" [])])
              (mkFilters "" "" "yesterday")) as (_ & _ & H & _).
  apply H; [discriminate|reflexivity].
Defined.

Lemma groupStep_get (grouped grouped' : JsMap.t (list Entry)) (a : Alert)
    (k : string) :
  groupStep grouped a = Some grouped' ->
  JsMap.get k grouped'
  = if String.eqb k (groupKey a)
    then Some (match JsMap.get k grouped with
               | Some group => group ++ [entryOf a]
               | None => [entryOf a]
               end)
    else JsMap.get k grouped.
Proof.
  unfold groupStep. fold (entryOf a).
  destruct (JsObject.inherited (groupKey a)); [discriminate|].
  destruct (String.eqb_spec k (groupKey a)) as [->|Hne].
  - destruct (JsMap.get (groupKey a) grouped); intros H; inversion H;
      now rewrite get_set_same.
  - destruct (JsMap.get (groupKey a) grouped); intros H; inversion H;
      now rewrite get_set_other.
Qed.

Lemma groupFrom_get (alerts : list Alert) (k : string) :
  forall grouped grouped' : JsMap.t (list Entry),
    groupFrom grouped alerts = Some grouped' ->
    JsMap.get k grouped'
    = match JsMap.get k grouped with
      | Some group =>
          Some (group ++ map entryOf
                             (filter (fun a => String.eqb (groupKey a) k) alerts))
      | None =>
          nonEmpty (map entryOf (filter (fun a => String.eqb (groupKey a) k) alerts))
      end.
Proof.
  induction alerts as [|a alerts IH]; intros grouped grouped' H;
    cbn [groupFrom filter map] in *.
  - inversion H. subst.
    destruct (JsMap.get k grouped'); [now rewrite app_nil_r|reflexivity].
  - destruct (groupStep grouped a) as [grouped1|] eqn:E; [|discriminate].
    rewrite (IH _ _ H), (@groupStep_get grouped grouped1 a k E),
      (String.eqb_sym (groupKey a) k).
    destruct (String.eqb k (groupKey a)).
    + destruct (JsMap.get k grouped); cbn [map nonEmpty app];
        [now rewrite <- app_assoc|reflexivity].
    + reflexivity.
Qed.

(** X26: [groupByTask] raises exactly when an alert has a task id that
    is a property name inherited by every object.  Otherwise, in the
    object it builds, the group under a key holds the entries of exactly
    the alerts whose task id is that key, in the order of the input, and a
    key without such an alert is absent; alerts without a task id, or with
    an empty one, are grouped under "unknown" together with the alerts of
    a task called "unknown". *)
Theorem groupByTask_lookup (alerts : list Alert) :
  (groupByTask alerts = None
   <-> existsb (fun a => JsObject.inherited (groupKey a)) alerts = true)
  /\ (forall grouped, groupByTask alerts = Some grouped ->
        (forall k, JsMap.get k grouped
                   = nonEmpty (map entryOf
                                   (filter (fun a => String.eqb (groupKey a) k) alerts)))
        /\ (forall a, In a alerts ->
              exists group, JsMap.get (groupKey a) grouped = Some group
                            /\ In (entryOf a) group))
  /\ (forall a, groupKey a = "unknown"
                <-> taskId a = None \/ taskId a = Some ""
                    \/ taskId a = Some "unknown").
Proof.
  split; [apply groupFrom_None|]. split.
  - intros grouped Hg.
    assert (H : forall k, JsMap.get k grouped
               = nonEmpty (map entryOf
                               (filter (fun a => String.eqb (groupKey a) k) alerts))).
    { intros k. unfold groupByTask in Hg.
      now rewrite (@groupFrom_get alerts k [] grouped Hg). }
    split; [exact H|].
    intros a Ha. rewrite H.
    assert (Hin : In (entryOf a)
                     (map entryOf
                          (filter (fun b => String.eqb (groupKey b) (groupKey a))
                                  alerts))).
    { apply in_map. apply filter_In. split; [exact Ha|apply String.eqb_refl]. }
    destruct (map entryOf
                  (filter (fun b => String.eqb (groupKey b) (groupKey a)) alerts))
      as [|e es]; [destruct Hin|].
    exists (e :: es). now split.
  - intros a. unfold groupKey, Js.js_or. destruct (taskId a) as [s|].
    + destruct (String.eqb_spec s "") as [->|Hne].
      * split; [intros _; right; now left|reflexivity].
      * split.
        -- intros ->. right. now right.
        -- intros [Hn|[Hn|Hn]]; inversion Hn; subst; [contradiction|reflexivity].
    + split; [intros _; now left|reflexivity].
Qed.

(** X26 on an alert without a task id. *)
Lemma groupByTask_lookup_witness :
  exists grouped group,
    groupByTask [mkAlert "alert-1" "" None "alignment-misalignment" "warning" []]
    = Some grouped
    /\ JsMap.get "unknown" grouped = Some group.
Proof.
  destruct (groupByTask_lookup
              [mkAlert "alert-1" "" None "alignment-misalignment" "warning" []])
    as (_ & H & _).
  eexists. destruct (H _ eq_refl) as [_ Hin].
  destruct (Hin (mkAlert "alert-1" "" None "alignment-misalignment" "warning" []))
    as [group [Hg _]]; [now left|].
  exists group. split; [reflexivity|exact Hg].
Defined.

End AlertQueue.

(** ** Parsing goal tags *)

Section GoalParsing.
Import JsString JsRegExp GoalTags GoalNotions.

Lemma class_backtrack_Some (R : Type) (n : nat) (attempt : nat -> option R) (r : R) :
  backtrack n attempt = Some r -> exists k, attempt k = Some r.
Proof.
  induction n as [|n IH]; cbn [backtrack]; destruct (attempt _) eqn:E; intros H.
  - inversion H. subst. now exists 0.
  - discriminate.
  - inversion H. subst. now exists (S n).
  - now apply IH.
Qed.

(** A match of a pattern that starts with an atom outside the group
    holds a match of the rest of the pattern further on. *)
Lemma match_here_tail (a : Atom) (rest : list Atom) (s cap : list ascii) :
  captured a = false ->
  match_here (a :: rest) s = Some cap ->
  exists k, match_here rest (skipn k s) = Some cap.
Proof.
  intros Hc. cbn [match_here]. rewrite Hc. destruct (quant a).
  - destruct (Nat.leb 1 (run_length a s)); [|discriminate].
    destruct (match_here rest (skipn 1 s)) as [cap'|] eqn:E; [|discriminate].
    intros H. inversion H. subst. now exists 1.
  - intros H. apply class_backtrack_Some in H. destruct H as [k H].
    destruct (match_here rest (skipn k s)) as [cap'|] eqn:E; [|discriminate].
    inversion H. subst. now exists k.
  - intros H. apply class_backtrack_Some in H. destruct H as [k H].
    destruct (Nat.leb 1 k); [|discriminate].
    destruct (match_here rest (skipn k s)) as [cap'|] eqn:E; [|discriminate].
    inversion H. subst. now exists k.
Qed.

Lemma match_from_at (atoms : list Atom) (s cap : list ascii) :
  match_from atoms s = Some cap ->
  exists j, match_here atoms (skipn j s) = Some cap.
Proof.
  induction s as [|c s IH]; cbn [match_from]; destruct (match_here atoms _) eqn:E;
    intros H.
  - inversion H. subst. now exists 0.
  - discriminate.
  - inversion H. subst. now exists 0.
  - destruct (IH H) as [j Hj]. now exists (S j).
Qed.

Lemma match_from_suffix (atoms : list Atom) (s : list ascii) :
  forall j cap,
    match_here atoms (skipn j s) = Some cap ->
    exists cap', match_from atoms s = Some cap'.
Proof.
  induction s as [|c s IH]; intros j cap H; cbn [match_from].
  - rewrite skipn_nil in H. rewrite H. now exists cap.
  - destruct (match_here atoms (c :: s)) as [cap0|] eqn:E; [now exists cap0|].
    destruct j as [|j]; [cbn in H; congruence|].
    exact (IH j cap H).
Qed.

(** Where a pattern with two leading atoms outside the group matches,
    the pattern without them matches as well. *)
Lemma match_group_tail (a b : Atom) (rest : list Atom) (section : string) :
  captured a = false -> captured b = false ->
  match_group (a :: b :: rest) section <> None ->
  match_group rest section <> None.
Proof.
  intros Ha Hb. unfold match_group.
  destruct (match_from (a :: b :: rest) (list_ascii_of_string section)) as [cap|] eqn:E;
    [|intros H; now contradiction H].
  intros _.
  apply match_from_at in E. destruct E as [j E].
  apply (@match_here_tail a (b :: rest) _ _ Ha) in E. destruct E as [k1 E].
  apply (@match_here_tail b rest _ _ Hb) in E. destruct E as [k2 E].
  rewrite !skipn_skipn in E.
  apply match_from_suffix in E. destruct E as [cap' E]. now rewrite E.
Qed.

(** X27: the second and third pattern of [extractGoal] never decide the
    result: wherever one of them matches, the first pattern matches too
    and the loop returns there.  So [extractGoal] returns the trimmed rest
    of the line after the first occurrence of the key followed by a colon
    or an equals sign, and nothing when there is no such occurrence. *)
Theorem extractGoal_first_pattern (section key : string) :
  extractGoal section key
  = option_map trim (match_group (keyPattern key) section)
  /\ (forall pattern, In pattern (patterns key) ->
        match_group pattern section <> None ->
        match_group (keyPattern key) section <> None).
Proof.
  assert (H : forall pattern, In pattern (patterns key) ->
            match_group pattern section <> None ->
            match_group (keyPattern key) section <> None).
  { intros pattern [<-|[<-|[<-|[]]]] Hm.
    - exact Hm.
    - exact (@match_group_tail dashes spaces (keyPattern key) section
               eq_refl eq_refl Hm).
    - exact (@match_group_tail asterisk spaces (keyPattern key) section
               eq_refl eq_refl Hm). }
  split; [|exact H].
  unfold extractGoal, patterns. cbn [firstMatch].
  destruct (match_group (keyPattern key) section) as [g|] eqn:E1; [reflexivity|].
  destruct (match_group (dashes :: spaces :: keyPattern key) section) eqn:E2.
  - exfalso. apply (H (dashes :: spaces :: keyPattern key)).
    + right. now left.
    + rewrite E2. discriminate.
    + reflexivity.
  - destruct (match_group (asterisk :: spaces :: keyPattern key) section) eqn:E3;
      [|reflexivity].
    exfalso. apply (H (asterisk :: spaces :: keyPattern key)).
    + right. right. now left.
    + rewrite E3. discriminate.
    + reflexivity.
Qed.

(** X27 on a bulleted line, which the second pattern matches. *)
Lemma extractGoal_first_pattern_witness :
  match_group (dashes :: spaces :: keyPattern "testing") "- Testing: e2e" <> None
  /\ match_group (keyPattern "testing") "- Testing: e2e" <> None.
Proof.
  assert (H2 : match_group (dashes :: spaces :: keyPattern "testing") "- Testing: e2e"
               <> None) by (vm_compute; discriminate).
  split; [exact H2|].
  destruct (extractGoal_first_pattern "- Testing: e2e" "testing") as [_ H].
  apply (H (dashes :: spaces :: keyPattern "testing")); [|exact H2].
  right. now left.
Defined.

Lemma lower_hash (c : ascii) :
  Ascii.eqb (lower_ascii "#") (lower_ascii c) = true -> c = "#"%char.
Proof.
  destruct c as [[] [] [] [] [] [] [] []]; vm_compute; intros H;
    (reflexivity || discriminate H).
Qed.

Lemma matchText_head (a c : ascii) (p s : list ascii)
    (found : list ascii * list ascii) :
  matchText (a :: p) (c :: s) = Some found ->
  Ascii.eqb (lower_ascii a) (lower_ascii c) = true.
Proof.
  cbn [matchText]. now destruct (Ascii.eqb (lower_ascii a) (lower_ascii c)).
Qed.

Lemma sectionFrom_hash (s found : list ascii) :
  sectionFrom s = Some found -> In "#"%char s.
Proof.
  induction s as [|c s IH]; cbn [sectionFrom]; intros H.
  - discriminate H.
  - destruct (sectionAt (c :: s)) eqn:E.
    + left. unfold sectionAt in E.
      change (list_ascii_of_string "## Goal Metrics")
        with ("#"%char :: list_ascii_of_string "# Goal Metrics") in E.
      destruct (matchText ("#"%char :: list_ascii_of_string "# Goal Metrics") (c :: s))
        as [[header rest]|] eqn:Em; [|discriminate E].
      exact (@lower_hash c (@matchText_head _ _ _ _ _ Em)).
    + right. now apply IH.
Qed.

Lemma parseGoalTags_hashFree (doc : string) :
  hashFree doc -> parseGoalTags doc = getDefaultGoalTags.
Proof.
  intros Hfree. unfold parseGoalTags, goalSection.
  destruct (String.eqb doc ""); [reflexivity|].
  destruct (sectionFrom (list_ascii_of_string doc)) as [found|] eqn:E; [|reflexivity].
  exfalso. apply Hfree. exact (sectionFrom_hash _ E).
Qed.

Lemma list_ascii_app (a b : string) :
  list_ascii_of_string (a ++ b) = list_ascii_of_string a ++ list_ascii_of_string b.
Proof.
  induction a as [|c a IH]; cbn; [reflexivity|now rewrite IH].
Qed.

Lemma hashFree_app (a b : string) : hashFree a -> hashFree b -> hashFree (a ++ b).
Proof.
  unfold hashFree. rewrite list_ascii_app, in_app_iff. tauto.
Qed.

Lemma hashFree_join (sep : string) (parts : list string) :
  hashFree sep -> Forall hashFree parts -> hashFree (Js.join sep parts).
Proof.
  intros Hsep. induction 1 as [|p parts Hp Hparts IH]; cbn [Js.join].
  - intros [].
  - destruct parts as [|q parts]; [exact Hp|].
    apply hashFree_app; [exact Hp|]. apply hashFree_app; [exact Hsep|exact IH].
Qed.

Lemma hashFree_literal (s : string) :
  forallb (fun c => negb (Ascii.eqb c "#")) (list_ascii_of_string s) = true ->
  hashFree s.
Proof.
  intros H Hin. rewrite forallb_forall in H. specialize (H _ Hin).
  rewrite Ascii.eqb_refl in H. discriminate.
Qed.

Lemma hashFree_pushUnless (default label value : string) (lines : list string) :
  hashFree label -> hashFree value -> Forall hashFree lines ->
  Forall hashFree (pushUnless default label value lines).
Proof.
  intros Hl Hv Hlines. unfold pushUnless.
  destruct (String.eqb value default); [exact Hlines|].
  apply Forall_app. split; [exact Hlines|]. constructor; [|constructor].
  apply hashFree_app; [now apply hashFree_literal|].
  apply hashFree_app; [exact Hl|].
  apply hashFree_app; [now apply hashFree_literal|exact Hv].
Qed.

Lemma goalOr_nonEmpty (sectionText key default : string) :
  default <> "" -> goalOr sectionText key default <> "".
Proof.
  intros Hd. unfold goalOr, Js.js_or.
  destruct (extractGoal sectionText key) as [v|]; [|exact Hd].
  destruct (String.eqb_spec v ""); [exact Hd|assumption].
Qed.

(** X28: [parseGoalTags] returns the default goal tags for a document
    without a number sign, hence without a goal-metrics heading, and in
    every case a [GoalTags] object whose six properties are non-empty.  It
    does not read back what [formatGoalTags] prints: parsing the formatted
    text of goal tags whose values contain no number sign gives the
    default goal tags, whatever the tags were.  On the document of the
    integration tests it returns the five values listed there. *)
Theorem parseGoalTags_defaults :
  (forall doc, hashFree doc -> parseGoalTags doc = getDefaultGoalTags)
  /\ (forall doc,
        architecture (parseGoalTags doc) <> ""
        /\ codeStyle (parseGoalTags doc) <> ""
        /\ testing (parseGoalTags doc) <> ""
        /\ security (parseGoalTags doc) <> ""
        /\ performance (parseGoalTags doc) <> ""
        /\ userExperience (parseGoalTags doc) <> "")
  /\ (forall tags,
        hashFree (architecture tags) -> hashFree (codeStyle tags) ->
        hashFree (testing tags) -> hashFree (security tags) ->
        hashFree (performance tags) ->
        parseGoalTags (formatGoalTags tags) = getDefaultGoalTags)
  /\ parseGoalTags metricsDoc
     = GoalTags.mk "microservices" "functional" "unit" "JWT" "< 100ms" "cli".
Proof.
  split; [exact parseGoalTags_hashFree|]. split; [|split].
  - intros doc. unfold parseGoalTags.
    destruct (String.eqb doc "");
      [repeat split; discriminate|].
    destruct (goalSection doc) as [sectionText|];
      [|repeat split; discriminate].
    cbn [architecture codeStyle testing security performance userExperience].
    repeat split; apply goalOr_nonEmpty; discriminate.
  - intros tags Ha Hs Ht Hsec Hp. apply parseGoalTags_hashFree.
    unfold formatGoalTags, goalLines. apply hashFree_join.
    + now apply hashFree_literal.
    + repeat (apply hashFree_pushUnless;
              [now apply hashFree_literal|assumption|]).
      constructor; [now apply hashFree_literal|constructor].
  - vm_compute. reflexivity.
Qed.

(** X28 on a text without a heading. *)
Lemma parseGoalTags_defaults_witness :
  hashFree "No goals here"
  /\ parseGoalTags "No goals here" = getDefaultGoalTags.
Proof.
  assert (H : hashFree "No goals here") by (now apply hashFree_literal).
  split; [exact H|].
  destruct parseGoalTags_defaults as [Hd _]. exact (Hd _ H).
Defined.

End GoalParsing.

(** ** The dispatch of the independent tasks *)

Section IndependentDispatch.
Import Dispatcher DispatchNotions TeamExecution.

Lemma assignEach_of_assignAll (calls : list TaskGrouping.Task) :
  forall (st st' : State) (found : list nat),
    assignAll st calls = Some (st', found) ->
    assignEach st calls = (st', map Some found).
Proof.
  induction calls as [|task calls IH]; intros st st' found H; cbn in H |- *.
  - inversion H. reflexivity.
  - destruct (assignTeammate st task) as [[st1 i]|]; [|discriminate H].
    destruct (assignAll st1 calls) as [[st2 found']|] eqn:E; [|discriminate H].
    inversion H. subst. rewrite (IH _ _ _ E). reflexivity.
Qed.

Lemma map_below (n len : nat) :
  len <= n -> map (fun i => if Nat.ltb i n then i else 0) (seq 0 len) = seq 0 len.
Proof.
  intros Hle. rewrite <- (map_id (seq 0 len)) at 2. apply map_ext_in.
  intros i Hi. apply in_seq in Hi.
  destruct (Nat.ltb_spec i n); [reflexivity|lia].
Qed.

(** X29: [dispatchIndependentTasks] calls [dispatchAndMonitor] for the
    first [teammateCount] independent tasks only; the independent tasks
    after them get no call.  On the new dispatcher of a manager, and for
    tasks with non-empty ids, the i-th of these calls is assigned to
    teammate i: every dispatched independent task has a teammate of its
    own. *)
Theorem dispatchIndependentTasks_one_each (detected : DetectMode.Detection)
    (n : nat) (planTasks : list TaskGrouping.Task) :
  let independent :=
    TaskGrouping.independent (TaskGrouping.groupTasksForTeams planTasks) in
  let calls := independentCalls n independent in
  calls = firstn n independent
  /\ independent = calls ++ skipn n independent
  /\ List.length calls = Nat.min (List.length independent) n
  /\ (Forall (fun task => TaskGrouping.id task <> "") planTasks ->
      snd (dispatchIndependentTasks (create detected n) n independent)
      = map Some (seq 0 (List.length calls))).
Proof.
  intros independent calls.
  assert (Hcalls : calls = firstn n independent).
  { unfold calls, independentCalls.
    destruct (Nat.le_gt_cases (List.length independent) n) as [Hle|Hgt].
    - rewrite Nat.min_l by exact Hle. now rewrite !firstn_all2 by lia.
    - rewrite Nat.min_r by lia. reflexivity. }
  split; [exact Hcalls|]. split; [|split].
  - rewrite Hcalls. symmetry. apply firstn_skipn.
  - rewrite Hcalls, length_firstn. apply Nat.min_comm.
  - intros Hids. unfold dispatchIndependentTasks. fold calls.
    assert (Hlen : List.length calls <= n).
    { rewrite Hcalls, length_firstn. apply Nat.le_min_l. }
    destruct n as [|n'].
    + rewrite Hcalls. reflexivity.
    + assert (Hc : Forall (fun task => TaskGrouping.id task <> "") calls).
      { rewrite Forall_forall in *. intros task Ht. apply Hids.
        rewrite Hcalls in Ht.
        assert (Hin : In task independent).
        { rewrite <- (firstn_skipn (S n') independent). apply in_or_app. now left. }
        unfold independent in Hin. rewrite independent_filter in Hin.
        now apply filter_In in Hin. }
      destruct (@assignAll_from (S n') calls ltac:(lia) Hc 0 (create detected (S n')) [])
        as [st H].
      * cbn [create activeTeammates Nat.min app]. now rewrite Nat.sub_0_r.
      * reflexivity.
      * constructor.
      * rewrite (assignEach_of_assignAll _ _ H). cbn [snd].
        now rewrite map_below by exact Hlen.
Qed.

(** X29 on three independent tasks and two teammates. *)
Lemma dispatchIndependentTasks_one_each_witness :
  snd (dispatchIndependentTasks
         (create (DetectMode.detectAgentTeamsMode None false) 2) 2
         (TaskGrouping.independent
            (TaskGrouping.groupTasksForTeams
               (map (fun i => Scenarios.task i []) ["a"; "b"; "c"]))))
  = [Some 0; Some 1].
Proof.
  destruct (dispatchIndependentTasks_one_each
              (DetectMode.detectAgentTeamsMode None false) 2
              (map (fun i => Scenarios.task i []) ["a"; "b"; "c"]))
    as (_ & _ & _ & H).
  rewrite H; [reflexivity|]. repeat constructor; discriminate.
Defined.

End IndependentDispatch.

(** ** Clearing queued notifications *)

Section ClearingNotifications.
Import Alerts AlertNotions.

(** X30: [clearNotifications] never touches the history nor the critical
    flag.  Without a task id it empties the queue; with one it removes
    exactly the queued alerts of that task and keeps the others in order,
    so clearing twice is clearing once and two clearings can be swapped.
    Queued alerts without a task id are removed by no clearing with a task
    id, not even by that of "unknown", the key under which [groupByTask]
    lists them. *)
Theorem clearNotifications_spec (st : State) (cleared : string) :
  let st' := clearNotifications st cleared in
  alertHistory st' = alertHistory st
  /\ criticalAlertsSent st' = criticalAlertsSent st
  /\ (cleared = "" -> notificationQueue st' = [])
  /\ (cleared <> "" ->
      forall a, In a (notificationQueue st')
                <-> In a (notificationQueue st) /\ taskId a <> Some cleared)
  /\ clearNotifications st' cleared = st'
  /\ (forall other, other <> "" -> cleared <> "" ->
        clearNotifications st' other
        = clearNotifications (clearNotifications st other) cleared)
  /\ (forall a, In a (notificationQueue st) ->
        taskId a = None \/ taskId a = Some "" ->
        groupKey a = "unknown"
        /\ In a (notificationQueue (clearNotifications st "unknown"))).
Proof.
  intros st'. unfold st', clearNotifications.
  cbn [alertHistory criticalAlertsSent notificationQueue].
  split; [reflexivity|]. split; [reflexivity|]. split; [|split; [|split; [|split]]].
  - intros ->. reflexivity.
  - intros Hne a. destruct (String.eqb_spec cleared ""); [contradiction|].
    rewrite filter_In. unfold otherTask.
    destruct (taskId a) as [s|].
    + destruct (String.eqb_spec s cleared) as [->|Hs]; cbn [negb].
      * split; [intros [_ H]; discriminate H|intros [_ H]; now contradiction H].
      * split; intros [Hin _]; (split; [exact Hin|]); [congruence|reflexivity].
    + split; intros [Hin _]; (split; [exact Hin|]); [discriminate|reflexivity].
  - destruct (String.eqb cleared ""); [reflexivity|].
    rewrite filter_filter. f_equal. apply filter_ext. intros a.
    now destruct (otherTask cleared a).
  - intros other Ho Hc.
    destruct (String.eqb_spec cleared ""); [contradiction|].
    destruct (String.eqb_spec other ""); [contradiction|].
    rewrite !filter_filter. f_equal. apply filter_ext. intros a. apply andb_comm.
  - intros a Hin Hid. split.
    + unfold groupKey, Js.js_or. destruct Hid as [->| ->]; reflexivity.
    + cbn [String.eqb Ascii.eqb Bool.eqb]. apply filter_In. split; [exact Hin|].
      unfold otherTask. destruct Hid as [->| ->]; reflexivity.
Qed.

(** X30 on a queue with one alert of task 3 and one without task id. *)
Lemma clearNotifications_spec_witness :
  notificationQueue
    (clearNotifications
       (mkState [mkAlert "alert-1" "" (Some "Task 3") "alignment" "warning" [];
                 mkAlert "alert-2" "" None "alignment" "info" []] [] false)
       "")
  = [].
Proof.
  destruct (clearNotifications_spec
              (mkState [mkAlert "alert-1" "" (Some "Task 3") "alignment" "warning" [];
                        mkAlert "alert-2" "" None "alignment" "info" []] [] false)
              "") as (_ & _ & H & _).
  exact (H eq_refl).
Defined.

End ClearingNotifications.
